(** * A virtual DOS file system: the model of [filesystem.py] and [utils.py]

    The file system of the simulator is a tree of Python dictionaries that the
    operations of class [FileSystem] mutate in place.  The model keeps the
    tree as a value, the references the code holds ([current], [parent],
    [node]) as locations (the keys from the root down to the node), and runs
    every method in a small state-and-exception monad, so that what a method
    leaves behind when it raises is part of its result. *)

From Stdlib Require Import List String Ascii ZArith Bool Arith Lia DecimalString.
Import ListNotations.
Local Open Scope string_scope.
Local Open Scope list_scope.

(** ** Python strings

    A [str] is modelled by [string], character by character, for the
    strings of ASCII characters; the functions below are the few methods of
    [str] that the sources call. *)

Module PyStr.

(** [s.replace(a, b)] for one-character [a] and [b]. *)
Fixpoint replace (a b : ascii) (s : string) : string :=
  match s with
  | EmptyString => EmptyString
  | String c r => String (if Ascii.eqb c a then b else c) (replace a b r)
  end.

(** [s.split(sep)] for a one-character [sep]: never the empty list. *)
Fixpoint split (sep : ascii) (s : string) : list string :=
  match s with
  | EmptyString => [EmptyString]
  | String c r =>
      if Ascii.eqb c sep then EmptyString :: split sep r
      else match split sep r with
           | seg :: segs => String c seg :: segs
           | [] => [String c EmptyString]
           end
  end.

(** [c in s]. *)
Fixpoint contains (c : ascii) (s : string) : bool :=
  match s with
  | EmptyString => false
  | String d r => Ascii.eqb d c || contains c r
  end.

Definition upper_char (c : ascii) : ascii :=
  let n := nat_of_ascii c in
  if ((97 <=? n) && (n <=? 122))%nat then ascii_of_nat (n - 32) else c.

(** [s.upper()], on the letters a to z. *)
Fixpoint upper (s : string) : string :=
  match s with
  | EmptyString => EmptyString
  | String c r => String (upper_char c) (upper r)
  end.

(** [s[:n]]. *)
Fixpoint take (n : nat) (s : string) : string :=
  match n, s with
  | S m, String c r => String c (take m r)
  | _, _ => EmptyString
  end.

(** [s[n:]]. *)
Fixpoint drop (n : nat) (s : string) : string :=
  match n, s with
  | S m, String _ r => drop m r
  | _, _ => s
  end.

(** [s.startswith(p)]. *)
Definition startswith (p s : string) : bool := String.prefix p s.

(** [sep.join(l)]. *)
Definition join (sep : string) (l : list string) : string := String.concat sep l.

(** [len(s)], as a Python integer. *)
Definition len (s : string) : Z := Z.of_nat (String.length s).

(** [s.rstrip(chars)]: the trailing characters satisfying [p] removed. *)
Fixpoint rstrip (p : ascii -> bool) (s : string) : string :=
  match s with
  | EmptyString => EmptyString
  | String c r =>
      match rstrip p r with
      | EmptyString => if p c then EmptyString else String c EmptyString
      | r' => String c r'
      end
  end.

(** Every character of [s] satisfies [p]. *)
Fixpoint all (p : ascii -> bool) (s : string) : bool :=
  match s with
  | EmptyString => true
  | String c r => p c && all p r
  end.

(** [s.find(c, start)] for a one-character [c]: [None] stands for -1. *)
Fixpoint find_from (c : ascii) (start : nat) (s : string) : option nat :=
  match s with
  | EmptyString => None
  | String d r =>
      match start with
      | O => if Ascii.eqb d c then Some O
             else option_map S (find_from c O r)
      | S k => option_map S (find_from c k r)
      end
  end.

End PyStr.

Definition backslash : ascii := ascii_of_nat 92.
Definition slash : ascii := ascii_of_nat 47.
Definition colon : ascii := ascii_of_nat 58.

(** ** utils.py *)

(** [parse_path]: the components of a DOS path; a first component holding a
    colon is upper-cased and cut to the drive. *)
Definition parse_path (path : string) : list string :=
  if String.eqb path "" then []
  else
    let normalized := PyStr.replace slash backslash path in
    let parts := PyStr.split backslash normalized in
    match parts with
    | p0 :: rest =>
        if PyStr.contains colon p0 then
          let drive := PyStr.upper p0 in
          let drive := if (2 <? String.length drive)%nat then PyStr.take 2 drive else drive in
          drive :: rest
        else parts
    | [] => parts
    end.

(** The nine characters that the pattern of [is_valid_filename] rejects, by
    code: less-than, greater-than, colon, double quote, slash, backslash,
    bar, question mark, star. *)
Definition invalid_char (c : ascii) : bool :=
  existsb (fun n => Nat.eqb (nat_of_ascii c) n) [60; 62; 58; 34; 47; 92; 124; 63; 42].

Fixpoint has_invalid_char (s : string) : bool :=
  match s with
  | EmptyString => false
  | String c r => invalid_char c || has_invalid_char r
  end.

Definition is_valid_filename (filename : string) : bool :=
  if String.eqb filename "" || String.eqb filename "." || String.eqb filename ".." then false
  else if has_invalid_char filename then false
  else if (255 <? String.length filename)%nat then false
  else true.

(** [str(n)] for an integer. *)
Definition str_int (n : Z) : string := NilZero.string_of_int (Z.to_int n).

(** The integer nearest to [a / b], for [b] positive, the even one of the
    two when [a / b] is half way between them. *)
Definition round_half_even (a b : Z) : Z :=
  let q := (a / b)%Z in
  let r := (a mod b)%Z in
  if (2 * r <? b)%Z then q
  else if (b <? 2 * r)%Z then (q + 1)%Z
  else if Z.even q then q else (q + 1)%Z.

(** [float(n)] for a positive integer [n]: the float nearest to [n], the one
    with the even significand when [n] is half way between two floats.
    Its value is an integer again: [n] rounded to its 53 leading bits. *)
Definition round53 (n : Z) : Z :=
  let e := (Z.log2 n - 52)%Z in
  if (e <=? 0)%Z then n else (round_half_even n (2 ^ e) * 2 ^ e)%Z.

(** The format [.1f] of [n / unit], for an integer [n] from 1024 on and
    [unit] a power of two.  The quotient of two integers is the float
    nearest to it, which is [round53 n / unit]; when that is 2 to the 1024
    or more the division raises [OverflowError], and there is no text.  The
    format rounds the float to the nearest tenth, to the even one when it
    is half way. *)
Definition fixed1 (n unit : Z) : option string :=
  let v := round53 n in
  if (2 ^ 1024 * unit <=? v)%Z then None
  else
    let t := round_half_even (10 * v) unit in
    Some (str_int (t / 10) ++ "." ++ str_int (t mod 10))%string.

(** [format_file_size], for an integer; [None] when it raises. *)
Definition format_file_size (size_bytes : Z) : option string :=
  if (size_bytes <? 1024)%Z then Some (str_int size_bytes ++ " bytes")%string
  else if (size_bytes <? 1024 * 1024)%Z then
    option_map (fun x => (x ++ " KB")%string) (fixed1 size_bytes 1024)
  else option_map (fun x => (x ++ " MB")%string) (fixed1 size_bytes (1024 * 1024)).

(** ** os.path.split

    [os.path] is [posixpath] or [ntpath], by the platform the interpreter
    runs on; both are modelled (after CPython 3.11), and the file system
    below takes the function as a parameter. *)

Definition is_slash (c : ascii) : bool := Ascii.eqb c slash.
Definition is_sep (c : ascii) : bool := Ascii.eqb c slash || Ascii.eqb c backslash.

(** [(p[:i], p[i:])] for [i] just past the last character of [p] that
    satisfies [sep] (0 when there is none). *)
Fixpoint cut_last (sep : ascii -> bool) (p : string) : string * string :=
  match p with
  | EmptyString => (EmptyString, EmptyString)
  | String c r =>
      match cut_last sep r with
      | (EmptyString, t) =>
          if sep c then (String c EmptyString, t) else (EmptyString, String c t)
      | (h, t) => (String c h, t)
      end
  end.

(** [posixpath.split]. *)
Definition posix_split (p : string) : string * string :=
  let '(head, tail) := cut_last is_slash p in
  let head :=
    if negb (String.eqb head "") && negb (PyStr.all is_slash head)
    then PyStr.rstrip is_slash head else head in
  (head, tail).

(** [ntpath.splitdrive]: a drive letter with its colon, or a UNC share. *)
Definition nt_splitdrive (p : string) : string * string :=
  if (2 <=? String.length p)%nat then
    let normp := PyStr.replace slash backslash p in
    if String.eqb (PyStr.take 2 normp) "\\" then
      let start :=
        if String.eqb (PyStr.upper (PyStr.take 8 normp)) "\\?\UNC\" then 8 else 2 in
      match PyStr.find_from backslash start normp with
      | None => (p, "")
      | Some index =>
          match PyStr.find_from backslash (index + 1) normp with
          | None => (p, "")
          | Some index2 => (PyStr.take index2 p, PyStr.drop index2 p)
          end
      end
    else if String.eqb (PyStr.take 1 (PyStr.drop 1 normp)) ":" then
      (PyStr.take 2 p, PyStr.drop 2 p)
    else ("", p)
  else ("", p).

(** [ntpath.split]. *)
Definition nt_split (p : string) : string * string :=
  let '(d, p) := nt_splitdrive p in
  let '(head, tail) := cut_last is_sep p in
  let head := match PyStr.rstrip is_sep head with EmptyString => head | h => h end in
  ((d ++ head)%string, tail).

(** ** The values of the examples *)

(** A clock for the examples: the call number [n] of [time.time()] returns [n]. *)
Definition demo_clock (n : nat) : nat := n.

(** The frames of the examples: with the two of a resolution, the 1000 of
    CPython. *)
Definition demo_frames : nat := 998.

(** A content one character longer than the free space of a new file
    system (10485760 - 177 characters). *)
Definition big_content : string :=
  Pos.iter (String "x") EmptyString 10485584%positive.

(** ** Insertion-ordered dictionaries

    A Python [dict] keeps its keys in insertion order, and [list_directory]
    shows that order: the child mapping of a directory is an association
    list in which the first entry of a key is the entry of the key. *)

Module Dict.
Section Ops.
Context {A : Type}.

(** [d.get(k)]. *)
Fixpoint lookup (k : string) (d : list (string * A)) : option A :=
  match d with
  | [] => None
  | (k', v) :: r => if String.eqb k' k then Some v else lookup k r
  end.

(** [k in d]. *)
Definition mem (k : string) (d : list (string * A)) : bool :=
  match lookup k d with Some _ => true | None => false end.

(** [d[k] = v]: in place when [k] is a key, at the end otherwise. *)
Fixpoint set (k : string) (v : A) (d : list (string * A)) : list (string * A) :=
  match d with
  | [] => [(k, v)]
  | (k', v') :: r => if String.eqb k' k then (k', v) :: r else (k', v') :: set k v r
  end.

(** [del d[k]]. *)
Fixpoint remove (k : string) (d : list (string * A)) : list (string * A) :=
  match d with
  | [] => []
  | (k', v') :: r => if String.eqb k' k then r else (k', v') :: remove k r
  end.

(** The value at [k] replaced by its image under [f], when [k] is a key. *)
Fixpoint modify (k : string) (f : A -> A) (d : list (string * A)) : list (string * A) :=
  match d with
  | [] => []
  | (k', v') :: r => if String.eqb k' k then (k', f v') :: r else (k', v') :: modify k f r
  end.

End Ops.
End Dict.

(** ** filesystem.py *)

(** The exceptions a method of [FileSystem] can end with. *)
Inductive exn : Type :=
| ValueError
| IOError
| TypeError
| IndexError
| RecursionError.

Inductive outcome (A : Type) : Type :=
| Return (a : A)
| Raise (e : exn).
Arguments Return {A} a.
Arguments Raise {A} e.

(** The type of an entry, the value of its key [type]. *)
Inductive kind : Type := dir | file.

(** A location: the keys from the root to a node. *)
Abbreviation loc := (list string).

(** The conjuncts of a goal, one goal each. *)
Ltac conjs := repeat match goal with |- _ /\ _ => split end.

Section Model.

(** [time.time()] returns floats that the code only stores and copies: the
    type of time stamps is left abstract, and [clock n] is what the call
    number [n] of [time.time()] returns. *)
Variable time : Type.
Variable clock : nat -> time.

(** [os.path.split], [posix_split] or [nt_split]. *)
Variable os_path_split : string -> string * string.

(** The frames the interpreter has left when a method is called, beyond the
    two that a resolution takes when the current path starts at the drive
    (the limit of CPython is 1000 frames in all). *)
Variable frames : nat.

Definition recursion_limit : nat := S (S frames).

(** *** The tree *)

#[warnings="-register-all"]
Inductive node : Type :=
| Dir (name : string) (created modified : time) (content : list (string * node))
| File (name : string) (created modified : time) (size : Z) (content : string).

Definition node_kind (n : node) : kind :=
  match n with Dir _ _ _ _ => dir | File _ _ _ _ _ => file end.

Definition node_created (n : node) : time :=
  match n with Dir _ c _ _ => c | File _ c _ _ _ => c end.

Definition node_modified (n : node) : time :=
  match n with Dir _ _ m _ => m | File _ _ m _ _ => m end.

(** [node.get("size", 0)]. *)
Definition node_size (n : node) : Z :=
  match n with Dir _ _ _ _ => 0%Z | File _ _ _ sz _ => sz end.

(** The node at a location. *)
Fixpoint get_at (n : node) (l : loc) : option node :=
  match l with
  | [] => Some n
  | k :: l' =>
      match n with
      | Dir _ _ _ content =>
          match Dict.lookup k content with
          | Some c => get_at c l'
          | None => None
          end
      | File _ _ _ _ _ => None
      end
  end.

(** The tree in which the node at a location has been mutated by [f]. *)
Fixpoint update_at (f : node -> node) (l : loc) (n : node) : node :=
  match l with
  | [] => f n
  | k :: l' =>
      match n with
      | Dir nm cr md content => Dir nm cr md (Dict.modify k (update_at f l') content)
      | File _ _ _ _ _ => n
      end
  end.

(** [n["content"][k] = v]. *)
Definition set_child (k : string) (v : node) (n : node) : node :=
  match n with
  | Dir nm cr md content => Dir nm cr md (Dict.set k v content)
  | File _ _ _ _ _ => n
  end.

(** [del n["content"][k]]. *)
Definition del_child (k : string) (n : node) : node :=
  match n with
  | Dir nm cr md content => Dir nm cr md (Dict.remove k content)
  | File _ _ _ _ _ => n
  end.

(** [n["modified"] = t]. *)
Definition set_modified (t : time) (n : node) : node :=
  match n with
  | Dir nm cr _ content => Dir nm cr t content
  | File nm cr _ sz c => File nm cr t sz c
  end.

(** [n["name"] = k]. *)
Definition set_name (k : string) (n : node) : node :=
  match n with
  | Dir _ cr md content => Dir k cr md content
  | File _ cr md sz c => File k cr md sz c
  end.

(** [_calculate_used_space]. *)
Fixpoint _calculate_used_space (n : node) : Z :=
  match n with
  | File _ _ _ sz _ => sz
  | Dir _ _ _ content =>
      fold_left (fun total item => (total + _calculate_used_space (snd item))%Z) content 0%Z
  end.

(** *** The object and its methods *)

(** The attributes of a [FileSystem], and [ticks], the number of calls of
    [time.time()] so far. *)
Record FileSystem : Type := mkFS {
  root : node;
  current_path : list string;
  total_space : Z;
  used_space : Z;
  ticks : nat
}.

Definition with_root (r : node) (s : FileSystem) : FileSystem :=
  mkFS r (current_path s) (total_space s) (used_space s) (ticks s).

Definition with_current_path (p : list string) (s : FileSystem) : FileSystem :=
  mkFS (root s) p (total_space s) (used_space s) (ticks s).

Definition with_used_space (u : Z) (s : FileSystem) : FileSystem :=
  mkFS (root s) (current_path s) (total_space s) u (ticks s).

(** A method: from the object before the call to how the call ends and the
    object it leaves. *)
Definition M (A : Type) : Type := FileSystem -> outcome A * FileSystem.

Definition ret {A : Type} (a : A) : M A := fun s => (Return a, s).

Definition raise {A : Type} (e : exn) : M A := fun s => (Raise e, s).

Definition bind {A B : Type} (m : M A) (k : A -> M B) : M B :=
  fun s =>
    match m s with
    | (Return a, s') => k a s'
    | (Raise e, s') => (Raise e, s')
    end.

Notation "x <- m ;; k" := (bind m (fun x => k))
  (at level 100, m at next level, right associativity).
Notation "m ;;; k" := (bind m (fun _ => k))
  (at level 100, right associativity).

(** [self]. *)
Definition self : M FileSystem := fun s => (Return s, s).

(** The tree mutated at a location. *)
Definition mutate (l : loc) (f : node -> node) : M unit :=
  fun s => (Return tt, with_root (update_at f l (root s)) s).

(** [time.time()]. *)
Definition time_time : M time :=
  fun s =>
    (Return (clock (ticks s)),
     mkFS (root s) (current_path s) (total_space s) (used_space s) (S (ticks s))).

(** [get_free_space]. *)
Definition get_free_space : M Z :=
  fun s =>
    let s := with_used_space (_calculate_used_space (root s)) s in
    (Return (total_space s - used_space s)%Z, s).

(** The loop of [_get_node_at_path]: [current] is [None] or the location of
    a node, and [i < len(parts) - 1] says that parts remain after [part]. *)
Fixpoint walk (create_dirs : bool) (parts : list string) (current : option loc)
  : M (option loc) :=
  match parts with
  | [] => ret current
  | part :: rest =>
      if String.eqb part "" then walk create_dirs rest current
      else
        match current with
        | None => raise TypeError
        | Some l => fun s =>
            match get_at (root s) l with
            | Some (Dir _ _ _ content) =>
                if Dict.mem part content then walk create_dirs rest (Some (l ++ [part])) s
                else if create_dirs && negb (Nat.eqb (List.length rest) 0) then
                  (created <- time_time ;;
                   modified <- time_time ;;
                   mutate l (set_child part (Dir part created modified [])) ;;;
                   walk create_dirs rest (Some (l ++ [part]))) s
                else (Return None, s)
            | Some (File _ _ _ _ _) => (Return None, s)
            | None => (Raise TypeError, s)
            end
        end
  end.

(** [_get_node_at_path], and [_get_current_node] where it calls itself
    through it; [depth] is the number of frames left. *)
Fixpoint _get_node_at_path_rec (depth : nat) (path : string) (create_dirs : bool)
  : M (option loc) :=
  match depth with
  | O => raise RecursionError
  | S depth' =>
      if String.eqb path "" || String.eqb path "C:" || String.eqb path "C:\"
      then ret (Some [])
      else
        let parts := parse_path path in
        match parts with
        | [] => ret (Some [])
        | p0 :: rest =>
            if String.eqb p0 "C:" then walk create_dirs rest (Some [])
            else
              s <- self ;;
              current <- _get_node_at_path_rec depth' (PyStr.join "\" (current_path s)) false ;;
              pc <- (if String.eqb p0 ".." then
                       if (1 <? List.length (current_path s))%nat then
                         c <- _get_node_at_path_rec depth'
                                (PyStr.join "\" (removelast (current_path s))) false ;;
                         ret (rest, c)
                       else ret (rest, Some [])
                     else ret (parts, current)) ;;
              let parts :=
                match fst pc with
                | p :: ps => if String.eqb p "." then ps else fst pc
                | [] => fst pc
                end in
              walk create_dirs parts (snd pc)
        end
  end.

Definition _get_node_at_path (path : string) (create_dirs : bool) : M (option loc) :=
  _get_node_at_path_rec recursion_limit path create_dirs.

Definition _get_current_node : M (option loc) :=
  s <- self ;; _get_node_at_path (PyStr.join "\" (current_path s)) false.

(** [resolve_path]. *)
Definition resolve_path (path : string) : M (option loc) := _get_node_at_path path false.

(** [dirname or "."]. *)
Definition or_dot (dirname : string) : string :=
  if String.eqb dirname "" then "." else dirname.

(** The test [not node or node["type"] != "dir"] of the methods, turned
    round: the content of the directory a reference designates. *)
Definition dir_content (s : FileSystem) (r : option loc) : option (list (string * node)) :=
  match r with
  | Some l =>
      match get_at (root s) l with
      | Some (Dir _ _ _ content) => Some content
      | _ => None
      end
  | None => None
  end.

(** An entry of a listing: the dictionary [list_directory] builds. *)
Record entry : Type := mkEntry {
  e_name : string;
  e_type : kind;
  e_size : Z;
  e_created : time;
  e_modified : time
}.

(** [__init__]: the tree the simulator starts from; its dictionary display
    reads the clock six times, outermost entry first. *)
Definition readme : string :=
  "Welcome to DOS-Simulator!

This is a Python-based simulation of an MS-DOS like environment.
Type HELP to see available commands.

Enjoy exploring the virtual DOS system!".

Definition init_root : node :=
  Dir "C:" (clock 0) (clock 1)
    [("DOS",
      Dir "DOS" (clock 2) (clock 3)
        [("README.TXT", File "README.TXT" (clock 4) (clock 5) 177 readme)])].

Definition init : FileSystem :=
  mkFS init_root ["C:"] (10 * 1024 * 1024) (_calculate_used_space init_root) 6.

(** [list_directory]. *)
Definition list_directory (path : string) : M (list entry) :=
  node <- _get_node_at_path path false ;;
  s <- self ;;
  match node with
  | Some l =>
      match get_at (root s) l with
      | Some (Dir nm cr md content) =>
          let files := [mkEntry "." dir 0 cr md] in
          files <-
            (if negb (String.eqb path "C:") && negb (String.eqb path "C:\") then
               parent_node <-
                 (if String.eqb path "." then _get_node_at_path ".." false
                  else _get_node_at_path (fst (os_path_split path)) false) ;;
               let parent :=
                 match parent_node with
                 | Some pl => get_at (root s) pl
                 | None => None
                 end in
               ret (files ++
                    [mkEntry ".." dir 0
                       (match parent with Some p => node_created p | None => cr end)
                       (match parent with Some p => node_modified p | None => md end)])
             else ret files) ;;
          ret (files ++
               map (fun item =>
                      mkEntry (fst item) (node_kind (snd item)) (node_size (snd item))
                        (node_created (snd item)) (node_modified (snd item)))
                   content)
      | _ => ret []
      end
  | None => ret []
  end.

(** The loop of [change_directory] over the parts of a relative path. *)
Fixpoint cd_parts (parts : list string) (cp : list string) : list string :=
  match parts with
  | [] => cp
  | part :: rest =>
      if String.eqb part ".." then
        cd_parts rest (if (1 <? List.length cp)%nat then removelast cp else cp)
      else if negb (String.eqb part ".") && negb (String.eqb part "") then
        cd_parts rest (cp ++ [part])
      else cd_parts rest cp
  end.

(** [change_directory]. *)
Definition change_directory (path : string) : M bool :=
  new_node <- _get_node_at_path path false ;;
  s <- self ;;
  match dir_content s new_node with
  | None => ret false
  | Some _ =>
      let cp := current_path s in
      if String.eqb path ".." then
        (fun s => (Return true,
                   with_current_path
                     (if (1 <? List.length cp)%nat then removelast cp else cp) s))
      else if String.eqb path "." then ret true
      else if PyStr.startswith "C:" path then
        match parse_path path with
        | p0 :: rest =>
            if String.eqb p0 "C:"
            then (fun s => (Return true, with_current_path (p0 :: rest) s))
            else ret true
        | [] => raise IndexError
        end
      else
        (fun s => (Return true, with_current_path (cd_parts (parse_path path) cp) s))
  end.

(** [create_directory]. *)
Definition create_directory (path : string) : M bool :=
  let '(dirname, basename) := os_path_split path in
  if negb (is_valid_filename basename) then ret false
  else
    parent <- _get_node_at_path (or_dot dirname) false ;;
    s <- self ;;
    match parent, dir_content s parent with
    | Some l, Some content =>
        if Dict.mem basename content then ret false
        else
          created <- time_time ;;
          modified <- time_time ;;
          mutate l (set_child basename (Dir basename created modified [])) ;;;
          now <- time_time ;;
          mutate l (set_modified now) ;;;
          ret true
    | _, _ => ret false
    end.

(** [remove_directory]; the message it prints for a directory that is not
    empty is not modelled. *)
Definition remove_directory (path : string) : M bool :=
  let '(dirname, basename) := os_path_split path in
  parent <- _get_node_at_path (or_dot dirname) false ;;
  s <- self ;;
  match parent, dir_content s parent with
  | Some l, Some content =>
      match Dict.lookup basename content with
      | None => ret false
      | Some (File _ _ _ _ _) => ret false
      | Some (Dir _ _ _ (_ :: _)) => ret false
      | Some (Dir _ _ _ []) =>
          mutate l (del_child basename) ;;;
          now <- time_time ;;
          mutate l (set_modified now) ;;;
          ret true
      end
  | _, _ => ret false
  end.

(** [read_file]. *)
Definition read_file (path : string) : M (option string) :=
  node <- _get_node_at_path path false ;;
  s <- self ;;
  match node with
  | Some l =>
      match get_at (root s) l with
      | Some (File _ _ _ _ content) => ret (Some content)
      | _ => ret None
      end
  | None => ret None
  end.

(** The size [write_file] credits back: that of a file already at the name. *)
Definition existing_size (basename : string) (content : list (string * node)) : Z :=
  match Dict.lookup basename content with
  | Some (File _ _ _ sz _) => sz
  | _ => 0%Z
  end.

(** What [write_file] leaves at the name: the file there with a new content,
    size and modification time, or a new file. *)
Definition written (basename : string) (now : time) (content : string)
    (old : option node) : node :=
  match old with
  | Some (File nm cr _ _ _) => File nm cr now (PyStr.len content) content
  | _ => File basename now now (PyStr.len content) content
  end.

(** [write_file]. *)
Definition write_file (path : string) (content : string) : M bool :=
  let '(dirname, basename) := os_path_split path in
  if negb (is_valid_filename basename) then raise ValueError
  else
    parent <- _get_node_at_path (or_dot dirname) true ;;
    s <- self ;;
    match parent, dir_content s parent with
    | Some l, Some children =>
        let file_size := PyStr.len content in
        let existing_size := existing_size basename children in
        free <- get_free_space ;;
        if (free + existing_size <? file_size)%Z then raise IOError
        else
          now <- time_time ;;
          mutate l (set_child basename
                      (written basename now content (Dict.lookup basename children))) ;;;
          mutate l (set_modified now) ;;;
          ret true
    | _, _ => raise ValueError
    end.

(** [copy_file]: every exception of [write_file] is caught. *)
Definition copy_file (source destination : string) : M bool :=
  content <- read_file source ;;
  match content with
  | None => ret false
  | Some content =>
      fun s =>
        match write_file destination content s with
        | (Return _, s') => (Return true, s')
        | (Raise _, s') => (Return false, s')
        end
  end.

(** [delete_file]. *)
Definition delete_file (path : string) : M bool :=
  let '(dirname, basename) := os_path_split path in
  parent <- _get_node_at_path (or_dot dirname) false ;;
  s <- self ;;
  match parent, dir_content s parent with
  | Some l, Some content =>
      match Dict.lookup basename content with
      | Some (File _ _ _ _ _) =>
          mutate l (del_child basename) ;;;
          now <- time_time ;;
          mutate l (set_modified now) ;;;
          ret true
      | _ => ret false
      end
  | _, _ => ret false
  end.

(** [rename_file]. *)
Definition rename_file (oldpath newname : string) : M bool :=
  let '(dirname, oldname) := os_path_split oldpath in
  if negb (is_valid_filename newname) then ret false
  else
    parent <- _get_node_at_path (or_dot dirname) false ;;
    s <- self ;;
    match parent, dir_content s parent with
    | Some l, Some content =>
        match Dict.lookup oldname content with
        | None => ret false
        | Some node =>
            if Dict.mem newname content then ret false
            else
              mutate l (set_child newname (set_name newname node)) ;;;
              mutate l (del_child oldname) ;;;
              now <- time_time ;;
              mutate l (set_modified now) ;;;
              ret true
        end
    | _, _ => ret false
    end.

(** [get_current_path]. *)
Definition get_current_path : M string :=
  s <- self ;; ret (PyStr.join "\" (current_path s)).

(** [get_full_path]. *)
Definition get_full_path (path : string) : M string :=
  if String.eqb path "." then get_current_path
  else if PyStr.startswith "C:" path then ret path
  else if String.eqb path ".." then
    s <- self ;;
    if (1 <? List.length (current_path s))%nat
    then ret (PyStr.join "\" (removelast (current_path s)))
    else ret "C:"
  else if PyStr.startswith "\" path then ret ("C:" ++ path)%string
  else cur <- get_current_path ;; ret (cur ++ "\" ++ path)%string.

(** *** The rendering of the tree *)

(** A string of Unicode characters, by the bytes of its UTF-8 encoding. *)
Definition utf8 (codes : list nat) : string :=
  fold_right (fun n s => String (ascii_of_nat n) s) EmptyString codes.

(** The connectors of [generate_tree]: the corner and three dashes, the tee
    and three dashes, the bar and three spaces. *)
Definition tree_last : string :=
  utf8 [226; 148; 148; 226; 148; 128; 226; 148; 128; 226; 148; 128].
Definition tree_mid : string :=
  utf8 [226; 148; 156; 226; 148; 128; 226; 148; 128; 226; 148; 128].
Definition tree_bar : string := (utf8 [226; 148; 130] ++ "   ")%string.

(** The key of [items.sort]: directories before files, then the names in
    upper case. *)
Definition tree_key (x : string * node) : nat * string :=
  (match node_kind (snd x) with dir => 0 | file => 1 end, PyStr.upper (fst x)).

(** The order of Python on such pairs. *)
Definition key_le (a b : nat * string) : bool :=
  (fst a <? fst b)%nat || ((fst a =? fst b)%nat && String.leb (snd a) (snd b)).

(** [items.sort(key=...)]: the sort of Python is stable, and so is the
    insertion of each item after the items before it that are not greater. *)
Fixpoint sort_insert (x : string * node) (l : list (string * node))
  : list (string * node) :=
  match l with
  | [] => [x]
  | y :: r =>
      if key_le (tree_key y) (tree_key x) then y :: sort_insert x r else x :: y :: r
  end.

Definition sort_items (l : list (string * node)) : list (string * node) :=
  fold_left (fun acc x => sort_insert x acc) l [].

(** The items [generate_tree] shows: the directories, and the files when
    [show_files] is set. *)
Definition shown (show_files : bool) (content : list (string * node))
  : list (string * node) :=
  sort_items
    (filter (fun x => match node_kind (snd x) with dir => true | file => show_files end)
       content).

(** The loop of [generate_tree] over the sorted items; [sub] is what it
    calls for a directory. *)
Fixpoint tree_lines (sub : string -> node -> string -> M (list string)) (prefix : string)
    (items : list (string * node)) : M (list string) :=
  match items with
  | [] => ret []
  | (name, item) :: rest =>
      let is_last := Nat.eqb (List.length rest) 0 in
      let branch := if is_last then tree_last else tree_mid in
      let new_prefix := (prefix ++ (if is_last then "    " else tree_bar))%string in
      match node_kind item with
      | dir =>
          subdir_tree <- sub name item new_prefix ;;
          more <- tree_lines sub prefix rest ;;
          ret ((prefix ++ branch ++ name)%string :: subdir_tree ++ more)
      | file =>
          more <- tree_lines sub prefix rest ;;
          ret ((prefix ++ branch ++ name)%string :: more)
      end
  end.

(** [generate_tree]; [depth] is the number of nested calls the interpreter
    has frames for. *)
Fixpoint generate_tree_rec (depth : nat) (path : string) (show_files : bool)
    (prefix : string) : M (list string) :=
  match depth with
  | O => raise RecursionError
  | S depth' =>
      node <- _get_node_at_path path false ;;
      s <- self ;;
      match dir_content s node with
      | None => ret []
      | Some content =>
          tree_lines
            (fun name _ new_prefix =>
               generate_tree_rec depth'
                 (if String.eqb path "." then name else (path ++ "\" ++ name)%string)
                 show_files new_prefix)
            prefix (shown show_files content)
      end
  end.

Definition generate_tree (path : string) (show_files : bool) : M (list string) :=
  generate_tree_rec (S frames) path show_files "".

(** ** The vocabulary of the statements

    What the lemmas and theorems below say of the methods is said with
    these. *)

(** The sum [_calculate_used_space] takes over the children of a directory. *)
Definition sum_used (content : list (string * node)) : Z :=
  fold_left (fun total item => (total + _calculate_used_space (snd item))%Z) content 0%Z.

(** The space of the entry at a name, when there is one. *)
Definition used_opt (o : option node) : Z :=
  match o with Some n => _calculate_used_space n | None => 0%Z end.

(** The parts the loop does not skip. *)
Definition ne (parts : list string) : list string :=
  filter (fun p => negb (String.eqb p "")) parts.

(** The files of two trees are the same, place by place. *)
Definition files_same (r r' : node) : Prop :=
  forall m nm cr md sz c,
    get_at r m = Some (File nm cr md sz c) <-> get_at r' m = Some (File nm cr md sz c).

(** Every entry of [r] is an entry of [r'], of the same type. *)
Definition entries_kept (r r' : node) : Prop :=
  forall m n, get_at r m = Some n ->
    exists n', get_at r' m = Some n' /\ node_kind n' = node_kind n.

(** The paths [_get_node_at_path] answers with the root at once. *)
Definition early (path : string) : bool :=
  String.eqb path "" || String.eqb path "C:" || String.eqb path "C:\".

(** A leading [.] dropped. *)
Definition strip_dot (parts : list string) : list string :=
  match parts with
  | p :: ps => if String.eqb p "." then ps else parts
  | [] => parts
  end.

(** Where the loop starts: the root, the current directory or its parent. *)
Inductive anchor : Type := Root | Cwd | Parent.

(** The anchor of a path and the parts its loop goes through. *)
Definition plan (path : string) : anchor * list string :=
  if early path then (Root, [])
  else
    match parse_path path with
    | [] => (Root, [])
    | p0 :: rest =>
        if String.eqb p0 "C:" then (Root, rest)
        else if String.eqb p0 ".." then (Parent, strip_dot rest)
        else (Cwd, strip_dot (p0 :: rest))
    end.

(** The current path starts at the drive, as [__init__] and
    [change_directory] leave it. *)
Definition wf_cp (s : FileSystem) : Prop :=
  exists rest, current_path s = "C:" :: rest.

(** The parts of a current path below the drive. *)
Definition cwd_parts (cp : list string) : list string :=
  tl (parse_path (PyStr.join "\" cp)).

(** The place parts lead to from the root, when there is a node there. *)
Definition find (r : node) (parts : list string) : option loc :=
  match get_at r (ne parts) with
  | Some _ => Some (ne parts)
  | None => None
  end.

(** The place the loop starts from, when the current path leads there. *)
Definition anchor_loc (k : anchor) (s : FileSystem) : option loc :=
  match k with
  | Root => Some []
  | Cwd => find (root s) (cwd_parts (current_path s))
  | Parent =>
      if (1 <? List.length (current_path s))%nat
      then find (root s) (cwd_parts (removelast (current_path s)))
      else Some []
  end.

(** What a resolution may change: directories it creates, and the clock. *)
Definition preserved (s s' : FileSystem) : Prop :=
  current_path s' = current_path s
  /\ total_space s' = total_space s
  /\ used_space s' = used_space s
  /\ _calculate_used_space (root s') = _calculate_used_space (root s)
  /\ files_same (root s) (root s')
  /\ entries_kept (root s) (root s').

(** The state [write_file] leaves when it succeeds, from the state [s1] that
    the resolution of the parent left. *)
Definition write_result (l : loc) (basename content : string)
    (children : list (string * node)) (s1 : FileSystem) : FileSystem :=
  let now := clock (ticks s1) in
  mkFS
    (update_at (set_modified now) l
       (update_at (set_child basename (written basename now content
                                         (Dict.lookup basename children))) l (root s1)))
    (current_path s1) (total_space s1) (_calculate_used_space (root s1)) (S (ticks s1)).

(** The parts of a path before the drive is dealt with. *)
Definition segs (p : string) : list string :=
  PyStr.split backslash (PyStr.replace slash backslash p).

(** What [parse_path] does to a first part that holds a colon. *)
Definition fix_drive (parts : list string) : list string :=
  match parts with
  | p0 :: rest =>
      if PyStr.contains colon p0 then
        (if (2 <? String.length (PyStr.upper p0))%nat
         then PyStr.take 2 (PyStr.upper p0) else PyStr.upper p0) :: rest
      else parts
  | [] => []
  end.

(** [plan] without the three paths answered at once: they fall under the
    general case but for parts that are empty. *)
Definition plan' (path : string) : anchor * list string :=
  match parse_path path with
  | [] => (Root, [])
  | p0 :: rest =>
      if String.eqb p0 "C:" then (Root, rest)
      else if String.eqb p0 ".." then (Parent, strip_dot rest)
      else (Cwd, strip_dot (p0 :: rest))
  end.

(** Two plans with the same anchor and the same parts, the empty ones aside. *)
Definition plan_equiv (p q : anchor * list string) : Prop :=
  fst p = fst q /\ ne (snd p) = ne (snd q).

(** The resolution, from the plan of its path. *)
Definition run_plan (d : nat) (c : bool) (p : anchor * list string) : M (option loc) :=
  match fst p with
  | Root => walk c (snd p) (Some [])
  | Cwd =>
      s <- self ;;
      current <- _get_node_at_path_rec d (PyStr.join "\" (current_path s)) false ;;
      walk c (snd p) current
  | Parent =>
      s <- self ;;
      current <- _get_node_at_path_rec d (PyStr.join "\" (current_path s)) false ;;
      if (1 <? List.length (current_path s))%nat then
        current <- _get_node_at_path_rec d
                     (PyStr.join "\" (removelast (current_path s))) false ;;
        walk c (snd p) current
      else walk c (snd p) (Some [])
  end.

(** The current path starts at the drive and leads to an entry. *)
Definition cwd_ok (s : FileSystem) : Prop :=
  wf_cp s /\ exists l, _get_current_node s = (Return (Some l), s).

(** [os.path.split] has cut the path at a separator: the path is its
    directory part, separators, and its last part; the separators may be
    none only when the directory part ends with one, and the directory part
    is empty only when the path is its last part alone. *)
Definition coherent (p d b : string) : Prop :=
  (d = "" /\ p = b)
  \/ (d <> ""
      /\ exists m, PyStr.all is_sep m = true
           /\ p = (d ++ m ++ b)%string
           /\ (m <> "" \/ exists d0 c, d = (d0 ++ String c "")%string /\ is_sep c = true)).

(** The entry of a child in a listing. *)
Definition listed (item : string * node) : entry :=
  mkEntry (fst item) (node_kind (snd item)) (node_size (snd item))
    (node_created (snd item)) (node_modified (snd item)).

(** The path [list_directory] resolves for the [..] entry. *)
Definition parent_path (path : string) : string :=
  if String.eqb path "." then ".." else fst (os_path_split path).

(** The [..] entry: the time stamps of the parent when it resolves, those
    of the directory itself otherwise. *)
Definition dotdot (s : FileSystem) (parent : option loc) (cr md : time) : entry :=
  match parent with
  | Some pl =>
      match get_at (root s) pl with
      | Some p => mkEntry ".." dir 0 (node_created p) (node_modified p)
      | None => mkEntry ".." dir 0 cr md
      end
  | None => mkEntry ".." dir 0 cr md
  end.

(** A string without a separator. *)
Definition nosep (x : string) : bool := PyStr.all (fun c => negb (is_sep c)) x.

(** The object [create_directory] leaves when it succeeds, under the
    directory at [l]. *)
Definition made (l : loc) (b : string) (s : FileSystem) : FileSystem :=
  mkFS
    (update_at (set_modified (clock (S (S (ticks s))))) l
       (update_at (set_child b (Dir b (clock (ticks s)) (clock (S (ticks s))) [])) l (root s)))
    (current_path s) (total_space s) (used_space s) (S (S (S (ticks s)))).

(** The object [remove_directory] and [delete_file] leave when they
    succeed, under the directory at [l]. *)
Definition unlinked (l : loc) (b : string) (s : FileSystem) : FileSystem :=
  mkFS
    (update_at (set_modified (clock (ticks s))) l (update_at (del_child b) l (root s)))
    (current_path s) (total_space s) (used_space s) (S (ticks s)).

(** The object [rename_file] leaves when it succeeds, under the directory
    at [l]. *)
Definition renamed (l : loc) (oldname newname : string) (n : node) (s : FileSystem)
  : FileSystem :=
  mkFS
    (update_at (set_modified (clock (ticks s))) l
       (update_at (del_child oldname) l
          (update_at (set_child newname (set_name newname n)) l (root s))))
    (current_path s) (total_space s) (used_space s) (S (ticks s)).

(** The trees the methods build: a dictionary has one entry for a key, so
    no key comes twice in the list that stands for it, and the size of a
    file is not negative. *)
Fixpoint tree_ok (n : node) : Prop :=
  match n with
  | File _ _ _ sz _ => (0 <= sz)%Z
  | Dir _ _ _ content =>
      NoDup (map fst content)
      /\ (fix all_ok (c : list (string * node)) : Prop :=
            match c with
            | [] => True
            | (_, v) :: r => tree_ok v /\ all_ok r
            end) content
  end.

(** The space in use is within the capacity of the disk. *)
Definition space_ok (s : FileSystem) : Prop :=
  tree_ok (root s) /\ (_calculate_used_space (root s) <= total_space s)%Z.

(** The current path as [__init__] and [change_directory] leave it: the
    drive, then parts without a separator. *)
Definition clean_cp (s : FileSystem) : Prop :=
  exists rest, current_path s = "C:" :: rest /\ Forall (fun x => nosep x = true) rest.

(** A list of valid names, for a relative path such as [A\B\C]. *)
Definition valid_names (parts : list string) : Prop :=
  parts <> [] /\ Forall (fun x => is_valid_filename x = true) parts.

(** The rendering of a node itself: the lines [generate_tree] is to give
    for the path of the node, with the subtree of a directory taken from
    the directory and not from a path. *)
Fixpoint render (depth : nat) (show_files : bool) (prefix : string) (n : node)
  : M (list string) :=
  match depth with
  | O => raise RecursionError
  | S depth' =>
      match n with
      | Dir _ _ _ content =>
          tree_lines (fun _ item new_prefix => render depth' show_files new_prefix item)
            prefix (shown show_files content)
      | File _ _ _ _ _ => ret []
      end
  end.

(** Every name below a node is a valid file name. *)
Definition names_valid (n : node) : Prop :=
  forall m k, get_at n (m ++ [k]) <> None -> is_valid_filename k = true.

(** The entry a path denotes: the node at the place where the resolution
    of the path ends, when it ends at one. *)
Definition denoted (path : string) (s : FileSystem) : option node :=
  match _get_node_at_path path false s with
  | (Return (Some l), _) => get_at (root s) l
  | _ => None
  end.

Definition is_dir (o : option node) : bool :=
  match o with Some (Dir _ _ _ _) => true | _ => false end.

Definition is_file (o : option node) : bool :=
  match o with Some (File _ _ _ _ _) => true | _ => false end.

(** The children of the directory that the directory part of a path
    denotes. *)
Definition parent_content (path : string) (s : FileSystem)
  : option (list (string * node)) :=
  match denoted (or_dot (fst (os_path_split path))) s with
  | Some (Dir _ _ _ content) => Some content
  | _ => None
  end.

(** The entry under the last part of a path in that directory. *)
Definition entry_at (path : string) (s : FileSystem) : option node :=
  match parent_content path s with
  | Some content => Dict.lookup (snd (os_path_split path)) content
  | None => None
  end.

(** The object after the loop of a resolution has created the directory
    [k] under the directory at [l]. *)
Definition inserted (l : loc) (k : string) (s : FileSystem) : FileSystem :=
  mkFS
    (update_at (set_child k (Dir k (clock (ticks s)) (clock (S (ticks s))) [])) l (root s))
    (current_path s) (total_space s) (used_space s) (S (S (ticks s))).

(** * The properties *)

(** ** Dictionaries, locations and mutation *)

Lemma lookup_set_same (A : Type) (k : string) (v : A) (d : list (string * A)) :
  Dict.lookup k (Dict.set k v d) = Some v.
Proof.
  induction d as [|[k' v'] d IH]; simpl.
  - now rewrite String.eqb_refl.
  - destruct (String.eqb k' k) eqn:E; simpl; rewrite E; auto.
Qed.

Lemma lookup_set_other (A : Type) (k k' : string) (v : A) (d : list (string * A)) :
  k' <> k -> Dict.lookup k' (Dict.set k v d) = Dict.lookup k' d.
Proof.
  intros N; induction d as [|[k0 v0] d IH]; simpl.
  - destruct (String.eqb k k') eqn:E; auto.
    apply String.eqb_eq in E; congruence.
  - destruct (String.eqb k0 k) eqn:E; simpl.
    + apply String.eqb_eq in E; subst k0.
      destruct (String.eqb k k') eqn:E'; auto.
      apply String.eqb_eq in E'; congruence.
    + now rewrite IH.
Qed.

Lemma lookup_modify_same (A : Type) (k : string) (f : A -> A) (d : list (string * A)) :
  Dict.lookup k (Dict.modify k f d) = option_map f (Dict.lookup k d).
Proof.
  induction d as [|[k' v'] d IH]; simpl; auto.
  destruct (String.eqb k' k) eqn:E; simpl; rewrite E; auto.
Qed.

Lemma lookup_modify_other (A : Type) (k k' : string) (f : A -> A) (d : list (string * A)) :
  k' <> k -> Dict.lookup k' (Dict.modify k f d) = Dict.lookup k' d.
Proof.
  intros N; induction d as [|[k0 v0] d IH]; simpl; auto.
  destruct (String.eqb k0 k) eqn:E; simpl.
  - apply String.eqb_eq in E; subst k0.
    destruct (String.eqb k k') eqn:E'; auto.
    apply String.eqb_eq in E'; congruence.
  - now rewrite IH.
Qed.

Lemma mem_lookup (A : Type) (k : string) (d : list (string * A)) :
  Dict.mem k d = true <-> exists v, Dict.lookup k d = Some v.
Proof.
  unfold Dict.mem; destruct (Dict.lookup k d); split; intros H; eauto.
  - discriminate.
  - destruct H; discriminate.
Qed.

Lemma mem_false_lookup (A : Type) (k : string) (d : list (string * A)) :
  Dict.mem k d = false <-> Dict.lookup k d = None.
Proof.
  unfold Dict.mem; destruct (Dict.lookup k d); split; intros H; auto; discriminate.
Qed.

Lemma get_at_app (n : node) (l m : loc) :
  get_at n (l ++ m) = match get_at n l with Some x => get_at x m | None => None end.
Proof.
  revert n; induction l as [|k l IH]; intros n; simpl; auto.
  destruct n; auto.
  destruct (Dict.lookup k content); auto.
Qed.

(** A node below the place of a mutation is read in the mutated node. *)
Lemma get_at_update_below (f : node -> node) (l m : loc) (n x : node) :
  get_at n l = Some x -> get_at (update_at f l n) (l ++ m) = get_at (f x) m.
Proof.
  revert n; induction l as [|k l IH]; intros n H; simpl in *.
  - now inversion H.
  - destruct n; try discriminate.
    rewrite lookup_modify_same.
    destruct (Dict.lookup k content); try discriminate; simpl; auto.
Qed.

Lemma get_at_update_same (f : node -> node) (l : loc) (n x : node) :
  get_at n l = Some x -> get_at (update_at f l n) l = Some (f x).
Proof.
  intros H. rewrite <- (app_nil_r l) at 2.
  now rewrite (get_at_update_below f l [] n x H).
Qed.

(** A node above the place of a mutation stays where it is. *)
Lemma get_at_update_above (f : node -> node) (l m : loc) (n : node) :
  get_at (update_at f (l ++ m) n) l = option_map (update_at f m) (get_at n l).
Proof.
  revert n; induction l as [|k l IH]; intros n; simpl; auto.
  destruct n; simpl; auto.
  rewrite lookup_modify_same.
  destruct (Dict.lookup k content); simpl; auto.
Qed.

Lemma get_at_update_some (f : node -> node) (l m : loc) (n : node) :
  get_at n l <> None -> get_at (update_at f (l ++ m) n) l <> None.
Proof.
  rewrite get_at_update_above. destruct (get_at n l); simpl; congruence.
Qed.

(** ** Used space *)

Lemma fold_used_acc (content : list (string * node)) (a : Z) :
  fold_left (fun total item => (total + _calculate_used_space (snd item))%Z) content a
  = (a + sum_used content)%Z.
Proof.
  unfold sum_used. revert a; induction content as [|i c IH]; intros a; simpl.
  - lia.
  - rewrite (IH (a + _)%Z), (IH (_calculate_used_space (snd i))). lia.
Qed.

Lemma sum_used_cons (i : string * node) (c : list (string * node)) :
  sum_used (i :: c) = (_calculate_used_space (snd i) + sum_used c)%Z.
Proof. unfold sum_used at 1; simpl; rewrite fold_used_acc; lia. Qed.

Lemma used_dir (nm : string) (cr md : time) (c : list (string * node)) :
  _calculate_used_space (Dir nm cr md c) = sum_used c.
Proof. reflexivity. Qed.

Lemma sum_used_set (k : string) (v : node) (c : list (string * node)) :
  sum_used (Dict.set k v c)
  = (sum_used c - used_opt (Dict.lookup k c) + _calculate_used_space v)%Z.
Proof.
  induction c as [|[k' v'] c IH]; simpl.
  - rewrite sum_used_cons; simpl; unfold sum_used; simpl; lia.
  - destruct (String.eqb k' k); rewrite !sum_used_cons; simpl; try rewrite IH; lia.
Qed.

Lemma sum_used_modify (k : string) (f : node -> node) (c : list (string * node)) :
  sum_used (Dict.modify k f c)
  = (sum_used c - used_opt (Dict.lookup k c)
     + used_opt (option_map f (Dict.lookup k c)))%Z.
Proof.
  induction c as [|[k' v'] c IH]; simpl.
  - reflexivity.
  - destruct (String.eqb k' k); simpl; rewrite !sum_used_cons; simpl;
      try rewrite IH; lia.
Qed.

Lemma sum_used_remove (k : string) (c : list (string * node)) :
  sum_used (Dict.remove k c) = (sum_used c - used_opt (Dict.lookup k c))%Z.
Proof.
  induction c as [|[k' v'] c IH]; simpl.
  - reflexivity.
  - destruct (String.eqb k' k); rewrite !sum_used_cons; simpl; try rewrite IH; lia.
Qed.

(** Mutating a node changes the used space by what the node gains. *)
Lemma used_update_at (f : node -> node) (l : loc) (n x : node) :
  get_at n l = Some x ->
  _calculate_used_space (update_at f l n)
  = (_calculate_used_space n - _calculate_used_space x + _calculate_used_space (f x))%Z.
Proof.
  revert n; induction l as [|k l IH]; intros n H; simpl in H.
  - inversion H; subst; simpl; lia.
  - destruct n; try discriminate.
    destruct (Dict.lookup k content) as [c|] eqn:E; try discriminate.
    cbn [update_at]. rewrite !used_dir, sum_used_modify, E; simpl.
    rewrite (IH c H). lia.
Qed.

(** ** The loop of the resolution *)

Lemma files_same_refl (r : node) : files_same r r.
Proof. intros m nm cr md sz c; reflexivity. Qed.

Lemma files_same_trans (r1 r2 r3 : node) :
  files_same r1 r2 -> files_same r2 r3 -> files_same r1 r3.
Proof.
  intros H1 H2 m nm cr md sz c. rewrite (H1 m nm cr md sz c). apply H2.
Qed.

Lemma entries_kept_refl (r : node) : entries_kept r r.
Proof. intros m n H; eauto. Qed.

Lemma entries_kept_trans (r1 r2 r3 : node) :
  entries_kept r1 r2 -> entries_kept r2 r3 -> entries_kept r1 r3.
Proof.
  intros H1 H2 m n H. destruct (H1 m n H) as (n' & G & K).
  destruct (H2 m n' G) as (n'' & G' & K'). exists n''; split; congruence.
Qed.

(** An empty directory put under a new name of a directory adds no file and
    removes no entry. *)
Lemma insert_dir_same (k : string) (a b : time) (l : loc) (r : node)
    (nm : string) (cr md : time) (content : list (string * node)) :
  get_at r l = Some (Dir nm cr md content) ->
  Dict.lookup k content = None ->
  files_same r (update_at (set_child k (Dir k a b [])) l r)
  /\ entries_kept r (update_at (set_child k (Dir k a b [])) l r).
Proof.
  revert r; induction l as [|k0 l IH]; intros r H N.
  - simpl in H; inversion H; subst r; clear H. split.
    + intros [|k' m] fn fc fm fs fcn; simpl; [split; discriminate|].
      destruct (String.eqb_spec k' k) as [->|D].
      * rewrite lookup_set_same, N.
        destruct m; simpl; split; discriminate.
      * now rewrite lookup_set_other.
    + intros [|k' m] n G; simpl in *.
      * inversion G; subst; eexists; split; eauto.
      * destruct (String.eqb_spec k' k) as [->|D].
        -- rewrite N in G; discriminate.
        -- rewrite lookup_set_other by auto.
           destruct (Dict.lookup k' content); [eauto|discriminate].
  - simpl in H. destruct r as [rn rc rm rcontent|]; [|discriminate].
    destruct (Dict.lookup k0 rcontent) as [c|] eqn:E; [|discriminate].
    destruct (IH c H N) as [F K]. split.
    + intros [|k' m] fn fc fm fs fcn; simpl; [split; discriminate|].
      destruct (String.eqb_spec k' k0) as [->|D].
      * rewrite lookup_modify_same, E; simpl. apply F.
      * now rewrite lookup_modify_other.
    + intros [|k' m] n G; simpl in *.
      * inversion G; subst; eexists; split; eauto.
      * destruct (String.eqb_spec k' k0) as [->|D].
        -- rewrite lookup_modify_same, E in *; simpl. apply K, G.
        -- rewrite lookup_modify_other by auto.
           destruct (Dict.lookup k' rcontent); [eauto|discriminate].
Qed.

Lemma entries_kept_some (r r' : node) (m : loc) :
  entries_kept r r' -> get_at r m <> None -> get_at r' m <> None.
Proof.
  intros K H. destruct (get_at r m) as [n|] eqn:E; [|congruence].
  destruct (K m n E) as (n' & G & _). congruence.
Qed.

Lemma ne_app (a b : list string) : ne (a ++ b) = ne a ++ ne b.
Proof. apply filter_app. Qed.

Lemma walk_nil (c : bool) (cur : option loc) (s : FileSystem) :
  walk c [] cur s = (Return cur, s).
Proof. reflexivity. Qed.

Lemma walk_empty (c : bool) (rest : list string) (cur : option loc) (s : FileSystem) :
  walk c ("" :: rest) cur s = walk c rest cur s.
Proof. reflexivity. Qed.

(** From no node at all, the loop ends in [TypeError] at its first part that
    is not empty. *)
Lemma walk_none (c : bool) (parts : list string) (s : FileSystem) :
  walk c parts None s
  = (match ne parts with [] => Return None | _ :: _ => Raise TypeError end, s).
Proof.
  induction parts as [|p parts IH]; simpl; auto.
  destruct (String.eqb p ""); simpl; auto.
Qed.

(** What the loop keeps and what it returns, from a node of the tree. *)
Lemma walk_inv (c : bool) (parts : list string) :
  forall (l : loc) (s : FileSystem) (r : outcome (option loc)) (s' : FileSystem),
    get_at (root s) l <> None ->
    walk c parts (Some l) s = (r, s') ->
    current_path s' = current_path s
    /\ total_space s' = total_space s
    /\ used_space s' = used_space s
    /\ _calculate_used_space (root s') = _calculate_used_space (root s)
    /\ files_same (root s) (root s')
    /\ entries_kept (root s) (root s')
    /\ (c = false -> s' = s)
    /\ exists o, r = Return o
         /\ forall l', o = Some l' -> l' = l ++ ne parts /\ get_at (root s') l' <> None.
Proof.
  induction parts as [|part rest IH]; intros l s r s' V H.
  - rewrite walk_nil in H; inversion H; subst.
    conjs; auto using files_same_refl, entries_kept_refl.
    eexists; split; eauto. intros l' E; inversion E; subst.
    simpl; rewrite app_nil_r; auto.
  - cbn [walk] in H. destruct (String.eqb part "") eqn:Ep.
    + cbn [ne filter]; rewrite Ep; simpl. eapply IH; eauto.
    + cbn [ne filter]; rewrite Ep; cbn [negb].
      destruct (get_at (root s) l) as [n|] eqn:G; [|congruence].
      destruct n as [nm cr md content|].
      * destruct (Dict.mem part content) eqn:Em.
        -- apply mem_lookup in Em; destruct Em as [ch Ech].
           assert (V' : get_at (root s) (l ++ [part]) <> None).
           { rewrite get_at_app, G; simpl; rewrite Ech; discriminate. }
           destruct (IH _ _ _ _ V' H) as (A1 & A2 & A3 & A4 & A5 & A6 & A7 & o & Ho & A8).
           conjs; auto. exists o; split; auto.
           intros l' E; destruct (A8 l' E) as [-> A9]; split; auto.
           now rewrite <- app_assoc.
        -- apply mem_false_lookup in Em.
           destruct (c && negb (Nat.eqb (List.length rest) 0)) eqn:Ec.
           ++ unfold bind, time_time, mutate in H; cbn [root ticks] in H.
              match type of H with walk _ _ _ ?S2 = _ => set (s2 := S2) in * end.
              destruct (insert_dir_same part (clock (ticks s)) (clock (S (ticks s)))
                          l (root s) nm cr md content G Em) as [F K].
              assert (R2 : root s2 = update_at
                        (set_child part (Dir part (clock (ticks s)) (clock (S (ticks s))) []))
                        l (root s)) by reflexivity.
              assert (V' : get_at (root s2) (l ++ [part]) <> None).
              { rewrite R2, (get_at_update_below _ l [part] _ _ G); simpl.
                rewrite lookup_set_same; discriminate. }
              destruct (IH _ _ _ _ V' H) as (A1 & A2 & A3 & A4 & A5 & A6 & A7 & o & Ho & A8).
              assert (U : _calculate_used_space (root s2) = _calculate_used_space (root s)).
              { rewrite R2, (used_update_at _ l _ _ G); cbn [set_child].
                rewrite !used_dir, sum_used_set, Em; simpl. lia. }
              rewrite <- R2 in F, K.
              split; [exact A1|]. split; [exact A2|]. split; [exact A3|].
              split; [congruence|].
              split; [eapply files_same_trans; eauto|].
              split; [eapply entries_kept_trans; eauto|].
              split; [apply andb_prop in Ec; destruct Ec; intros ->; discriminate|].
              exists o; split; auto.
              intros l' E; destruct (A8 l' E) as [-> A9]; split; auto.
              now rewrite <- app_assoc.
           ++ inversion H; subst.
              conjs; auto using files_same_refl, entries_kept_refl.
              eexists; split; eauto; discriminate.
      * inversion H; subst.
        conjs; auto using files_same_refl, entries_kept_refl.
        eexists; split; eauto; discriminate.
Qed.

(** Without [create_dirs] the loop reads the tree and nothing else: it
    returns the place its parts lead to, when there is a node there. *)
Lemma walk_false_spec (parts : list string) :
  forall (l : loc) (s : FileSystem),
    get_at (root s) l <> None ->
    walk false parts (Some l) s
    = (Return (match get_at (root s) (l ++ ne parts) with
               | Some _ => Some (l ++ ne parts)
               | None => None
               end), s).
Proof.
  induction parts as [|part rest IH]; intros l s V.
  - rewrite walk_nil; simpl. rewrite app_nil_r.
    destruct (get_at (root s) l); [reflexivity|congruence].
  - cbn [walk ne filter]. destruct (String.eqb part "") eqn:Ep; cbn [negb].
    + now apply IH.
    + destruct (get_at (root s) l) as [n|] eqn:G; [|congruence].
      rewrite (get_at_app _ l (part :: _)), G. cbn [get_at].
      destruct n as [nm cr md content|]; auto.
      destruct (Dict.mem part content) eqn:Em.
      * apply mem_lookup in Em; destruct Em as [ch Ech]. rewrite Ech.
        rewrite IH.
        -- rewrite <- app_assoc; simpl.
           rewrite (get_at_app _ l (part :: _)), G; simpl. now rewrite Ech.
        -- rewrite get_at_app, G; simpl; rewrite Ech; discriminate.
      * apply mem_false_lookup in Em. now rewrite Em.
Qed.

Lemma walk_false_pure (parts : list string) (cur : option loc) (s s' : FileSystem)
    (r : outcome (option loc)) :
  walk false parts cur s = (r, s') -> s' = s.
Proof.
  revert cur s; induction parts as [|part rest IH]; intros cur s H.
  - inversion H; auto.
  - cbn [walk] in H. destruct (String.eqb part ""); [eauto|].
    destruct cur as [l|]; [|inversion H; auto].
    destruct (get_at (root s) l) as [[nm cr md content|]|]; try (inversion H; auto; fail).
    destruct (Dict.mem part content); [eauto|].
    simpl in H; inversion H; auto.
Qed.

(** Without [create_dirs] only the parts that are not empty count. *)
Lemma walk_false_ne (parts : list string) (cur : option loc) (s : FileSystem) :
  walk false parts cur s = walk false (ne parts) cur s.
Proof.
  revert cur s; induction parts as [|part rest IH]; intros cur s; auto.
  cbn [ne filter walk]. destruct (String.eqb part "") eqn:Ep; cbn [negb walk]; auto.
  rewrite Ep. destruct cur as [l|]; auto.
  destruct (get_at (root s) l) as [[nm cr md content|]|]; auto.
  destruct (Dict.mem part content); auto.
Qed.

(** What is found without creating is found, and nothing is created, when
    creating is allowed. *)
Lemma walk_false_true (parts : list string) :
  forall (l l' : loc) (s : FileSystem),
    walk false parts (Some l) s = (Return (Some l'), s) ->
    walk true parts (Some l) s = (Return (Some l'), s).
Proof.
  induction parts as [|part rest IH]; intros l l' s H; auto.
  cbn [walk] in *. destruct (String.eqb part ""); [eauto|].
  destruct (get_at (root s) l) as [[nm cr md content|]|]; auto.
  destruct (Dict.mem part content); [eauto|].
  simpl in H; discriminate.
Qed.

(** From a directory that is empty, parts whose last is not empty lead
    nowhere: the last part is never created. *)
Lemma walk_fresh (c : bool) (parts : list string) :
  forall (l : loc) (s s' : FileSystem) (r : outcome (option loc))
         (nm : string) (cr md : time),
    parts <> [] -> last parts "" <> "" ->
    get_at (root s) l = Some (Dir nm cr md []) ->
    walk c parts (Some l) s = (r, s') -> r = Return None.
Proof.
  induction parts as [|part rest IH]; intros l s s' r nm cr md NE L G H; [congruence|].
  assert (R : rest <> [] -> last (part :: rest) "" = last rest "").
  { destruct rest; [congruence|reflexivity]. }
  cbn [walk] in H. destruct (String.eqb part "") eqn:Ep.
  - destruct rest as [|p2 rest].
    + apply String.eqb_eq in Ep; subst; simpl in L; congruence.
    + apply (IH l s s' r nm cr md); auto; try discriminate;
        try (rewrite <- R; auto; discriminate).
  - rewrite G in H. cbn [Dict.mem Dict.lookup] in H.
    destruct rest as [|p2 rest].
    + rewrite andb_false_r in H. inversion H; auto.
    + destruct c; cbn [andb negb Nat.eqb List.length] in H; [|inversion H; auto].
      unfold bind, time_time, mutate in H; cbn [root ticks] in H.
      match type of H with walk _ _ _ ?S2 = _ => set (s2 := S2) in * end.
      apply (IH (l ++ [part]) s2 s' r part (clock (ticks s)) (clock (S (ticks s))));
        auto; try discriminate;
        try (rewrite <- R; auto; discriminate).
      subst s2; cbn [root with_root]. rewrite (get_at_update_below _ l [part] _ _ G).
      simpl. rewrite String.eqb_refl. reflexivity.
Qed.

(** When the last part is not empty, a resolution that returns an entry has
    created nothing. *)
Lemma walk_final (c : bool) (parts : list string) :
  forall (l l' : loc) (s s' : FileSystem),
    parts <> [] -> last parts "" <> "" ->
    walk c parts (Some l) s = (Return (Some l'), s') -> s' = s.
Proof.
  induction parts as [|part rest IH]; intros l l' s s' NE L H; [congruence|].
  assert (R : rest <> [] -> last (part :: rest) "" = last rest "").
  { destruct rest; [congruence|reflexivity]. }
  cbn [walk] in H. destruct (String.eqb part "") eqn:Ep.
  - destruct rest as [|p2 rest].
    + apply String.eqb_eq in Ep; subst; simpl in L; congruence.
    + apply (IH l l' s s'); auto; try discriminate;
        try (rewrite <- R; auto; discriminate).
  - destruct (get_at (root s) l) as [[nm cr md content|]|] eqn:G; try discriminate.
    destruct (Dict.mem part content) eqn:Em.
    + destruct rest as [|p2 rest]; [inversion H; auto|].
      apply (IH (l ++ [part]) l' s s'); auto; try discriminate;
        try (rewrite <- R; auto; discriminate).
    + destruct rest as [|p2 rest]; [rewrite andb_false_r in H; discriminate|].
      destruct c; cbn [andb negb Nat.eqb List.length] in H; [|discriminate].
      unfold bind, time_time, mutate in H; cbn [root ticks] in H.
      match type of H with walk _ _ _ ?S2 = _ => set (s2 := S2) in * end.
      assert (F : Return (Some l') = Return (@None loc)); [|discriminate].
      apply (walk_fresh true (p2 :: rest) (l ++ [part]) s2 s' _
               part (clock (ticks s)) (clock (S (ticks s))));
        auto; try discriminate;
        try (rewrite <- R; auto; discriminate).
      subst s2; cbn [root with_root]. rewrite (get_at_update_below _ l [part] _ _ G).
      simpl. rewrite lookup_set_same. reflexivity.
Qed.

(** ** The resolution of a path *)

Lemma parse_join_drive (rest : list string) :
  exists parts, parse_path (PyStr.join "\" ("C:" :: rest)) = "C:" :: parts.
Proof.
  destruct rest as [|r rs].
  - exists []; reflexivity.
  - unfold PyStr.join; cbn [String.concat].
    eexists. unfold parse_path. cbn. reflexivity.
Qed.

(** A path from the drive is resolved from the root, in one frame. *)
Lemma rec_abs (d : nat) (c : bool) (path : string) (rest : list string) (s : FileSystem) :
  parse_path path = "C:" :: rest ->
  _get_node_at_path_rec (S d) path c s = walk c rest (Some []) s.
Proof.
  intros H. cbn [_get_node_at_path_rec].
  destruct (String.eqb_spec path "") as [->|N1]; [discriminate|].
  destruct (String.eqb_spec path "C:") as [->|N2].
  { inversion H; reflexivity. }
  destruct (String.eqb_spec path "C:\") as [->|N3].
  { inversion H; reflexivity. }
  cbn [orb]. rewrite H. reflexivity.
Qed.

Lemma root_valid (s : FileSystem) : get_at (root s) [] <> None.
Proof. discriminate. Qed.

Lemma rec_cwd (d : nat) (s : FileSystem) :
  wf_cp s ->
  _get_node_at_path_rec (S d) (PyStr.join "\" (current_path s)) false s
  = (Return (anchor_loc Cwd s), s).
Proof.
  intros [rest W]. destruct (parse_join_drive rest) as [parts P].
  rewrite W. rewrite (rec_abs d false _ parts s P).
  rewrite (walk_false_spec parts [] s (root_valid s)).
  unfold anchor_loc, find, cwd_parts. rewrite W, P. reflexivity.
Qed.

Lemma rec_parent (d : nat) (s : FileSystem) :
  wf_cp s -> (1 <? List.length (current_path s))%nat = true ->
  _get_node_at_path_rec (S d) (PyStr.join "\" (removelast (current_path s))) false s
  = (Return (anchor_loc Parent s), s).
Proof.
  intros [rest W] L. unfold anchor_loc. rewrite L.
  rewrite W in *. destruct rest as [|r rs]; [discriminate|].
  change (removelast ("C:" :: r :: rs)) with ("C:" :: removelast (r :: rs)).
  destruct (parse_join_drive (removelast (r :: rs))) as [parts P].
  rewrite (rec_abs d false _ parts s P).
  rewrite (walk_false_spec parts [] s (root_valid s)).
  unfold find, cwd_parts. rewrite P. reflexivity.
Qed.

(** The resolution of a path is the loop over its plan. *)
Lemma resolve_plan (d : nat) (path : string) (c : bool) (s : FileSystem) :
  wf_cp s ->
  _get_node_at_path_rec (S (S d)) path c s
  = walk c (snd (plan path)) (anchor_loc (fst (plan path)) s) s.
Proof.
  intros W. unfold plan, early.
  remember (S d) as d1. cbn [_get_node_at_path_rec].
  destruct (String.eqb path "" || String.eqb path "C:" || String.eqb path "C:\"); [reflexivity|].
  destruct (parse_path path) as [|p0 rest]; [reflexivity|].
  destruct (String.eqb p0 "C:"); [reflexivity|].
  subst d1. unfold bind at 1, self at 1. unfold bind at 1. rewrite (rec_cwd d s W).
  destruct (String.eqb p0 "..").
  - destruct (1 <? List.length (current_path s))%nat eqn:L.
    + unfold bind at 1. unfold bind at 1. rewrite (rec_parent d s W L).
      unfold ret. cbn [fst snd]. unfold anchor_loc. rewrite L. reflexivity.
    + unfold bind, ret. cbn [fst snd]. unfold anchor_loc. rewrite L. reflexivity.
  - unfold bind, ret. cbn [fst snd]. reflexivity.
Qed.

Lemma get_node_plan (path : string) (c : bool) (s : FileSystem) :
  wf_cp s ->
  _get_node_at_path path c s
  = walk c (snd (plan path)) (anchor_loc (fst (plan path)) s) s.
Proof.
  intros W. unfold _get_node_at_path, recursion_limit.
  now apply resolve_plan.
Qed.

Lemma get_current_node_eq (s : FileSystem) :
  wf_cp s -> _get_current_node s = (Return (anchor_loc Cwd s), s).
Proof.
  intros W. unfold _get_current_node, bind, self, _get_node_at_path, recursion_limit.
  now apply rec_cwd.
Qed.

(** A resolution without [create_dirs] leaves the object as it is. *)
Lemma rec_pure (depth : nat) :
  forall (path : string) (s s' : FileSystem) (r : outcome (option loc)),
    _get_node_at_path_rec depth path false s = (r, s') -> s' = s.
Proof.
  induction depth as [|d IH]; intros path s s' r H.
  - inversion H; auto.
  - cbn [_get_node_at_path_rec] in H.
    destruct (String.eqb path "" || String.eqb path "C:" || String.eqb path "C:\");
      [inversion H; auto|].
    destruct (parse_path path) as [|p0 rest]; [inversion H; auto|].
    destruct (String.eqb p0 "C:"); [eapply walk_false_pure; eauto|].
    unfold bind at 1, self at 1 in H. unfold bind at 1 in H.
    destruct (_get_node_at_path_rec d _ false s) as [[cur|e] s1] eqn:E1;
      apply IH in E1; subst s1; [|inversion H; auto].
    unfold bind at 1 in H.
    destruct (String.eqb p0 "..").
    + destruct (1 <? List.length (current_path s))%nat.
      * unfold bind at 1 in H.
        destruct (_get_node_at_path_rec d _ false s) as [[c2|e] s2] eqn:E2;
          apply IH in E2; subst s2; [|inversion H; auto].
        unfold ret in H. eapply walk_false_pure; eauto.
      * unfold ret in H. eapply walk_false_pure; eauto.
    + unfold ret in H. eapply walk_false_pure; eauto.
Qed.

Lemma get_node_pure (path : string) (s s' : FileSystem) (r : outcome (option loc)) :
  _get_node_at_path path false s = (r, s') -> s' = s.
Proof. apply rec_pure. Qed.

(** ** The claims on the operations *)

(** C10.  Renaming an entry to the name it has fails: the new name is looked
    up in the directory of the entry before anything is changed, and the
    entry itself is found there.  For every path whose directory part
    resolves to a directory that has an entry under the last part of the
    path, [rename_file] with that last part as the new name returns [False]
    and leaves the whole object, the mapping and the entry with it, as it
    was. *)
Theorem rename_to_own_name_fails
    (oldpath dirname oldname : string) (s : FileSystem) (l : loc)
    (nm : string) (cr md : time) (content : list (string * node)) (n : node) :
  os_path_split oldpath = (dirname, oldname) ->
  _get_node_at_path (or_dot dirname) false s = (Return (Some l), s) ->
  get_at (root s) l = Some (Dir nm cr md content) ->
  Dict.lookup oldname content = Some n ->
  rename_file oldpath oldname s = (Return false, s).
Proof.
  intros Hs Hp Hd Hn. unfold rename_file. rewrite Hs.
  destruct (is_valid_filename oldname); cbn [negb]; [|reflexivity].
  unfold bind at 1. rewrite Hp. unfold bind at 1, self at 1.
  unfold dir_content. rewrite Hd, Hn.
  assert (M : Dict.mem oldname content = true) by (apply mem_lookup; eauto).
  rewrite M. reflexivity.
Qed.

Lemma preserved_refl (s : FileSystem) : preserved s s.
Proof.
  unfold preserved; conjs; auto using files_same_refl, entries_kept_refl.
Qed.

Lemma walk_preserved (c : bool) (parts : list string) (cur : option loc)
    (s s' : FileSystem) (r : outcome (option loc)) :
  (forall l, cur = Some l -> get_at (root s) l <> None) ->
  walk c parts cur s = (r, s') ->
  preserved s s'
  /\ (c = false -> s' = s)
  /\ (forall l, r = Return (Some l) -> get_at (root s') l <> None).
Proof.
  intros V H. destruct cur as [l0|].
  - destruct (walk_inv c parts l0 s r s' (V l0 eq_refl) H)
      as (A1 & A2 & A3 & A4 & A5 & A6 & A7 & o & Ho & A8).
    unfold preserved; conjs; auto.
    intros l E; subst r; inversion E; subst o. now apply (A8 l).
  - rewrite walk_none in H; inversion H; subst.
    conjs; auto using preserved_refl.
    intros l E; destruct (ne parts); discriminate.
Qed.

(** The same for a whole resolution. *)
Lemma rec_inv (depth : nat) :
  forall (path : string) (c : bool) (s s' : FileSystem) (r : outcome (option loc)),
    _get_node_at_path_rec depth path c s = (r, s') ->
    preserved s s'
    /\ (c = false -> s' = s)
    /\ (forall l, r = Return (Some l) -> get_at (root s') l <> None).
Proof.
  induction depth as [|d IH]; intros path c s s' r H.
  - inversion H; subst; conjs; auto using preserved_refl; discriminate.
  - cbn [_get_node_at_path_rec] in H.
    destruct (String.eqb path "" || String.eqb path "C:" || String.eqb path "C:\").
    { inversion H; subst; conjs; auto using preserved_refl.
      intros l E; inversion E; discriminate. }
    destruct (parse_path path) as [|p0 rest].
    { inversion H; subst; conjs; auto using preserved_refl.
      intros l E; inversion E; discriminate. }
    destruct (String.eqb p0 "C:").
    { eapply walk_preserved; eauto. intros l E; inversion E; discriminate. }
    unfold bind at 1, self at 1 in H. unfold bind at 1 in H.
    destruct (_get_node_at_path_rec d _ false s) as [[cur|e] s1] eqn:E1;
      destruct (IH _ _ _ _ _ E1) as (_ & P1 & V1); specialize (P1 eq_refl); subst s1;
      [|inversion H; subst; conjs; auto using preserved_refl; discriminate].
    unfold bind at 1 in H.
    destruct (String.eqb p0 "..").
    + destruct (1 <? List.length (current_path s))%nat.
      * unfold bind at 1 in H.
        destruct (_get_node_at_path_rec d _ false s) as [[c2|e] s2] eqn:E2;
          destruct (IH _ _ _ _ _ E2) as (_ & P2 & V2); specialize (P2 eq_refl); subst s2;
          [|inversion H; subst; conjs; auto using preserved_refl; discriminate].
        unfold ret in H. eapply walk_preserved; eauto.
        cbn [snd]. intros l E; subst c2; now apply V2.
      * unfold ret in H. eapply walk_preserved; eauto.
        cbn [snd]. intros l E; inversion E; discriminate.
    + unfold ret in H. eapply walk_preserved; eauto.
      cbn [snd]. intros l E; subst cur; now apply V1.
Qed.

Lemma get_node_inv (path : string) (c : bool) (s s' : FileSystem)
    (r : outcome (option loc)) :
  _get_node_at_path path c s = (r, s') ->
  preserved s s'
  /\ (c = false -> s' = s)
  /\ (forall l, r = Return (Some l) -> get_at (root s') l <> None).
Proof. apply rec_inv. Qed.

(** A path that resolves without [create_dirs] resolves to the same entry
    with it, and nothing is created. *)
Lemma rec_false_true (depth : nat) (path : string) (s : FileSystem) (l : loc) :
  _get_node_at_path_rec depth path false s = (Return (Some l), s) ->
  _get_node_at_path_rec depth path true s = (Return (Some l), s).
Proof.
  destruct depth as [|d]; intros H; [discriminate|].
  cbn [_get_node_at_path_rec] in *.
  destruct (String.eqb path "" || String.eqb path "C:" || String.eqb path "C:\"); auto.
  destruct (parse_path path) as [|p0 rest]; auto.
  destruct (String.eqb p0 "C:"); [now apply walk_false_true|].
  unfold bind at 1, self at 1 in H. unfold bind at 1 in H.
  unfold bind at 1, self at 1. unfold bind at 1.
  destruct (_get_node_at_path_rec d _ false s) as [[cur|e] s1] eqn:E1; [|discriminate].
  pose proof (rec_pure _ _ _ _ _ E1); subst s1.
  unfold bind at 1 in H. unfold bind at 1.
  assert (K : forall parts cur0,
             walk false parts cur0 s = (Return (Some l), s) ->
             walk true parts cur0 s = (Return (Some l), s)).
  { intros parts [l0|] K; [now apply walk_false_true|].
    rewrite walk_none in K. destruct (ne parts); discriminate. }
  destruct (String.eqb p0 "..").
  - destruct (1 <? List.length (current_path s))%nat.
    + unfold bind at 1 in H. unfold bind at 1.
      destruct (_get_node_at_path_rec d _ false s) as [[c2|e] s2] eqn:E2; [|discriminate].
      pose proof (rec_pure _ _ _ _ _ E2); subst s2.
      unfold ret in *. now apply K.
    + unfold ret in *. now apply K.
  - unfold ret in *. now apply K.
Qed.

Lemma used_set_modified (t : time) (n : node) :
  _calculate_used_space (set_modified t n) = _calculate_used_space n.
Proof. destruct n; reflexivity. Qed.

Lemma used_written (b : string) (t : time) (content : string) (old : option node) :
  _calculate_used_space (written b t content old) = PyStr.len content.
Proof. destruct old as [[|]|]; reflexivity. Qed.

(** [write_file] after the resolution of its parent directory. *)
Lemma write_file_cases (path content dirname basename : string)
    (s s1 : FileSystem) (l : loc) (nm : string) (cr md : time)
    (children : list (string * node)) :
  os_path_split path = (dirname, basename) ->
  is_valid_filename basename = true ->
  _get_node_at_path (or_dot dirname) true s = (Return (Some l), s1) ->
  get_at (root s1) l = Some (Dir nm cr md children) ->
  write_file path content s
  = if ((total_space s - _calculate_used_space (root s)) + existing_size basename children
        <? PyStr.len content)%Z
    then (Raise IOError, with_used_space (_calculate_used_space (root s1)) s1)
    else (Return true, write_result l basename content children s1).
Proof.
  intros Hs Hv Hp Hd.
  destruct (get_node_inv _ _ _ _ _ Hp) as ((P1 & P2 & P3 & P4 & P5 & P6) & _ & _).
  unfold write_file. rewrite Hs, Hv. cbn [negb].
  unfold bind at 1. rewrite Hp. unfold bind at 1, self at 1.
  unfold dir_content. rewrite Hd.
  unfold bind at 1, get_free_space at 1. cbn [total_space used_space with_used_space].
  replace (total_space s1 - _calculate_used_space (root s1))%Z
    with (total_space s - _calculate_used_space (root s))%Z by (rewrite P2, P4; reflexivity).
  destruct (_ <? _)%Z; reflexivity.
Qed.

Lemma used_write_result (l : loc) (basename content : string)
    (children : list (string * node)) (s1 : FileSystem) (nm : string) (cr md : time) :
  get_at (root s1) l = Some (Dir nm cr md children) ->
  _calculate_used_space (root (write_result l basename content children s1))
  = (_calculate_used_space (root s1) - used_opt (Dict.lookup basename children)
     + PyStr.len content)%Z.
Proof.
  intros Hd. unfold write_result. cbn [root].
  rewrite (used_update_at _ l _ _ (get_at_update_same _ l _ _ Hd)).
  rewrite used_set_modified.
  rewrite (used_update_at _ l _ _ Hd).
  cbn [set_child]. rewrite !used_dir, sum_used_set, used_written. lia.
Qed.

(** C2, as the code has it.  When the parent directory of [path] resolves
    (with the directories of the way created) and the file name is valid,
    [write_file] raises [IOError] exactly when the free space plus the size
    of a file already at the name is less than the length of the content.
    When it does, the tree is the one the resolution left: no file is
    added, removed or changed and the used space is what it was (what the
    resolution created stays).  When it does not, the call succeeds and the
    free space goes down by the length of the content less what the entry
    at the name held before. *)
Theorem write_file_out_of_space
    (path content dirname basename : string)
    (s s1 : FileSystem) (l : loc) (nm : string) (cr md : time)
    (children : list (string * node)) :
  os_path_split path = (dirname, basename) ->
  is_valid_filename basename = true ->
  _get_node_at_path (or_dot dirname) true s = (Return (Some l), s1) ->
  get_at (root s1) l = Some (Dir nm cr md children) ->
  let free := (total_space s - _calculate_used_space (root s))%Z in
  let prior := existing_size basename children in
  (fst (write_file path content s) = Raise IOError
   <-> (free + prior < PyStr.len content)%Z)
  /\ ((free + prior < PyStr.len content)%Z ->
      exists s', write_file path content s = (Raise IOError, s')
        /\ root s' = root s1
        /\ files_same (root s) (root s')
        /\ _calculate_used_space (root s') = _calculate_used_space (root s)
        /\ (_get_node_at_path (or_dot dirname) false s = (Return (Some l), s) ->
            root s' = root s))
  /\ ((PyStr.len content <= free + prior)%Z ->
      exists s', write_file path content s = (Return true, s')
        /\ (total_space s' - _calculate_used_space (root s'))%Z
           = (free - (PyStr.len content - used_opt (Dict.lookup basename children)))%Z).
Proof.
  intros Hs Hv Hp Hd free prior.
  pose proof (write_file_cases path content _ _ _ _ _ _ _ _ _ Hs Hv Hp Hd) as W.
  destruct (get_node_inv _ _ _ _ _ Hp) as ((P1 & P2 & P3 & P4 & P5 & P6) & _ & _).
  fold free prior in W.
  destruct (Z.ltb_spec (free + prior) (PyStr.len content)) as [L|L]; rewrite W; cbn [fst].
  - split; [tauto|]. split; [|lia].
    intros _. eexists; split; [reflexivity|]. cbn [root with_used_space].
    conjs; auto.
    intros Hf. apply rec_false_true in Hf. unfold _get_node_at_path in Hp.
    rewrite Hp in Hf. now inversion Hf.
  - split; [split; [discriminate|lia]|]. split; [lia|].
    intros _. eexists; split; [reflexivity|].
    rewrite (used_write_result _ _ _ _ _ _ _ _ Hd). unfold write_result; cbn [total_space].
    subst free. lia.
Qed.

(** ** Valid names as paths *)

Lemma invalid_char_sep (c : ascii) :
  invalid_char c = false ->
  Ascii.eqb c slash = false /\ Ascii.eqb c backslash = false /\ Ascii.eqb c colon = false.
Proof.
  intros H. conjs.
  - destruct (Ascii.eqb_spec c slash) as [->|]; [discriminate H|reflexivity].
  - destruct (Ascii.eqb_spec c backslash) as [->|]; [discriminate H|reflexivity].
  - destruct (Ascii.eqb_spec c colon) as [->|]; [discriminate H|reflexivity].
Qed.

Lemma valid_facts (b : string) :
  is_valid_filename b = true ->
  b <> "" /\ b <> "." /\ b <> ".." /\ has_invalid_char b = false.
Proof.
  unfold is_valid_filename. intros H.
  destruct (String.eqb_spec b ""); [discriminate|].
  destruct (String.eqb_spec b "."); [discriminate|].
  destruct (String.eqb_spec b ".."); [discriminate|].
  cbn [orb] in H. destruct (has_invalid_char b); [discriminate|]. auto.
Qed.

Lemma clean_chars (b : string) :
  has_invalid_char b = false ->
  PyStr.replace slash backslash b = b
  /\ PyStr.split backslash b = [b]
  /\ PyStr.contains colon b = false.
Proof.
  induction b as [|c b IH]; intros H; [auto|].
  cbn [has_invalid_char] in H. apply orb_false_elim in H. destruct H as [Hc Hb].
  destruct (invalid_char_sep c Hc) as (C1 & C2 & C3).
  destruct (IH Hb) as (I1 & I2 & I3).
  cbn [PyStr.replace PyStr.split PyStr.contains].
  rewrite C1, C2, C3, I1, I2, I3. auto.
Qed.

Lemma clean_parse (b : string) :
  has_invalid_char b = false -> b <> "" -> parse_path b = [b].
Proof.
  intros H N. destruct (clean_chars b H) as (I1 & I2 & I3).
  unfold parse_path. destruct (String.eqb_spec b ""); [congruence|].
  rewrite I1, I2, I3. reflexivity.
Qed.

Lemma clean_not_drive (b : string) :
  PyStr.contains colon b = false -> b <> "C:" /\ b <> "C:\" /\ PyStr.startswith "C:" b = false.
Proof.
  intros H. conjs; try (intros ->; discriminate H).
  destruct b as [|a [|c r]]; auto; unfold PyStr.startswith; cbn [String.prefix].
  - destruct (ascii_dec "C" a); auto.
  - destruct (ascii_dec "C" a); auto.
    destruct (ascii_dec ":" c) as [<-|]; auto.
    simpl in H. rewrite orb_true_r in H. discriminate.
Qed.

(** A valid name is a relative path of one part. *)
Lemma valid_plan (b : string) :
  is_valid_filename b = true -> plan b = (Cwd, [b]).
Proof.
  intros H. destruct (valid_facts b H) as (N1 & N2 & N3 & N4).
  destruct (clean_chars b N4) as (I1 & I2 & I3).
  destruct (clean_not_drive b I3) as (D1 & D2 & D3).
  unfold plan, early.
  destruct (String.eqb_spec b ""); [congruence|].
  destruct (String.eqb_spec b "C:"); [congruence|].
  destruct (String.eqb_spec b "C:\"); [congruence|].
  cbn [orb]. rewrite (clean_parse b N4 N1).
  destruct (String.eqb_spec b "C:"); [congruence|].
  destruct (String.eqb_spec b ".."); [congruence|].
  unfold strip_dot. destruct (String.eqb_spec b "."); [congruence|]. reflexivity.
Qed.

Lemma with_current_path_same (s : FileSystem) :
  with_current_path (current_path s) s = s.
Proof. destruct s; reflexivity. Qed.

Lemma wf_cp_cons (s : FileSystem) : wf_cp s -> current_path s <> [].
Proof. intros [rest W]; rewrite W; discriminate. Qed.

(** C7, for the names a directory can be given.  In a state whose current
    path starts at the drive and resolves, for every valid name [sub] of a
    subdirectory of the current directory, [change_directory sub] succeeds
    and appends [sub] to the current path, and [change_directory ".."]
    after it succeeds and leaves the object exactly as it was before the
    two calls. *)
Theorem cd_sub_then_parent
    (s : FileSystem) (sub : string) (l : loc)
    (nm : string) (cr md : time) (content : list (string * node))
    (dn : string) (dc dm : time) (dcontent : list (string * node)) :
  wf_cp s ->
  is_valid_filename sub = true ->
  _get_current_node s = (Return (Some l), s) ->
  get_at (root s) l = Some (Dir nm cr md content) ->
  Dict.lookup sub content = Some (Dir dn dc dm dcontent) ->
  exists s1,
    change_directory sub s = (Return true, s1)
    /\ current_path s1 = current_path s ++ [sub]
    /\ change_directory ".." s1 = (Return true, s).
Proof.
  intros W Hv Hc Hd Hs.
  rewrite (get_current_node_eq s W) in Hc.
  assert (Ha : anchor_loc Cwd s = Some l) by congruence. clear Hc.
  destruct (valid_facts sub Hv) as (N1 & N2 & N3 & N4).
  destruct (clean_chars sub N4) as (I1 & I2 & I3).
  destruct (clean_not_drive sub I3) as (D1 & D2 & D3).
  assert (G : get_at (root s) (l ++ [sub]) = Some (Dir dn dc dm dcontent)).
  { rewrite get_at_app, Hd; simpl. now rewrite Hs. }
  exists (with_current_path (current_path s ++ [sub]) s). conjs.
  - unfold change_directory, bind at 1.
    rewrite (get_node_plan sub false s W), (valid_plan sub Hv). cbn [fst snd].
    rewrite Ha. rewrite (walk_false_spec [sub] l s) by (rewrite Hd; discriminate).
    cbn [ne filter]. destruct (String.eqb_spec sub ""); [congruence|]. cbn [negb].
    rewrite G. unfold bind, self, dir_content. rewrite G.
    destruct (String.eqb_spec sub ".."); [congruence|].
    destruct (String.eqb_spec sub "."); [congruence|].
    rewrite D3, (clean_parse sub N4 N1). cbn [cd_parts].
    destruct (String.eqb_spec sub ".."); [congruence|].
    destruct (String.eqb_spec sub "."); [congruence|].
    destruct (String.eqb_spec sub ""); [congruence|]. reflexivity.
  - reflexivity.
  - set (s1 := with_current_path (current_path s ++ [sub]) s).
    assert (W1 : wf_cp s1).
    { destruct W as [rest W]. exists (rest ++ [sub]). subst s1; simpl. now rewrite W. }
    assert (L : (1 <? List.length (current_path s1))%nat = true).
    { subst s1; simpl. rewrite length_app. destruct W as [rest W]; rewrite W; simpl.
      apply Nat.ltb_lt. lia. }
    unfold change_directory, bind at 1.
    rewrite (get_node_plan ".." false s1 W1).
    change (plan "..") with (Parent, @nil string). cbn [fst snd].
    rewrite walk_nil. unfold anchor_loc. rewrite L.
    assert (R : removelast (current_path s1) = current_path s).
    { subst s1; simpl. apply removelast_last. }
    rewrite R. change (root s1) with (root s).
    change (find (root s) (cwd_parts (current_path s))) with (anchor_loc Cwd s).
    rewrite Ha.
    unfold bind, self, dir_content. change (root s1) with (root s). rewrite Hd.
    cbn [String.eqb Ascii.eqb Bool.eqb]. rewrite L, R.
    subst s1. unfold with_current_path; simpl. destruct s; reflexivity.
Qed.

(** ** The parts of a path *)

Lemma parse_path_segs (p : string) : p <> "" -> parse_path p = fix_drive (segs p).
Proof.
  intros N. unfold parse_path, fix_drive, segs.
  destruct (String.eqb_spec p ""); [congruence|].
  destruct (PyStr.split _ _); reflexivity.
Qed.

Lemma split_nonempty (sep : ascii) (p : string) : PyStr.split sep p <> [].
Proof.
  destruct p as [|c p]; simpl; [discriminate|].
  destruct (Ascii.eqb c sep); [discriminate|].
  destruct (PyStr.split sep p); discriminate.
Qed.

Lemma segs_nonempty (p : string) : segs p <> [].
Proof. apply split_nonempty. Qed.

Lemma fix_drive_app (a b : list string) :
  a <> [] -> fix_drive (a ++ b) = fix_drive a ++ b.
Proof.
  destruct a as [|p0 a]; [congruence|]. intros _. simpl.
  destruct (PyStr.contains colon p0); reflexivity.
Qed.

Lemma fix_drive_nonempty (a : list string) : a <> [] -> fix_drive a <> [].
Proof.
  destruct a as [|p0 a]; [congruence|]. intros _. simpl.
  destruct (PyStr.contains colon p0); discriminate.
Qed.

Lemma replace_app (a b : ascii) (x y : string) :
  PyStr.replace a b (x ++ y) = (PyStr.replace a b x ++ PyStr.replace a b y)%string.
Proof. induction x as [|c x IH]; simpl; [auto|now rewrite IH]. Qed.

Lemma split_app_sep (sep : ascii) (x y : string) :
  PyStr.split sep (x ++ String sep y) = PyStr.split sep x ++ PyStr.split sep y.
Proof.
  induction x as [|c x IH]; simpl.
  - now rewrite Ascii.eqb_refl.
  - rewrite IH. destruct (Ascii.eqb c sep); [reflexivity|].
    destruct (PyStr.split sep x) eqn:E; [|reflexivity].
    now apply split_nonempty in E.
Qed.

Lemma is_sep_replace (c : ascii) :
  is_sep c = true -> (if Ascii.eqb c slash then backslash else c) = backslash.
Proof.
  unfold is_sep. destruct (Ascii.eqb_spec c slash); [reflexivity|].
  destruct (Ascii.eqb_spec c backslash); [auto|discriminate].
Qed.

(** A separator ends a part and starts the next. *)
Lemma segs_app_sep (c : ascii) (x y : string) :
  is_sep c = true -> segs (x ++ String c y) = segs x ++ segs y.
Proof.
  intros H. unfold segs. rewrite replace_app. cbn [PyStr.replace].
  rewrite (is_sep_replace c H). apply split_app_sep.
Qed.

Lemma segs_sep_cons (c : ascii) (y : string) :
  is_sep c = true -> segs (String c y) = "" :: segs y.
Proof. intros H. apply (segs_app_sep c "" y H). Qed.

Lemma app_sep_not_empty (x y : string) (c : ascii) : (x ++ String c y)%string <> "".
Proof. destruct x; discriminate. Qed.

Lemma parse_app_sep (c : ascii) (x y : string) :
  is_sep c = true -> parse_path (x ++ String c y) = fix_drive (segs x) ++ segs y.
Proof.
  intros H. rewrite parse_path_segs by apply app_sep_not_empty.
  rewrite (segs_app_sep c x y H). apply fix_drive_app, segs_nonempty.
Qed.

(** ** Paths that resolve alike *)

Lemma plan_equiv_refl (p : anchor * list string) : plan_equiv p p.
Proof. split; reflexivity. Qed.

Lemma plan_equiv_sym (p q : anchor * list string) : plan_equiv p q -> plan_equiv q p.
Proof. intros [A B]; split; auto. Qed.

Lemma plan_equiv_trans (p q r : anchor * list string) :
  plan_equiv p q -> plan_equiv q r -> plan_equiv p r.
Proof. intros [A B] [C D]; split; congruence. Qed.

Lemma plan_plan' (path : string) : plan_equiv (plan path) (plan' path).
Proof.
  unfold plan, plan', early.
  destruct (String.eqb_spec path "") as [->|]; [apply plan_equiv_refl|].
  destruct (String.eqb_spec path "C:") as [->|]; [apply plan_equiv_refl|].
  destruct (String.eqb_spec path "C:\") as [->|]; [split; reflexivity|].
  apply plan_equiv_refl.
Qed.

Lemma rec_run_plan (d : nat) (path : string) (c : bool) (s : FileSystem) :
  _get_node_at_path_rec (S d) path c s = run_plan d c (plan path) s.
Proof.
  unfold plan, early, run_plan. cbn [_get_node_at_path_rec].
  destruct (String.eqb path "" || String.eqb path "C:" || String.eqb path "C:\"); [reflexivity|].
  destruct (parse_path path) as [|p0 rest]; [reflexivity|].
  destruct (String.eqb p0 "C:"); [reflexivity|].
  destruct (String.eqb p0 ".."); cbn [fst snd]; unfold bind, self, ret.
  - destruct (_get_node_at_path_rec d _ false s) as [[cur|e] s1]; [|reflexivity].
    destruct (1 <? List.length (current_path s))%nat; [|reflexivity].
    destruct (_get_node_at_path_rec d _ false s1) as [[c2|e] s2]; reflexivity.
  - destruct (_get_node_at_path_rec d _ false s) as [[cur|e] s1]; reflexivity.
Qed.

(** Without [create_dirs], plans that are alike give the same resolution. *)
Lemma run_plan_equiv (d : nat) (p q : anchor * list string) (s : FileSystem) :
  plan_equiv p q -> run_plan d false p s = run_plan d false q s.
Proof.
  intros [A B]. unfold run_plan. rewrite A.
  assert (K : forall cur s0, walk false (snd p) cur s0 = walk false (snd q) cur s0).
  { intros cur s0. rewrite walk_false_ne, (walk_false_ne (snd q)). now rewrite B. }
  destruct (fst q).
  - apply K.
  - unfold bind, self.
    destruct (_get_node_at_path_rec d _ false s) as [[cur|e] s1]; [apply K|reflexivity].
  - unfold bind, self.
    destruct (_get_node_at_path_rec d _ false s) as [[cur|e] s1]; [|reflexivity].
    destruct (1 <? List.length (current_path s))%nat; [|apply K].
    destruct (_get_node_at_path_rec d _ false s1) as [[c2|e] s2]; [apply K|reflexivity].
Qed.

Lemma get_node_equiv (p q : string) (s : FileSystem) :
  plan_equiv (plan' p) (plan' q) ->
  _get_node_at_path p false s = _get_node_at_path q false s.
Proof.
  intros E. unfold _get_node_at_path, recursion_limit.
  rewrite !rec_run_plan. apply run_plan_equiv.
  eapply plan_equiv_trans; [apply plan_plan'|].
  eapply plan_equiv_trans; [exact E|]. apply plan_equiv_sym, plan_plan'.
Qed.

Lemma ne_snoc_empty (l : list string) : ne (l ++ [""]) = ne l.
Proof. rewrite ne_app; simpl. apply app_nil_r. Qed.

Lemma ne_mid_empty (l m : list string) : ne (l ++ "" :: m) = ne (l ++ m).
Proof. now rewrite !ne_app. Qed.

Lemma ne_strip_dot_snoc (l : list string) :
  ne (strip_dot (l ++ [""])) = ne (strip_dot l).
Proof.
  destruct l as [|r rs]; [reflexivity|].
  cbn [app strip_dot]. destruct (String.eqb r "."); [apply ne_snoc_empty|].
  apply (ne_snoc_empty (r :: rs)).
Qed.

Lemma plan'_trailing (path : string) (c : ascii) :
  path <> "" -> is_sep c = true ->
  plan_equiv (plan' (path ++ String c "")) (plan' path).
Proof.
  intros N H. unfold plan'.
  rewrite (parse_app_sep c path "" H), <- (parse_path_segs path N).
  change (segs "") with [""].
  destruct (parse_path path) as [|p0 rest] eqn:E.
  { rewrite (parse_path_segs path N) in E.
    now apply fix_drive_nonempty in E; [|apply segs_nonempty]. }
  cbn [app]. destruct (String.eqb p0 "C:").
  { split; [reflexivity|apply ne_snoc_empty]. }
  destruct (String.eqb p0 "..").
  { split; [reflexivity|apply ne_strip_dot_snoc]. }
  split; [reflexivity|]. apply (ne_strip_dot_snoc (p0 :: rest)).
Qed.

Lemma ne_strip_dot_mid (r : string) (rs m : list string) :
  ne (strip_dot ((r :: rs) ++ "" :: m)) = ne (strip_dot ((r :: rs) ++ m)).
Proof.
  cbn [app strip_dot]. destruct (String.eqb r "."); [apply ne_mid_empty|].
  apply (ne_mid_empty (r :: rs)).
Qed.

Lemma plan'_doubled (a b : string) (c1 c2 : ascii) :
  is_sep c1 = true -> is_sep c2 = true ->
  ~ (parse_path a = [".."] /\ hd "" (segs b) = ".") ->
  plan_equiv (plan' (a ++ String c1 (String c2 b))) (plan' (a ++ String c1 b)).
Proof.
  intros H1 H2 X. unfold plan'.
  rewrite (parse_app_sep c1 a _ H1), (parse_app_sep c1 a b H1), (segs_sep_cons c2 b H2).
  destruct (fix_drive (segs a)) as [|p0 ra] eqn:E.
  { now apply fix_drive_nonempty in E; [|apply segs_nonempty]. }
  cbn [app]. destruct (String.eqb p0 "C:").
  { split; [reflexivity|apply ne_mid_empty]. }
  destruct (String.eqb_spec p0 "..") as [->|].
  - split; [reflexivity|]. destruct ra as [|r rs]; [|apply ne_strip_dot_mid].
    cbn [app strip_dot]. change (String.eqb "" ".") with false.
    destruct (segs b) as [|q qs] eqn:Eb; [reflexivity|].
    cbn [strip_dot snd].
    destruct (String.eqb_spec q ".") as [->|]; [|reflexivity].
    exfalso; apply X; split; [|reflexivity].
    destruct (String.eqb_spec a "") as [->|Na]; [discriminate E|].
    now rewrite (parse_path_segs a Na).
  - split; [reflexivity|]. apply (ne_strip_dot_mid p0 ra).
Qed.

(** C9, as the code has it.  The resolution skips the parts that are empty:
    a separator appended to a path that is not empty changes nothing (the
    empty path itself is the root, and a lone separator is the current
    directory), and neither does a second separator put after any separator
    of a path, unless the path starts with [..], the separator is the one
    right after it, and the next part is [.]: the resolution drops a [.]
    only when it is the part next to the leading [..]. *)
Theorem resolve_skips_empty_parts (a b : string) (c1 c2 : ascii) (s : FileSystem) :
  is_sep c1 = true -> is_sep c2 = true ->
  (a <> "" ->
   _get_node_at_path (a ++ String c1 "") false s = _get_node_at_path a false s)
  /\ (~ (parse_path a = [".."] /\ hd "" (segs b) = ".") ->
      _get_node_at_path (a ++ String c1 (String c2 b)) false s
      = _get_node_at_path (a ++ String c1 b) false s).
Proof.
  intros H1 H2. split.
  - intros N. apply get_node_equiv. now apply plan'_trailing.
  - intros X. apply get_node_equiv. now apply plan'_doubled.
Qed.

(** ** The last part of a path *)

Lemma last_suffix (a b : list string) (d : string) :
  b <> [] -> last (a ++ b) d = last b d.
Proof.
  intros N. induction a as [|x a IH]; [reflexivity|].
  simpl. destruct (a ++ b) eqn:E; [|exact IH].
  apply app_eq_nil in E. destruct E; congruence.
Qed.

Lemma strip_dot_suffix (l : list string) :
  strip_dot l = l \/ exists x, l = x :: strip_dot l.
Proof.
  destruct l as [|x l]; [now left|]. simpl.
  destruct (String.eqb x "."); [right; eauto|now left].
Qed.

(** The parts of a plan end as the parts of the path do. *)
Lemma plan_last (path : string) :
  snd (plan path) <> [] -> last (snd (plan path)) "" = last (parse_path path) "".
Proof.
  unfold plan. destruct (early path); [simpl; congruence|].
  destruct (parse_path path) as [|p0 rest]; [simpl; congruence|].
  destruct (String.eqb p0 "C:"); cbn [snd].
  { intros N. symmetry. apply (last_suffix [p0] rest "" N). }
  destruct (String.eqb p0 ".."); cbn [snd]; intros N.
  - destruct (strip_dot_suffix rest) as [E|[x E]].
    + rewrite E in *. symmetry. apply (last_suffix [p0] rest "" N).
    + rewrite E at 2. symmetry. apply (last_suffix [p0; x] _ "" N).
  - destruct (strip_dot_suffix (p0 :: rest)) as [E|[x E]].
    + now rewrite E.
    + rewrite E at 2. symmetry. apply (last_suffix [x] _ "" N).
Qed.

(** A resolution whose path ends with a part that is not empty creates
    nothing when it returns an entry. *)
Lemma rec_final (d : nat) (path : string) (c : bool) (s s' : FileSystem) (l : loc) :
  last (parse_path path) "" <> "" ->
  _get_node_at_path_rec (S d) path c s = (Return (Some l), s') -> s' = s.
Proof.
  intros L H. rewrite rec_run_plan in H.
  assert (K : forall cur s0,
             walk c (snd (plan path)) cur s0 = (Return (Some l), s') -> s' = s0).
  { intros cur s0 K. destruct (snd (plan path)) as [|x parts] eqn:E.
    - inversion K; auto.
    - destruct cur as [l0|].
      + eapply (walk_final c (x :: parts)); eauto; [discriminate|].
        rewrite <- E, plan_last; auto. rewrite E; discriminate.
      + rewrite walk_none in K. destruct (ne (x :: parts)); discriminate. }
  unfold run_plan in H. destruct (fst (plan path)).
  - eapply K; eauto.
  - unfold bind, self in H.
    destruct (_get_node_at_path_rec d _ false s) as [[cur|e] s1] eqn:E1; [|discriminate].
    apply rec_pure in E1; subst s1. eapply K; eauto.
  - unfold bind, self in H.
    destruct (_get_node_at_path_rec d _ false s) as [[cur|e] s1] eqn:E1; [|discriminate].
    apply rec_pure in E1; subst s1.
    destruct (1 <? List.length (current_path s))%nat; [|eapply K; eauto].
    destruct (_get_node_at_path_rec d _ false s) as [[c2|e] s2] eqn:E2; [|discriminate].
    apply rec_pure in E2; subst s2. eapply K; eauto.
Qed.

(** ** Operations that return *)

Lemma str_app_assoc (a b c : string) : ((a ++ b) ++ c)%string = (a ++ (b ++ c))%string.
Proof. induction a as [|x a IH]; simpl; [auto|now rewrite IH]. Qed.

Lemma concat_snoc (sep : string) (l : list string) (y x : string) :
  String.concat sep ((y :: l) ++ [x]) = (String.concat sep (y :: l) ++ sep ++ x)%string.
Proof.
  revert y; induction l as [|z l IH]; intros y; [reflexivity|].
  change (String.concat sep ((y :: z :: l) ++ [x]))
    with (y ++ sep ++ String.concat sep ((z :: l) ++ [x]))%string.
  rewrite IH.
  change (String.concat sep (y :: z :: l))
    with (y ++ sep ++ String.concat sep (z :: l))%string.
  now rewrite !str_app_assoc.
Qed.

Lemma join_snoc (sep : string) (l : list string) (x : string) :
  l <> [] -> PyStr.join sep (l ++ [x]) = (PyStr.join sep l ++ sep ++ x)%string.
Proof.
  destruct l as [|y l]; [congruence|]. intros _. apply concat_snoc.
Qed.

Lemma cwd_parts_snoc (rest : list string) (x : string) :
  cwd_parts ("C:" :: rest ++ [x]) = cwd_parts ("C:" :: rest) ++ segs x.
Proof.
  unfold cwd_parts.
  change ("C:" :: rest ++ [x]) with (("C:" :: rest) ++ [x]).
  rewrite join_snoc by discriminate.
  change ("\" ++ x)%string with (String backslash x).
  rewrite (parse_app_sep backslash _ x eq_refl).
  destruct (parse_join_drive rest) as [parts P].
  assert (N : PyStr.join "\" ("C:" :: rest) <> "").
  { intros E; rewrite E in P; discriminate. }
  rewrite <- (parse_path_segs _ N), P. reflexivity.
Qed.

Lemma find_some (r : node) (parts : list string) (l : loc) :
  find r parts = Some l -> l = ne parts /\ get_at r l <> None.
Proof.
  unfold find. destruct (get_at r (ne parts)) eqn:E; [|discriminate].
  intros H; inversion H; subst. split; congruence.
Qed.

Lemma find_app (r : node) (a b : list string) :
  find r (a ++ b) <> None -> find r a <> None.
Proof.
  unfold find. rewrite ne_app, get_at_app.
  destruct (get_at r (ne a)); congruence.
Qed.

Lemma anchor_valid (k : anchor) (s : FileSystem) (l : loc) :
  anchor_loc k s = Some l -> get_at (root s) l <> None.
Proof.
  destruct k; unfold anchor_loc.
  - intros H; inversion H; discriminate.
  - intros H; now apply find_some in H.
  - destruct (1 <? List.length (current_path s))%nat.
    + intros H; now apply find_some in H.
    + intros H; inversion H; discriminate.
Qed.

(** When the current directory resolves, so does its parent. *)
Lemma parent_resolves (s : FileSystem) :
  wf_cp s -> anchor_loc Cwd s <> None -> anchor_loc Parent s <> None.
Proof.
  intros [rest W] H. unfold anchor_loc in *. rewrite W in *.
  destruct (1 <? List.length ("C:" :: rest))%nat eqn:L; [|discriminate].
  destruct rest as [|r rs]; [discriminate|].
  destruct (exists_last (l := r :: rs)) as (rest' & x & E); [discriminate|].
  rewrite E in *.
  change ("C:" :: rest' ++ [x]) with (("C:" :: rest') ++ [x]) at 1.
  rewrite removelast_last.
  rewrite cwd_parts_snoc in H. now apply find_app in H.
Qed.

Lemma anchors_ok (s : FileSystem) (k : anchor) :
  cwd_ok s -> exists l, anchor_loc k s = Some l.
Proof.
  intros [W [l H]]. rewrite (get_current_node_eq s W) in H.
  assert (C : anchor_loc Cwd s = Some l) by congruence.
  destruct k.
  - exists []; reflexivity.
  - eauto.
  - pose proof (parent_resolves s W) as P. rewrite C in P.
    destruct (anchor_loc Parent s); [eauto|]. exfalso; apply P; [discriminate|reflexivity].
Qed.

Lemma resolve_returns (s : FileSystem) (path : string) (c : bool) :
  cwd_ok s -> exists r s', _get_node_at_path path c s = (Return r, s').
Proof.
  intros H. rewrite (get_node_plan path c s (proj1 H)).
  destruct (anchors_ok s (fst (plan path)) H) as [l0 A]. rewrite A.
  destruct (walk c (snd (plan path)) (Some l0) s) as [r s'] eqn:E.
  destruct (walk_inv _ _ _ _ _ _ (anchor_valid _ _ _ A) E)
    as (_ & _ & _ & _ & _ & _ & _ & o & -> & _).
  eauto.
Qed.

Lemma resolve_false_returns (s : FileSystem) (path : string) :
  cwd_ok s -> exists r, _get_node_at_path path false s = (Return r, s).
Proof.
  intros H. destruct (resolve_returns s path false H) as (r & s' & E).
  pose proof (get_node_pure _ _ _ _ E); subst s'. eauto.
Qed.

Lemma startswith_parse (path : string) :
  PyStr.startswith "C:" path = true -> parse_path path <> [].
Proof.
  intros H. destruct (String.eqb_spec path "") as [->|N]; [discriminate H|].
  rewrite (parse_path_segs path N). apply fix_drive_nonempty, segs_nonempty.
Qed.

Ltac returns :=
  unfold bind, self, ret, mutate, time_time, dir_content;
  repeat match goal with
         | |- context [match ?x with _ => _ end] => destruct x eqn:?
         end;
  eauto.

Lemma change_directory_returns (s : FileSystem) (path : string) :
  cwd_ok s -> exists b s', change_directory path s = (Return b, s').
Proof.
  intros H. unfold change_directory, bind at 1.
  destruct (resolve_false_returns s path H) as [r ->].
  unfold bind at 1, self at 1.
  destruct (dir_content s r); [|unfold ret; eauto].
  destruct (String.eqb path ".."); [eauto|].
  destruct (String.eqb path "."); [unfold ret; eauto|].
  destruct (PyStr.startswith "C:" path) eqn:E; [|eauto].
  apply startswith_parse in E.
  destruct (parse_path path); [congruence|].
  destruct (String.eqb s0 "C:"); unfold ret; eauto.
Qed.

Lemma create_directory_returns (s : FileSystem) (path : string) :
  cwd_ok s -> exists b s', create_directory path s = (Return b, s').
Proof.
  intros H. unfold create_directory. destruct (os_path_split path) as [d b].
  destruct (is_valid_filename b); cbn [negb]; [|unfold ret; eauto].
  unfold bind at 1. destruct (resolve_false_returns s (or_dot d) H) as [r ->].
  returns.
Qed.

Lemma remove_directory_returns (s : FileSystem) (path : string) :
  cwd_ok s -> exists b s', remove_directory path s = (Return b, s').
Proof.
  intros H. unfold remove_directory. destruct (os_path_split path) as [d b].
  unfold bind at 1. destruct (resolve_false_returns s (or_dot d) H) as [r ->].
  returns.
Qed.

Lemma read_file_returns (s : FileSystem) (path : string) :
  cwd_ok s -> exists b, read_file path s = (Return b, s).
Proof.
  intros H. unfold read_file, bind at 1.
  destruct (resolve_false_returns s path H) as [r ->].
  returns.
Qed.

Lemma delete_file_returns (s : FileSystem) (path : string) :
  cwd_ok s -> exists b s', delete_file path s = (Return b, s').
Proof.
  intros H. unfold delete_file. destruct (os_path_split path) as [d b].
  unfold bind at 1. destruct (resolve_false_returns s (or_dot d) H) as [r ->].
  returns.
Qed.

Lemma rename_file_returns (s : FileSystem) (oldpath newname : string) :
  cwd_ok s -> exists b s', rename_file oldpath newname s = (Return b, s').
Proof.
  intros H. unfold rename_file. destruct (os_path_split oldpath) as [d b].
  destruct (is_valid_filename newname); cbn [negb]; [|unfold ret; eauto].
  unfold bind at 1. destruct (resolve_false_returns s (or_dot d) H) as [r ->].
  returns.
Qed.

Lemma copy_file_returns (s : FileSystem) (source destination : string) :
  cwd_ok s -> exists b s', copy_file source destination s = (Return b, s').
Proof.
  intros H. unfold copy_file, bind at 1.
  destruct (read_file_returns s source H) as [c ->].
  destruct c as [c|]; [|unfold ret; eauto].
  destruct (write_file destination c s) as [[b|e] s']; eauto.
Qed.

Lemma list_directory_returns (s : FileSystem) (path : string) :
  cwd_ok s -> exists b, list_directory path s = (Return b, s).
Proof.
  intros H. unfold list_directory, bind at 1.
  destruct (resolve_false_returns s path H) as [r ->].
  unfold bind at 1, self at 1.
  destruct r as [l|]; [|unfold ret; eauto].
  destruct (get_at (root s) l) as [[nm cr md content|]|]; try (unfold ret; eauto; fail).
  unfold bind at 1.
  destruct (negb (String.eqb path "C:") && negb (String.eqb path "C:\")).
  - unfold bind at 1. destruct (String.eqb path ".").
    + destruct (resolve_false_returns s ".." H) as [r ->]. unfold ret; eauto.
    + destruct (resolve_false_returns s (fst (os_path_split path)) H) as [r ->].
      unfold ret; eauto.
  - unfold ret; eauto.
Qed.

(** How [write_file] ends. *)
Lemma write_file_ends (s : FileSystem) (path content : string) :
  cwd_ok s ->
  exists o s',
    write_file path content s = (o, s')
    /\ (o = Return true \/ o = Raise ValueError \/ o = Raise IOError).
Proof.
  intros H. unfold write_file. destruct (os_path_split path) as [d b].
  destruct (is_valid_filename b); cbn [negb]; [|unfold raise; eauto 6].
  unfold bind at 1. destruct (resolve_returns s (or_dot d) true H) as (r & s1 & ->).
  unfold bind at 1, self at 1.
  destruct r as [l|]; [|unfold raise; eauto 6].
  destruct (dir_content s1 (Some l)); [|unfold raise; eauto 6].
  unfold bind at 1, get_free_space at 1.
  destruct (_ <? _)%Z; [unfold raise; eauto 6|].
  unfold bind, time_time, mutate, ret. eauto 6.
Qed.

(** What the directory part of a path gives the methods that cut their
    path. *)
Lemma parent_content_eq (path : string) (s : FileSystem) (r : option loc) :
  _get_node_at_path (or_dot (fst (os_path_split path))) false s = (Return r, s) ->
  parent_content path s = dir_content s r.
Proof.
  intros H. unfold parent_content, denoted, dir_content. rewrite H.
  destruct r as [l|]; [|reflexivity].
  destruct (get_at (root s) l) as [[nm cr md content|]|]; reflexivity.
Qed.

Lemma denoted_eq (path : string) (s : FileSystem) (r : option loc) :
  _get_node_at_path path false s = (Return r, s) ->
  denoted path s = match r with Some l => get_at (root s) l | None => None end.
Proof. intros H. unfold denoted. now rewrite H. Qed.

(** With a current path that leads nowhere, a name is resolved from no
    node at all. *)
Lemma resolve_dangling (name : string) (c : bool) (s : FileSystem) :
  wf_cp s -> _get_current_node s = (Return None, s) ->
  is_valid_filename name = true ->
  _get_node_at_path name c s = (Raise TypeError, s).
Proof.
  intros W D V. rewrite (get_current_node_eq s W) in D.
  rewrite (get_node_plan name c s W), (valid_plan name V). cbn [fst snd].
  assert (A : anchor_loc Cwd s = None) by congruence.
  rewrite A, walk_none. cbn [ne filter].
  destruct (valid_facts name V) as (N & _).
  destruct (String.eqb_spec name ""); [congruence|reflexivity].
Qed.

(** C8, as the code has it.  In a state whose current path starts at the
    drive and leads to an entry, no operation but [write_file] raises, and
    each failure is the negative result of the operation, the object left
    as it was: [False] from [change_directory] and [] from
    [list_directory] when the path denotes no directory, [None] from
    [read_file] and [False] from [copy_file] when the path denotes no
    file; [False] from [create_directory] when the name is invalid, the
    directory part denotes no directory or the name is taken; from
    [remove_directory] when the entry is not a directory without children;
    from [delete_file] when the entry is not a file; from [rename_file]
    when the new name is invalid or taken or there is no entry.
    [write_file] returns [True] or raises: [ValueError] when the file name
    is invalid (nothing is changed) and when its parent does not resolve
    to a directory, [IOError] when the space is short; [copy_file] turns
    what [write_file] raises into [False].  The operations do not keep the
    current path leading to an entry; once it leads to none, reading,
    listing, copying and changing to a plain name end in [TypeError]. *)
Theorem failures_are_results (s : FileSystem) :
  (cwd_ok s ->
   (forall path, exists b s', change_directory path s = (Return b, s'))
   /\ (forall path,
         is_dir (denoted path s) = false ->
         change_directory path s = (Return false, s))
   /\ (forall path, exists b s', create_directory path s = (Return b, s'))
   /\ (forall path,
         is_valid_filename (snd (os_path_split path)) = false
         \/ parent_content path s = None
         \/ entry_at path s <> None ->
         create_directory path s = (Return false, s))
   /\ (forall path, exists b s', remove_directory path s = (Return b, s'))
   /\ (forall path,
         (forall nm cr md, entry_at path s <> Some (Dir nm cr md [])) ->
         remove_directory path s = (Return false, s))
   /\ (forall path, exists c, read_file path s = (Return c, s))
   /\ (forall path,
         is_file (denoted path s) = false -> read_file path s = (Return None, s))
   /\ (forall path, exists b s', delete_file path s = (Return b, s'))
   /\ (forall path,
         is_file (entry_at path s) = false -> delete_file path s = (Return false, s))
   /\ (forall oldpath newname, exists b s', rename_file oldpath newname s = (Return b, s'))
   /\ (forall oldpath newname,
         is_valid_filename newname = false
         \/ entry_at oldpath s = None
         \/ (exists content,
               parent_content oldpath s = Some content
               /\ Dict.mem newname content = true) ->
         rename_file oldpath newname s = (Return false, s))
   /\ (forall path, exists entries, list_directory path s = (Return entries, s))
   /\ (forall path,
         is_dir (denoted path s) = false -> list_directory path s = (Return [], s))
   /\ (forall source destination,
         exists b s', copy_file source destination s = (Return b, s'))
   /\ (forall source destination,
         is_file (denoted source s) = false ->
         copy_file source destination s = (Return false, s))
   /\ (forall source destination nm cr md sz content e s',
         denoted source s = Some (File nm cr md sz content) ->
         write_file destination content s = (Raise e, s') ->
         copy_file source destination s = (Return false, s'))
   /\ (forall path content,
         exists o s', write_file path content s = (o, s')
           /\ (o = Return true \/ o = Raise ValueError \/ o = Raise IOError))
   /\ (forall path content,
         is_valid_filename (snd (os_path_split path)) = false ->
         write_file path content s = (Raise ValueError, s))
   /\ (forall path content r s1,
         is_valid_filename (snd (os_path_split path)) = true ->
         _get_node_at_path (or_dot (fst (os_path_split path))) true s = (Return r, s1) ->
         dir_content s1 r = None ->
         write_file path content s = (Raise ValueError, s1))
   /\ (forall path content l nm cr md children s1,
         is_valid_filename (snd (os_path_split path)) = true ->
         _get_node_at_path (or_dot (fst (os_path_split path))) true s
         = (Return (Some l), s1) ->
         get_at (root s1) l = Some (Dir nm cr md children) ->
         ((total_space s - _calculate_used_space (root s))
          + existing_size (snd (os_path_split path)) children < PyStr.len content)%Z ->
         fst (write_file path content s) = Raise IOError))
  /\ (wf_cp s -> _get_current_node s = (Return None, s) ->
      forall name, is_valid_filename name = true ->
        read_file name s = (Raise TypeError, s)
        /\ change_directory name s = (Raise TypeError, s)
        /\ list_directory name s = (Raise TypeError, s)
        /\ (forall destination, copy_file name destination s = (Raise TypeError, s))).
Proof.
  split.
  - intros H. conjs.
    + intros; now apply change_directory_returns.
    + intros path D. unfold change_directory, bind at 1.
      destruct (resolve_false_returns s path H) as [r R]. rewrite R.
      rewrite (denoted_eq _ _ _ R) in D.
      unfold bind at 1, self at 1. unfold dir_content.
      destruct r as [l|]; [|reflexivity].
      destruct (get_at (root s) l) as [[nm cr md content|]|]; try reflexivity.
      discriminate D.
    + intros; now apply create_directory_returns.
    + intros path D. unfold create_directory, entry_at in *.
      destruct (resolve_false_returns s (or_dot (fst (os_path_split path))) H) as [r R].
      rewrite (parent_content_eq _ _ _ R) in D.
      destruct (os_path_split path) as [d b]. cbn [fst snd] in *.
      destruct (is_valid_filename b); cbn [negb]; [|reflexivity].
      unfold bind at 1. rewrite R. unfold bind at 1, self at 1.
      destruct r as [l|]; [|reflexivity].
      destruct (dir_content s (Some l)) as [content|]; [|reflexivity].
      destruct (Dict.mem b content) eqn:Em; [reflexivity|].
      apply mem_false_lookup in Em. rewrite Em in D.
      destruct D as [D|[D|D]]; congruence.
    + intros; now apply remove_directory_returns.
    + intros path D. unfold remove_directory, entry_at in *.
      destruct (resolve_false_returns s (or_dot (fst (os_path_split path))) H) as [r R].
      rewrite (parent_content_eq _ _ _ R) in D.
      destruct (os_path_split path) as [d b]. cbn [fst snd] in *.
      unfold bind at 1. rewrite R. unfold bind at 1, self at 1.
      destruct r as [l|]; [|reflexivity].
      destruct (dir_content s (Some l)) as [content|]; [|reflexivity].
      destruct (Dict.lookup b content) as [[dn dc dm [|child children]|]|];
        try reflexivity.
      exfalso. now apply (D dn dc dm).
    + intros; now apply read_file_returns.
    + intros path D. unfold read_file, bind at 1.
      destruct (resolve_false_returns s path H) as [r R]. rewrite R.
      rewrite (denoted_eq _ _ _ R) in D.
      unfold bind at 1, self at 1.
      destruct r as [l|]; [|reflexivity].
      destruct (get_at (root s) l) as [[nm cr md content|]|]; try reflexivity.
      discriminate D.
    + intros; now apply delete_file_returns.
    + intros path D. unfold delete_file, entry_at in *.
      destruct (resolve_false_returns s (or_dot (fst (os_path_split path))) H) as [r R].
      rewrite (parent_content_eq _ _ _ R) in D.
      destruct (os_path_split path) as [d b]. cbn [fst snd] in *.
      unfold bind at 1. rewrite R. unfold bind at 1, self at 1.
      destruct r as [l|]; [|reflexivity].
      destruct (dir_content s (Some l)) as [content|]; [|reflexivity].
      destruct (Dict.lookup b content) as [[| ]|]; try reflexivity.
      discriminate D.
    + intros; now apply rename_file_returns.
    + intros oldpath newname D. unfold rename_file, entry_at in *.
      destruct (resolve_false_returns s (or_dot (fst (os_path_split oldpath))) H) as [r R].
      rewrite (parent_content_eq _ _ _ R) in D.
      destruct (os_path_split oldpath) as [d b]. cbn [fst snd] in *.
      destruct (is_valid_filename newname); cbn [negb]; [|reflexivity].
      unfold bind at 1. rewrite R. unfold bind at 1, self at 1.
      destruct r as [l|]; [|reflexivity].
      destruct (dir_content s (Some l)) as [content|]; [|reflexivity].
      destruct (Dict.lookup b content) as [n|]; [|reflexivity].
      destruct (Dict.mem newname content) eqn:Em; [reflexivity|].
      destruct D as [D|[D|(c0 & D & D')]]; try discriminate.
      inversion D; subst c0. congruence.
    + intros; now apply list_directory_returns.
    + intros path D. unfold list_directory, bind at 1.
      destruct (resolve_false_returns s path H) as [r R]. rewrite R.
      rewrite (denoted_eq _ _ _ R) in D.
      unfold bind at 1, self at 1.
      destruct r as [l|]; [|reflexivity].
      destruct (get_at (root s) l) as [[nm cr md content|]|]; try reflexivity.
      discriminate D.
    + intros; now apply copy_file_returns.
    + intros source destination D. unfold copy_file, bind at 1, read_file, bind at 1.
      destruct (resolve_false_returns s source H) as [r R]. rewrite R.
      rewrite (denoted_eq _ _ _ R) in D.
      unfold bind at 1, self at 1.
      destruct r as [l|]; [|reflexivity].
      destruct (get_at (root s) l) as [[nm cr md content|]|]; try reflexivity.
      discriminate D.
    + intros source destination nm cr md sz content e s' D Hw.
      unfold copy_file, bind at 1, read_file, bind at 1.
      destruct (resolve_false_returns s source H) as [r R]. rewrite R.
      rewrite (denoted_eq _ _ _ R) in D.
      unfold bind at 1, self at 1.
      destruct r as [l|]; [|discriminate D]. rewrite D. unfold ret. now rewrite Hw.
    + intros; now apply write_file_ends.
    + intros path content V. unfold write_file.
      destruct (os_path_split path) as [d b]. cbn [snd] in V. now rewrite V.
    + intros path content r s1 V R D. unfold write_file.
      destruct (os_path_split path) as [d b]. cbn [fst snd] in *. rewrite V. cbn [negb].
      unfold bind at 1. rewrite R. unfold bind at 1, self at 1.
      destruct r as [l|]; [|reflexivity]. now rewrite D.
    + intros path content l nm cr md children s1 V R G L.
      rewrite (write_file_cases path content _ _ s s1 l nm cr md children
                 (surjective_pairing _) V R G).
      destruct (Z.ltb_spec
                  ((total_space s - _calculate_used_space (root s))
                   + existing_size (snd (os_path_split path)) children)
                  (PyStr.len content)); [reflexivity|lia].
  - intros W D name V.
    pose proof (resolve_dangling name false s W D V) as R.
    conjs.
    + unfold read_file, bind at 1. now rewrite R.
    + unfold change_directory, bind at 1. now rewrite R.
    + unfold list_directory, bind at 1. now rewrite R.
    + intros destination. unfold copy_file, bind at 1, read_file, bind at 1. now rewrite R.
Qed.

(** ** Writing, then reading *)

Lemma segs_valid (b : string) : is_valid_filename b = true -> segs b = [b].
Proof.
  intros H. destruct (valid_facts b H) as (_ & _ & _ & N).
  destruct (clean_chars b N) as (I1 & I2 & _). unfold segs. now rewrite I1, I2.
Qed.

Lemma segs_seps (m y : string) :
  PyStr.all is_sep m = true -> segs (m ++ y) = repeat "" (String.length m) ++ segs y.
Proof.
  induction m as [|c m IH]; intros H; [reflexivity|].
  cbn [PyStr.all] in H. apply andb_prop in H. destruct H as [Hc Hm].
  change (String c m ++ y)%string with (String c (m ++ y)).
  rewrite (segs_sep_cons c _ Hc), (IH Hm). reflexivity.
Qed.

Lemma ne_repeat_empty (n : nat) : ne (repeat "" n) = [].
Proof. induction n; simpl; auto. Qed.

Lemma ne_nil_cons (e : string) (l : list string) :
  ne (e :: l) = [] -> e = "" /\ ne l = [].
Proof.
  cbn [ne filter]. destruct (String.eqb_spec e ""); cbn [negb]; [auto|discriminate].
Qed.

Lemma strip_dot_ext (r0 E E' : list string) (b : string) :
  ne E = [] -> ne E' = [] -> b <> "." -> b <> "" ->
  ne (strip_dot (r0 ++ E' ++ [b])) = ne (strip_dot (r0 ++ E)) ++ [b].
Proof.
  intros HE HE' N1 N2.
  assert (B : ne [b] = [b]).
  { cbn [ne filter]. destruct (String.eqb_spec b ""); [congruence|reflexivity]. }
  destruct r0 as [|y t].
  - cbn [app].
    assert (L : ne (strip_dot (E' ++ [b])) = [b]).
    { destruct E' as [|e E'']; cbn [app strip_dot].
      - destruct (String.eqb_spec b "."); [congruence|exact B].
      - destruct (ne_nil_cons _ _ HE') as [-> HE''].
        change (String.eqb "" ".") with false. cbn iota.
        change (ne ("" :: E'' ++ [b])) with (ne (E'' ++ [b])).
        now rewrite ne_app, HE'', B. }
    assert (R : ne (strip_dot E) = []).
    { destruct E as [|e E'']; [reflexivity|]. cbn [strip_dot].
      destruct (ne_nil_cons _ _ HE) as [-> HE''].
      change (String.eqb "" ".") with false. cbn iota. exact HE. }
    now rewrite L, R.
  - cbn [app strip_dot]. destruct (String.eqb y ".").
    + rewrite !ne_app, HE, HE', B. now rewrite app_nil_r.
    + change (y :: t ++ E' ++ [b]) with ((y :: t) ++ E' ++ [b]).
      change (y :: t ++ E) with ((y :: t) ++ E).
      rewrite !ne_app, HE, HE', B. now rewrite app_nil_r.
Qed.

(** The parts of a path cut at a separator: those of its directory part,
    then its last part, the empty ones aside. *)
Lemma coherent_parse (p d b : string) :
  is_valid_filename b = true -> d <> "" ->
  (exists m, PyStr.all is_sep m = true
     /\ p = (d ++ m ++ b)%string
     /\ (m <> "" \/ exists d0 c, d = (d0 ++ String c "")%string /\ is_sep c = true)) ->
  exists p0 r0 E E',
    ne E = [] /\ ne E' = []
    /\ parse_path d = p0 :: r0 ++ E
    /\ parse_path p = p0 :: r0 ++ E' ++ [b].
Proof.
  intros V N (m & Hm & -> & Hc).
  destruct m as [|c m].
  - destruct Hc as [Hc|(d0 & c & -> & Hc)]; [congruence|].
    cbn [String.append]. rewrite str_app_assoc. cbn [String.append].
    rewrite (parse_app_sep c d0 "" Hc), (parse_app_sep c d0 b Hc), (segs_valid b V).
    destruct (fix_drive (segs d0)) as [|p0 r0] eqn:E.
    { now apply fix_drive_nonempty in E; [|apply segs_nonempty]. }
    exists p0, r0, [""], []. conjs; reflexivity.
  - cbn [PyStr.all] in Hm. apply andb_prop in Hm. destruct Hm as [Hc' Hm].
    change (String c m ++ b)%string with (String c (m ++ b)).
    rewrite (parse_app_sep c d _ Hc'), (segs_seps m b Hm), (segs_valid b V).
    rewrite (parse_path_segs d N).
    destruct (fix_drive (segs d)) as [|p0 r0] eqn:E.
    { now apply fix_drive_nonempty in E; [|apply segs_nonempty]. }
    exists p0, r0, [], (repeat "" (String.length m)). conjs.
    + reflexivity.
    + apply ne_repeat_empty.
    + now rewrite app_nil_r.
    + reflexivity.
Qed.

Lemma coherent_plan (p d b : string) :
  is_valid_filename b = true -> coherent p d b ->
  fst (plan p) = fst (plan (or_dot d))
  /\ ne (snd (plan p)) = ne (snd (plan (or_dot d))) ++ [b].
Proof.
  intros V [[-> ->]|[N C]].
  - rewrite (valid_plan b V). cbn [or_dot String.eqb]. change (plan ".") with (Cwd, @nil string).
    destruct (valid_facts b V) as (N1 & _). cbn [fst snd ne filter].
    destruct (String.eqb_spec b ""); [congruence|]. split; reflexivity.
  - destruct (valid_facts b V) as (N1 & N2 & N3 & N4).
    assert (B : ne [b] = [b]).
    { cbn [ne filter]. destruct (String.eqb_spec b ""); [congruence|reflexivity]. }
    unfold or_dot. destruct (String.eqb_spec d ""); [congruence|].
    destruct (coherent_parse p d b V N C) as (p0 & r0 & E & E' & HE & HE' & Pd & Pp).
    destruct (plan_plan' p) as [A1 A2]. destruct (plan_plan' d) as [A3 A4].
    rewrite A1, A2, A3, A4. unfold plan'. rewrite Pd, Pp.
    destruct (String.eqb p0 "C:"); cbn [fst snd].
    { split; [reflexivity|]. rewrite !ne_app, HE, HE', B. now rewrite app_nil_r. }
    destruct (String.eqb p0 ".."); cbn [fst snd].
    { split; [reflexivity|]. now apply strip_dot_ext. }
    split; [reflexivity|].
    change (p0 :: r0 ++ E' ++ [b]) with ((p0 :: r0) ++ E' ++ [b]).
    change (p0 :: r0 ++ E) with ((p0 :: r0) ++ E).
    now apply strip_dot_ext.
Qed.

(** What a successful [write_file] has gone through. *)
Lemma write_file_success (path content d b : string) (s s' : FileSystem) :
  os_path_split path = (d, b) ->
  write_file path content s = (Return true, s') ->
  is_valid_filename b = true
  /\ exists l s1 nm cr md children,
       _get_node_at_path (or_dot d) true s = (Return (Some l), s1)
       /\ get_at (root s1) l = Some (Dir nm cr md children)
       /\ s' = write_result l b content children s1.
Proof.
  intros Hs H.
  destruct (is_valid_filename b) eqn:V.
  2:{ unfold write_file in H. rewrite Hs, V in H. discriminate. }
  split; [reflexivity|].
  destruct (_get_node_at_path (or_dot d) true s) as [[[l|]|e] s1] eqn:R.
  - destruct (get_at (root s1) l) as [[nm cr md children|]|] eqn:G.
    + rewrite (write_file_cases _ content _ _ _ _ _ _ _ _ _ Hs V R G) in H.
      destruct (_ <? _)%Z; [discriminate|]. inversion H.
      exists l, s1, nm, cr, md, children. auto.
    + unfold write_file in H. rewrite Hs, V in H. cbn [negb] in H.
      unfold bind at 1 in H. rewrite R in H. unfold bind at 1, self at 1 in H.
      unfold dir_content in H. rewrite G in H. discriminate.
    + unfold write_file in H. rewrite Hs, V in H. cbn [negb] in H.
      unfold bind at 1 in H. rewrite R in H. unfold bind at 1, self at 1 in H.
      unfold dir_content in H. rewrite G in H. discriminate.
  - unfold write_file in H. rewrite Hs, V in H. cbn [negb] in H.
    unfold bind at 1 in H. rewrite R in H. discriminate.
  - unfold write_file in H. rewrite Hs, V in H. cbn [negb] in H.
    unfold bind at 1 in H. rewrite R in H. discriminate.
Qed.

Lemma anchor_loc_kept (k : anchor) (s s' : FileSystem) (l0 : loc) :
  current_path s' = current_path s ->
  anchor_loc k s = Some l0 ->
  get_at (root s') l0 <> None ->
  anchor_loc k s' = Some l0.
Proof.
  intros C A G. destruct k; unfold anchor_loc in *; try rewrite C.
  - exact A.
  - destruct (find_some _ _ _ A) as [-> _]. unfold find.
    destruct (get_at (root s') _); congruence.
  - destruct (1 <? List.length (current_path s))%nat; [|exact A].
    destruct (find_some _ _ _ A) as [-> _]. unfold find.
    destruct (get_at (root s') _); congruence.
Qed.

Lemma written_is_file (b : string) (t : time) (content : string) (old : option node) :
  exists nm cr, written b t content old = File nm cr t (PyStr.len content) content.
Proof. destruct old as [[|]|]; simpl; eauto. Qed.

(** A write that succeeds, at a path cut at a separator, is read back. *)
Lemma write_then_read_coherent (path content d b : string) (s s' : FileSystem) :
  wf_cp s ->
  os_path_split path = (d, b) ->
  coherent path d b ->
  write_file path content s = (Return true, s') ->
  exists l nm cr md,
    _get_node_at_path path false s' = (Return (Some l), s')
    /\ get_at (root s') l = Some (File nm cr md (PyStr.len content) content)
    /\ read_file path s' = (Return (Some content), s').
Proof.
  intros W Hs Hc H.
  destruct (write_file_success _ _ _ _ _ _ Hs H)
    as (V & L & s1 & nm & cr & md & children & R & G & ->).
  destruct (coherent_plan _ _ _ V Hc) as [K1 K2].
  destruct (get_node_inv _ _ _ _ _ R) as ((P1 & P2 & P3 & P4 & P5 & P6) & _ & _).
  rewrite (get_node_plan _ true s W) in R.
  destruct (anchor_loc (fst (plan (or_dot d))) s) as [l0|] eqn:A.
  2:{ rewrite walk_none in R. destruct (ne _); discriminate. }
  pose proof (anchor_valid _ _ _ A) as V0.
  destruct (walk_inv _ _ _ _ _ _ V0 R) as (_ & _ & _ & _ & _ & _ & _ & o & Ho & Hl).
  inversion Ho; subst o. destruct (Hl L eq_refl) as [HL _].
  set (s' := write_result L b content children s1).
  assert (C' : current_path s' = current_path s) by exact P1.
  assert (W' : wf_cp s') by (destruct W as [rest W]; exists rest; congruence).
  destruct (written_is_file b (clock (ticks s1)) content (Dict.lookup b children))
    as (fn & fc & Hw).
  assert (GF : get_at (root s') (L ++ [b])
               = Some (File fn fc (clock (ticks s1)) (PyStr.len content) content)).
  { unfold s', write_result; cbn [root].
    rewrite (get_at_update_below _ L [b] _ _ (get_at_update_same _ L _ _ G)).
    cbn [set_child set_modified get_at]. now rewrite lookup_set_same, Hw. }
  assert (G0 : get_at (root s') l0 <> None).
  { unfold s', write_result; cbn [root]. rewrite HL.
    apply get_at_update_some, get_at_update_some.
    now apply (entries_kept_some _ _ _ P6). }
  assert (A' : anchor_loc (fst (plan path)) s' = Some l0).
  { rewrite K1. now apply (anchor_loc_kept _ s s'). }
  assert (RD : _get_node_at_path path false s' = (Return (Some (L ++ [b])), s')).
  { rewrite (get_node_plan _ false s' W'), A', (walk_false_spec _ l0 s' G0), K2.
    rewrite app_assoc, <- HL, GF. reflexivity. }
  exists (L ++ [b]), fn, fc, (clock (ticks s1)). conjs; auto.
  unfold read_file, bind at 1. rewrite RD. unfold bind, self. now rewrite GF.
Qed.

(** C1, for the paths that [os.path.split] cuts at a separator: every path
    under [posixpath], and under [ntpath] every path but a drive followed
    at once by the file name.  In a state whose current path starts at the
    drive, when [write_file] succeeds at such a path, the path resolves to
    a file whose content is the content written and whose size is its
    length, and [read_file] returns that content. *)
Theorem write_then_read (path content d b : string) (s s' : FileSystem) :
  wf_cp s ->
  os_path_split path = (d, b) ->
  coherent path d b ->
  write_file path content s = (Return true, s') ->
  exists l nm cr md,
    _get_node_at_path path false s' = (Return (Some l), s')
    /\ get_at (root s') l = Some (File nm cr md (PyStr.len content) content)
    /\ read_file path s' = (Return (Some content), s').
Proof. apply write_then_read_coherent. Qed.

(** ** The current path starts at the drive *)

Lemma cd_parts_wf (parts cp : list string) :
  (exists rest, cp = "C:" :: rest) -> exists rest, cd_parts parts cp = "C:" :: rest.
Proof.
  revert cp; induction parts as [|part parts IH]; intros cp [rest E]; [simpl; eauto|].
  cbn [cd_parts]. destruct (String.eqb part "..").
  - apply IH. subst cp. destruct rest as [|r rs]; [simpl; eauto|].
    change (1 <? List.length ("C:" :: r :: rs))%nat with true. cbn iota.
    change (removelast ("C:" :: r :: rs)) with ("C:" :: removelast (r :: rs)). eauto.
  - destruct (negb (String.eqb part ".") && negb (String.eqb part "")); apply IH; subst cp.
    + simpl; eauto.
    + eauto.
Qed.

Lemma get_node_current_path (path : string) (c : bool) (s s' : FileSystem)
    (r : outcome (option loc)) :
  _get_node_at_path path c s = (r, s') -> current_path s' = current_path s.
Proof. intros H. now destruct (get_node_inv _ _ _ _ _ H) as ((P & _) & _). Qed.

(** What [change_directory] leaves, by its result. *)
Lemma change_directory_wf (path : string) (s : FileSystem) :
  wf_cp s -> wf_cp (snd (change_directory path s)).
Proof.
  intros W. unfold change_directory, bind at 1.
  destruct (_get_node_at_path path false s) as [[r|e] s1] eqn:E;
    pose proof (get_node_pure _ _ _ _ E); subst s1; [|exact W].
  unfold bind at 1, self at 1.
  destruct (dir_content s r); [|exact W].
  destruct (String.eqb path "..").
  { cbn [snd]. destruct W as [rest W]. unfold wf_cp. cbn [current_path with_current_path].
    rewrite W. destruct rest as [|x xs]; [simpl; eauto|].
    change (1 <? List.length ("C:" :: x :: xs))%nat with true. cbn iota.
    change (removelast ("C:" :: x :: xs)) with ("C:" :: removelast (x :: xs)). eauto. }
  destruct (String.eqb path "."); [exact W|].
  destruct (PyStr.startswith "C:" path).
  - destruct (parse_path path) as [|p0 rest]; [exact W|].
    destruct (String.eqb_spec p0 "C:") as [->|_]; [|exact W].
    exists rest; reflexivity.
  - cbn [snd]. unfold wf_cp. cbn [current_path with_current_path].
    now apply cd_parts_wf.
Qed.

Ltac keeps :=
  unfold bind, self, ret, raise, mutate, time_time, get_free_space, dir_content;
  repeat match goal with
         | |- context [match ?x with _ => _ end] => destruct x eqn:?
         end;
  cbn [snd current_path with_root with_used_space]; auto.

Ltac resolved E :=
  unfold bind at 1;
  match goal with
  | |- context [_get_node_at_path ?p ?c ?s] =>
      let r := fresh "r" in
      let e := fresh "e" in
      let s1 := fresh "s" in
      destruct (_get_node_at_path p c s) as [[r|e] s1] eqn:E;
      apply get_node_current_path in E; rewrite <- E; clear E
  end.

Lemma create_directory_current_path (path : string) (s : FileSystem) :
  current_path (snd (create_directory path s)) = current_path s.
Proof.
  unfold create_directory. destruct (os_path_split path) as [d b].
  destruct (is_valid_filename b); cbn [negb]; [|reflexivity].
  resolved E; keeps.
Qed.

Lemma remove_directory_current_path (path : string) (s : FileSystem) :
  current_path (snd (remove_directory path s)) = current_path s.
Proof.
  unfold remove_directory. destruct (os_path_split path) as [d b].
  resolved E; keeps.
Qed.

Lemma read_file_current_path (path : string) (s : FileSystem) :
  current_path (snd (read_file path s)) = current_path s.
Proof. unfold read_file. resolved E; keeps. Qed.

Lemma write_file_current_path (path content : string) (s : FileSystem) :
  current_path (snd (write_file path content s)) = current_path s.
Proof.
  unfold write_file. destruct (os_path_split path) as [d b].
  destruct (is_valid_filename b); cbn [negb]; [|reflexivity].
  resolved E; keeps.
Qed.

Lemma copy_file_current_path (source destination : string) (s : FileSystem) :
  current_path (snd (copy_file source destination s)) = current_path s.
Proof.
  unfold copy_file, bind at 1.
  pose proof (read_file_current_path source s) as R.
  destruct (read_file source s) as [[[c|]|e] s1]; cbn [snd] in R |- *; auto.
  pose proof (write_file_current_path destination c s1) as Wr.
  destruct (write_file destination c s1) as [[b|e] s2]; cbn [snd] in Wr |- *; congruence.
Qed.

Lemma delete_file_current_path (path : string) (s : FileSystem) :
  current_path (snd (delete_file path s)) = current_path s.
Proof.
  unfold delete_file. destruct (os_path_split path) as [d b].
  resolved E; keeps.
Qed.

Lemma rename_file_current_path (oldpath newname : string) (s : FileSystem) :
  current_path (snd (rename_file oldpath newname s)) = current_path s.
Proof.
  unfold rename_file. destruct (os_path_split oldpath) as [d b].
  destruct (is_valid_filename newname); cbn [negb]; [|reflexivity].
  resolved E; keeps.
Qed.

Lemma list_directory_state (path : string) (s : FileSystem) :
  snd (list_directory path s) = s.
Proof.
  unfold list_directory, bind at 1.
  destruct (_get_node_at_path path false s) as [[r|e] s1] eqn:E;
    pose proof (get_node_pure _ _ _ _ E); subst s1; [|reflexivity].
  unfold bind at 1, self at 1.
  destruct r as [l|]; [|reflexivity].
  destruct (get_at (root s) l) as [[nm cr md content|]|]; try reflexivity.
  unfold bind at 1.
  destruct (negb (String.eqb path "C:") && negb (String.eqb path "C:\")); [|reflexivity].
  unfold bind at 1.
  destruct (if String.eqb path "." then _ else _) as [[pn|e] s1] eqn:P.
  - assert (s1 = s) as ->; [|reflexivity].
    destruct (String.eqb path "."); now apply get_node_pure in P.
  - cbn [snd]. destruct (String.eqb path "."); now apply get_node_pure in P.
Qed.

(** X3.  The current path starts at the drive in the file system the simulator
    starts from, and every method keeps it so, however it ends:
    [change_directory] is the only one to assign it. *)
Lemma current_path_from_drive :
  wf_cp init
  /\ forall s, wf_cp s ->
       (forall path, wf_cp (snd (change_directory path s)))
       /\ (forall path, wf_cp (snd (create_directory path s)))
       /\ (forall path, wf_cp (snd (remove_directory path s)))
       /\ (forall path, wf_cp (snd (read_file path s)))
       /\ (forall path content, wf_cp (snd (write_file path content s)))
       /\ (forall source destination, wf_cp (snd (copy_file source destination s)))
       /\ (forall path, wf_cp (snd (delete_file path s)))
       /\ (forall oldpath newname, wf_cp (snd (rename_file oldpath newname s)))
       /\ (forall path, wf_cp (snd (list_directory path s))).
Proof.
  split; [exists []; reflexivity|]. intros s W. unfold wf_cp in *. conjs; intros.
  - now apply change_directory_wf.
  - now rewrite create_directory_current_path.
  - now rewrite remove_directory_current_path.
  - now rewrite read_file_current_path.
  - now rewrite write_file_current_path.
  - now rewrite copy_file_current_path.
  - now rewrite delete_file_current_path.
  - now rewrite rename_file_current_path.
  - now rewrite list_directory_state.
Qed.

(** ** The listing of a directory *)

(** X4.  The listing of a path that resolves to a directory: the [.] entry, the
    [..] entry unless the path is [C:] or [C:\] as written, and the
    children in the order of the dictionary. *)
Lemma list_directory_entries (path : string) (s : FileSystem) (l : loc)
    (nm : string) (cr md : time) (content : list (string * node)) (parent : option loc) :
  _get_node_at_path path false s = (Return (Some l), s) ->
  get_at (root s) l = Some (Dir nm cr md content) ->
  _get_node_at_path (parent_path path) false s = (Return parent, s) ->
  list_directory path s
  = (Return (mkEntry "." dir 0 cr md
             :: (if String.eqb path "C:" || String.eqb path "C:\" then []
                 else [dotdot s parent cr md])
             ++ map listed content), s).
Proof.
  intros R D P. unfold list_directory, bind at 1. rewrite R.
  unfold bind at 1, self at 1. rewrite D. unfold bind at 1.
  destruct (String.eqb path "C:"); [reflexivity|].
  destruct (String.eqb path "C:\"); [reflexivity|].
  cbn [negb andb orb]. unfold bind at 1.
  unfold parent_path in P.
  destruct (String.eqb path "."); rewrite P; unfold ret, bind, dotdot;
    destruct parent as [pl|]; try reflexivity;
    destruct (get_at (root s) pl); reflexivity.
Qed.

(** The listing of anything else is empty. *)
Lemma list_directory_empty (path : string) (s : FileSystem) (r : option loc) :
  _get_node_at_path path false s = (Return r, s) ->
  dir_content s r = None ->
  list_directory path s = (Return [], s).
Proof.
  intros R D. unfold list_directory, bind at 1. rewrite R.
  unfold bind at 1, self at 1. unfold dir_content in D.
  destruct r as [l|]; [|reflexivity].
  destruct (get_at (root s) l) as [[nm cr md content|]|]; [discriminate| |]; reflexivity.
Qed.

(** ** Where [change_directory] leaves the current path *)

Lemma segs_cons_nosep (c : ascii) (p : string) :
  is_sep c = false ->
  exists seg rest, segs p = seg :: rest /\ segs (String c p) = String c seg :: rest.
Proof.
  intros H. unfold is_sep in H. apply orb_false_elim in H. destruct H as [H1 H2].
  unfold segs. cbn [PyStr.replace PyStr.split]. rewrite H1, H2.
  destruct (PyStr.split backslash (PyStr.replace slash backslash p)) as [|seg rest] eqn:E.
  - now apply split_nonempty in E.
  - eauto.
Qed.

Lemma segs_nosep (p : string) : Forall (fun x => nosep x = true) (segs p).
Proof.
  induction p as [|c p IH]; [repeat constructor|].
  destruct (is_sep c) eqn:S.
  - rewrite (segs_sep_cons c p S). constructor; [reflexivity|exact IH].
  - destruct (segs_cons_nosep c p S) as (seg & rest & E & ->). rewrite E in IH.
    inversion IH; subst. constructor; [|assumption].
    unfold nosep in *. cbn [PyStr.all]. now rewrite S.
Qed.

Lemma nosep_segs (x : string) : nosep x = true -> segs x = [x].
Proof.
  induction x as [|c x IH]; [reflexivity|]. unfold nosep. cbn [PyStr.all]. intros H.
  apply andb_prop in H. destruct H as [H1 H2]. apply negb_true_iff in H1.
  destruct (segs_cons_nosep c x H1) as (seg & rest & E & ->).
  rewrite (IH H2) in E. now inversion E.
Qed.

Lemma cwd_parts_clean (rest : list string) :
  Forall (fun x => nosep x = true) rest -> cwd_parts ("C:" :: rest) = rest.
Proof.
  induction rest as [|x rest IH] using rev_ind; intros H; [reflexivity|].
  apply Forall_app in H. destruct H as [H1 H2]. inversion H2; subst.
  rewrite cwd_parts_snoc, (IH H1), nosep_segs; auto.
Qed.

(** A path that starts with [C:] is a path from the drive. *)
Lemma startswith_drive (path : string) :
  PyStr.startswith "C:" path = true -> parse_path path = "C:" :: tl (segs path).
Proof.
  intros H. unfold PyStr.startswith in H.
  destruct path as [|a [|b t]]; cbn [String.prefix] in H; try discriminate;
    destruct (ascii_dec "C" a) as [<-|]; try discriminate.
  destruct (ascii_dec ":" b) as [<-|]; try discriminate. clear H.
  rewrite parse_path_segs by discriminate.
  destruct (segs_cons_nosep ":" t eq_refl) as (seg & rest & E & E1).
  destruct (segs_cons_nosep "C" (String ":" t) eq_refl) as (seg' & rest' & E' & E1').
  rewrite E1 in E'. inversion E'; subst seg' rest'. rewrite E1'.
  cbn [fix_drive PyStr.contains tl]. change (Ascii.eqb ":" colon) with true.
  rewrite orb_true_r. cbn [orb PyStr.upper String.length].
  change (PyStr.upper_char "C") with "C"%char. change (PyStr.upper_char ":") with ":"%char.
  destruct (PyStr.upper seg); reflexivity.
Qed.

(** A [change_directory] that returns [False] has changed nothing. *)
Lemma change_directory_false (path : string) (s s' : FileSystem) :
  change_directory path s = (Return false, s') -> s' = s.
Proof.
  unfold change_directory, bind at 1.
  destruct (_get_node_at_path path false s) as [[r|e] s1] eqn:E;
    pose proof (get_node_pure _ _ _ _ E); subst s1; [|discriminate].
  unfold bind at 1, self at 1.
  destruct (dir_content s r); [|now inversion 1].
  destruct (String.eqb path ".."); [discriminate|].
  destruct (String.eqb path "."); [discriminate|].
  destruct (PyStr.startswith "C:" path); [|discriminate].
  destruct (parse_path path) as [|p0 rest]; [discriminate|].
  destruct (String.eqb p0 "C:"); discriminate.
Qed.

(** X5.  For the paths [.] and [..] and the paths that start with [C:], a
    [change_directory] that returns [True] leaves a current path that
    leads to the directory the path was resolved to. *)
Lemma change_directory_lands (path : string) (s s' : FileSystem) :
  wf_cp s ->
  path = "." \/ path = ".." \/ PyStr.startswith "C:" path = true ->
  change_directory path s = (Return true, s') ->
  exists l nm cr md content,
    _get_node_at_path path false s = (Return (Some l), s)
    /\ get_at (root s) l = Some (Dir nm cr md content)
    /\ root s' = root s
    /\ wf_cp s'
    /\ _get_current_node s' = (Return (Some l), s').
Proof.
  intros W C H.
  pose proof (change_directory_wf path s W) as W'. rewrite H in W'. cbn [snd] in W'.
  rewrite (get_current_node_eq s' W').
  unfold change_directory, bind at 1 in H.
  rewrite (get_node_plan path false s W) in *.
  destruct (anchor_loc (fst (plan path)) s) as [l0|] eqn:A.
  2:{ rewrite walk_none in H. unfold bind, self, ret in H.
      destruct (ne (snd (plan path))); discriminate. }
  rewrite (walk_false_spec _ l0 s (anchor_valid _ _ _ A)) in *.
  unfold bind at 1, self at 1 in H. unfold dir_content in H.
  destruct (get_at (root s) (l0 ++ ne (snd (plan path))))
    as [[nm cr md content|]|] eqn:G;
    cbn iota in H; rewrite ?G in H; cbn iota in H; unfold ret in H; try discriminate H.
  exists (l0 ++ ne (snd (plan path))), nm, cr, md, content.
  destruct C as [->|[->|C]].
  - change (plan ".") with (Cwd, @nil string) in *. cbn [fst snd ne filter] in *.
    rewrite app_nil_r in *. cbn [String.eqb Ascii.eqb Bool.eqb] in H.
    inversion H; subst. conjs; auto.
    now rewrite A.
  - change (plan "..") with (Parent, @nil string) in *. cbn [fst snd ne filter] in *.
    rewrite app_nil_r in *. cbn [String.eqb Ascii.eqb Bool.eqb] in H.
    inversion H; subst. conjs; auto.
    unfold anchor_loc in *. cbn [current_path root with_current_path].
    destruct (1 <? List.length (current_path s))%nat eqn:L.
    + now rewrite A.
    + inversion A; subst l0. destruct W as [rest W]. rewrite W in *.
      destruct rest; [reflexivity|discriminate L].
  - pose proof (startswith_drive path C) as P.
    assert (Pl : fst (plan path) = Root /\ ne (snd (plan path)) = ne (tl (segs path))).
    { unfold plan, early.
      destruct (String.eqb_spec path "") as [->|_]; [discriminate C|].
      destruct (String.eqb_spec path "C:") as [->|_]; [split; reflexivity|].
      destruct (String.eqb_spec path "C:\") as [->|_]; [split; reflexivity|].
      cbn [orb]. rewrite P. split; reflexivity. }
    destruct Pl as [Pa Pn]. rewrite Pa in A. inversion A; subst l0. cbn [app] in *.
    destruct (String.eqb_spec path "..") as [->|_]; [discriminate C|].
    destruct (String.eqb_spec path ".") as [->|_]; [discriminate C|].
    rewrite C, P in H. cbn in H. inversion H; subst. conjs; auto.
    unfold anchor_loc, find. cbn [current_path root with_current_path].
    rewrite cwd_parts_clean.
    + rewrite <- Pn, G. reflexivity.
    + pose proof (segs_nosep path) as F. destruct (segs path); [constructor|].
      now inversion F.
Qed.

(** ** A path and its directory part, in a tree that has changed *)

Lemma prefix_exists (r : node) (pre suf : loc) :
  get_at r (pre ++ suf) <> None -> get_at r pre <> None.
Proof. rewrite get_at_app. destruct (get_at r pre); congruence. Qed.

(** Where the directory part of a path resolves to [l], and [l] is still
    there after a change, the directory part still resolves to [l] and the
    path to the entry of its last part in [l]. *)
Lemma coherent_resolve (p d b : string) (s s' : FileSystem) (l : loc) :
  wf_cp s -> is_valid_filename b = true -> coherent p d b ->
  _get_node_at_path (or_dot d) false s = (Return (Some l), s) ->
  current_path s' = current_path s ->
  get_at (root s') l <> None ->
  _get_node_at_path (or_dot d) false s' = (Return (Some l), s')
  /\ _get_node_at_path p false s'
     = (Return (match get_at (root s') (l ++ [b]) with
                | Some _ => Some (l ++ [b])
                | None => None
                end), s').
Proof.
  intros W V C R Cp G.
  destruct (coherent_plan _ _ _ V C) as [K1 K2].
  rewrite (get_node_plan _ false s W) in R.
  destruct (anchor_loc (fst (plan (or_dot d))) s) as [l0|] eqn:A.
  2:{ rewrite walk_none in R. destruct (ne _); discriminate. }
  rewrite (walk_false_spec _ l0 s (anchor_valid _ _ _ A)) in R.
  destruct (get_at (root s) (l0 ++ ne (snd (plan (or_dot d))))) eqn:G1; [|discriminate].
  inversion R as [HL]. clear R.
  assert (W' : wf_cp s') by (destruct W as [rest W]; exists rest; congruence).
  assert (G0 : get_at (root s') l0 <> None).
  { apply (prefix_exists _ l0 (ne (snd (plan (or_dot d))))). now rewrite HL. }
  assert (A' : anchor_loc (fst (plan (or_dot d))) s' = Some l0)
    by now apply (anchor_loc_kept _ s s').
  split.
  - rewrite (get_node_plan _ false s' W'), A', (walk_false_spec _ l0 s' G0), HL.
    destruct (get_at (root s') l); [reflexivity|congruence].
  - rewrite (get_node_plan _ false s' W'), K1, A', (walk_false_spec _ l0 s' G0), K2.
    now rewrite app_assoc, HL.
Qed.

Lemma update_keeps (f : node -> node) (l : loc) (r : node) :
  get_at r l <> None -> get_at (update_at f l r) l <> None.
Proof.
  intros H. rewrite <- (app_nil_r l) at 1. now apply get_at_update_some.
Qed.

(** A path that resolves, cut at a separator with a valid name as its
    last part, resolves to the entry of that name in the directory that
    its directory part resolves to. *)
Lemma coherent_parent (p d b : string) (s : FileSystem) (t : loc) :
  wf_cp s -> is_valid_filename b = true -> coherent p d b ->
  _get_node_at_path p false s = (Return (Some t), s) ->
  exists l, t = l ++ [b] /\ _get_node_at_path (or_dot d) false s = (Return (Some l), s).
Proof.
  intros W V C R.
  destruct (coherent_plan _ _ _ V C) as [K1 K2].
  rewrite (get_node_plan _ false s W) in R.
  rewrite (get_node_plan _ false s W).
  rewrite K1 in R.
  destruct (anchor_loc (fst (plan (or_dot d))) s) as [l0|] eqn:A.
  2:{ rewrite walk_none in R. destruct (ne _); discriminate. }
  rewrite (walk_false_spec _ l0 s (anchor_valid _ _ _ A)) in R.
  rewrite (walk_false_spec _ l0 s (anchor_valid _ _ _ A)).
  rewrite K2, app_assoc in R.
  destruct (get_at (root s) ((l0 ++ ne (snd (plan (or_dot d)))) ++ [b])) eqn:G; [|discriminate].
  inversion R; subst t. exists (l0 ++ ne (snd (plan (or_dot d)))). split; [reflexivity|].
  assert (P : get_at (root s) (l0 ++ ne (snd (plan (or_dot d)))) <> None).
  { apply (prefix_exists _ _ [b]). congruence. }
  destruct (get_at (root s) (l0 ++ ne (snd (plan (or_dot d))))); [reflexivity|congruence].
Qed.

(** C5, as the code has it.  [remove_directory] does not resolve its path:
    it cuts it with [os.path.split], resolves the directory part and looks
    the last part up there as a key.  Where that is the way the path
    resolves (the path is cut at a separator, its last part is a valid file
    name, and the current path starts at the drive), a path that resolves
    to a directory with at least one child is not removed: the call
    returns [False] and leaves the whole object as it was.  For every path,
    when the entry under the last part in the directory of the directory
    part is a directory with at least one child, the call returns [False]
    and leaves the whole object as it was; and whenever the call returns
    [True], the entry it removed was that entry, a directory without
    children.  (The message printed for a directory that is not empty is
    not modelled.) *)
Theorem remove_directory_never_recursive
    (path dirname basename : string) (s : FileSystem) :
  os_path_split path = (dirname, basename) ->
  (forall t dn dc dm child children,
      wf_cp s ->
      is_valid_filename basename = true ->
      coherent path dirname basename ->
      _get_node_at_path path false s = (Return (Some t), s) ->
      get_at (root s) t = Some (Dir dn dc dm (child :: children)) ->
      remove_directory path s = (Return false, s))
  /\ (forall l nm cr md content dn dc dm child children,
      _get_node_at_path (or_dot dirname) false s = (Return (Some l), s) ->
      get_at (root s) l = Some (Dir nm cr md content) ->
      Dict.lookup basename content = Some (Dir dn dc dm (child :: children)) ->
      remove_directory path s = (Return false, s))
  /\ (forall s',
      remove_directory path s = (Return true, s') ->
      exists l nm cr md content dn dc dm,
        _get_node_at_path (or_dot dirname) false s = (Return (Some l), s)
        /\ get_at (root s) l = Some (Dir nm cr md content)
        /\ Dict.lookup basename content = Some (Dir dn dc dm [])
        /\ root s' = update_at (set_modified (clock (ticks s))) l
                       (update_at (del_child basename) l (root s))).
Proof.
  intros Hs.
  assert (E : forall l nm cr md content dn dc dm child children,
      _get_node_at_path (or_dot dirname) false s = (Return (Some l), s) ->
      get_at (root s) l = Some (Dir nm cr md content) ->
      Dict.lookup basename content = Some (Dir dn dc dm (child :: children)) ->
      remove_directory path s = (Return false, s)).
  { intros l nm cr md content dn dc dm child children Hp Hd Hn.
    unfold remove_directory. rewrite Hs.
    unfold bind at 1. rewrite Hp. unfold bind at 1, self at 1.
    unfold dir_content. rewrite Hd, Hn. reflexivity. }
  split; [|split].
  - intros t dn dc dm child children W V C R G.
    destruct (coherent_parent _ _ _ _ _ W V C R) as (l & -> & Hp).
    rewrite get_at_app in G.
    destruct (get_at (root s) l) as [[nm cr md content|fn fc fm fs fx]|] eqn:Hd;
      try discriminate.
    cbn [get_at] in G.
    destruct (Dict.lookup basename content) as [n|] eqn:Hn; [|discriminate].
    inversion G; subst n. eapply E; eauto.
  - exact E.
  - unfold remove_directory. rewrite Hs.
    intros s' H. unfold bind at 1 in H.
    destruct (_get_node_at_path (or_dot dirname) false s) as [[parent|e] s1] eqn:Hp;
      [|discriminate].
    pose proof (get_node_pure _ _ _ _ Hp) as ->.
    unfold bind at 1, self at 1 in H.
    destruct parent as [l|]; [|discriminate].
    unfold dir_content in H.
    destruct (get_at (root s) l) as [[nm cr md content|]|] eqn:Hd; try discriminate.
    destruct (Dict.lookup basename content) as [[dn dc dm [|child children]|]|] eqn:Hn;
      try discriminate.
    unfold bind, mutate, time_time, ret in H. inversion H; subst s'. cbn [root with_root].
    exists l, nm, cr, md, content, dn, dc, dm. conjs; auto.
Qed.

(** ** What a resolution creates *)

(** An empty directory put under a new name of the directory at [l] is the
    one new place of the tree. *)
Lemma insert_dir_new (k : string) (a b : time) (l : loc) :
  forall (r : node) (nm : string) (cr md : time) (content : list (string * node)) (m : loc),
    get_at r l = Some (Dir nm cr md content) ->
    Dict.lookup k content = None ->
    get_at r m = None ->
    get_at (update_at (set_child k (Dir k a b [])) l r) m <> None ->
    m = l ++ [k].
Proof.
  induction l as [|k0 l IH]; intros r nm cr md content m G N A B.
  - simpl in G; inversion G; subst r; clear G. cbn [update_at set_child] in B.
    destruct m as [|k' m]; [discriminate A|]. cbn [get_at] in A, B.
    destruct (String.eqb_spec k' k) as [->|D].
    + rewrite lookup_set_same in B. destruct m as [|x m]; [reflexivity|].
      simpl in B. congruence.
    + rewrite lookup_set_other in B by auto. congruence.
  - simpl in G. destruct r as [rn rc rm rcontent|]; [|discriminate].
    destruct (Dict.lookup k0 rcontent) as [c|] eqn:E; [|discriminate].
    cbn [update_at] in B.
    destruct m as [|k' m]; [discriminate A|]. cbn [get_at] in A, B.
    destruct (String.eqb_spec k' k0) as [->|D].
    + rewrite lookup_modify_same, E in B. rewrite E in A. cbn [option_map] in B.
      cbn [app]. f_equal. eapply IH; eauto.
    + rewrite lookup_modify_other in B by auto. congruence.
Qed.

Lemma ne_cons (part : string) (rest : list string) :
  part <> "" -> ne (part :: rest) = part :: ne rest.
Proof.
  intros N. cbn [ne filter]. destruct (String.eqb_spec part ""); [congruence|reflexivity].
Qed.

(** The places the loop adds to the tree: directories, each at parts of
    the loop that stop before the last one, and only with [create_dirs]. *)
Lemma walk_new (c : bool) (parts : list string) :
  forall (l : loc) (s : FileSystem) (r : outcome (option loc)) (s' : FileSystem) (m : loc),
    get_at (root s) l <> None ->
    walk c parts (Some l) s = (r, s') ->
    get_at (root s) m = None ->
    get_at (root s') m <> None ->
    c = true
    /\ is_dir (get_at (root s') m) = true
    /\ exists k, (k < List.length parts)%nat /\ m = l ++ ne (firstn k parts).
Proof.
  induction parts as [|part rest IH]; intros l s r s' m V H A B.
  - rewrite walk_nil in H; inversion H; subst. congruence.
  - cbn [walk] in H. destruct (String.eqb_spec part "") as [->|Ep].
    + destruct (IH _ _ _ _ _ V H A B) as (C & D & k & Hk & ->).
      conjs; auto. exists (S k). split; [simpl; lia|reflexivity].
    + destruct (get_at (root s) l) as [n|] eqn:G; [|congruence].
      destruct n as [nm cr md content|]; [|inversion H; subst; congruence].
      destruct (Dict.mem part content) eqn:Em.
      * apply mem_lookup in Em; destruct Em as [ch Ech].
        assert (V' : get_at (root s) (l ++ [part]) <> None).
        { rewrite get_at_app, G; simpl; rewrite Ech; discriminate. }
        destruct (IH _ _ _ _ _ V' H A B) as (C & D & k & Hk & ->).
        conjs; auto. exists (S k). split; [simpl; lia|].
        cbn [firstn]. rewrite (ne_cons _ _ Ep), <- app_assoc. reflexivity.
      * apply mem_false_lookup in Em.
        destruct (c && negb (Nat.eqb (List.length rest) 0)) eqn:Ec;
          [|inversion H; subst; congruence].
        apply andb_prop in Ec. destruct Ec as [-> Ec].
        unfold bind, time_time, mutate in H; cbn [root ticks] in H.
        match type of H with walk _ _ _ ?S2 = _ => set (s2 := S2) in * end.
        assert (R2 : root s2 = update_at
                  (set_child part (Dir part (clock (ticks s)) (clock (S (ticks s))) []))
                  l (root s)) by reflexivity.
        assert (G2 : get_at (root s2) (l ++ [part])
                     = Some (Dir part (clock (ticks s)) (clock (S (ticks s))) [])).
        { rewrite R2, (get_at_update_below _ l [part] _ _ G); simpl.
          now rewrite lookup_set_same. }
        assert (V' : get_at (root s2) (l ++ [part]) <> None) by congruence.
        destruct (get_at (root s2) m) as [n2|] eqn:A2.
        -- assert (M : m = l ++ [part]).
           { apply (insert_dir_new part (clock (ticks s)) (clock (S (ticks s)))
                      l (root s) nm cr md content m G Em A).
             rewrite <- R2. congruence. }
           subst m.
           destruct (walk_inv _ _ _ _ _ _ V' H) as (_ & _ & _ & _ & _ & K & _).
           destruct (K _ _ G2) as (n' & Gn & Kn).
           conjs; auto.
           ++ rewrite Gn. destruct n'; [reflexivity|discriminate Kn].
           ++ exists 1%nat. split.
              ** destruct rest; [discriminate Ec|simpl; lia].
              ** cbn [firstn]. now rewrite (ne_cons _ _ Ep).
        -- destruct (IH _ _ _ _ _ V' H A2 B) as (C & D & k & Hk & ->).
           conjs; auto. exists (S k). split; [simpl; lia|].
           cbn [firstn]. rewrite (ne_cons _ _ Ep), <- app_assoc. reflexivity.
Qed.

Lemma last_ne (parts : list string) : last parts "" <> "" -> ne parts <> [].
Proof.
  induction parts as [|p parts IH]; [simpl; congruence|].
  destruct parts as [|p2 parts].
  - simpl. intros N. destruct (String.eqb_spec p ""); [congruence|discriminate].
  - intros N. change (last (p :: p2 :: parts) "") with (last (p2 :: parts) "") in N.
    specialize (IH N). cbn [ne filter] in *.
    destruct (negb (String.eqb p "")); [discriminate|exact IH].
Qed.

Lemma ne_last_empty (parts : list string) : ne parts = [] -> last parts "" = "".
Proof.
  intros H. destruct (String.eqb_spec (last parts "") "") as [E|N]; [exact E|].
  now apply last_ne in N.
Qed.

(** Parts that stop before the last one, when that one is not empty, lead
    less far than all the parts. *)
Lemma ne_firstn_proper (parts : list string) (k : nat) :
  last parts "" <> "" -> (k < List.length parts)%nat ->
  ne (firstn k parts) <> ne parts.
Proof.
  intros L K E.
  rewrite <- (firstn_skipn k parts) in E at 2. rewrite ne_app in E.
  rewrite <- (app_nil_r (ne (firstn k parts))) in E at 1.
  apply app_inv_head in E.
  assert (S : skipn k parts <> []).
  { intros Z. apply (f_equal (@List.length string)) in Z.
    rewrite length_skipn in Z. simpl in Z. lia. }
  assert (L' : last (skipn k parts) "" <> "").
  { rewrite <- (firstn_skipn k parts) in L. now rewrite (last_suffix _ _ "" S) in L. }
  apply last_ne in L'. congruence.
Qed.

(** What is there is found, and nothing is created, with or without
    [create_dirs]. *)
Lemma walk_found (c : bool) (parts : list string) (l : loc) (s : FileSystem) :
  get_at (root s) (l ++ ne parts) <> None ->
  walk c parts (Some l) s = (Return (Some (l ++ ne parts)), s).
Proof.
  intros G.
  assert (V : get_at (root s) l <> None) by (eapply prefix_exists; eauto).
  pose proof (walk_false_spec parts l s V) as F.
  destruct (get_at (root s) (l ++ ne parts)); [|congruence].
  destruct c; [now apply walk_false_true|exact F].
Qed.

(** The place the parts lead to is not created when the last part is not
    empty, and the loop returns no entry when there is nothing there. *)
Lemma walk_target (c : bool) (parts : list string) (l : loc) (s s' : FileSystem)
    (r : outcome (option loc)) :
  get_at (root s) l <> None ->
  last parts "" <> "" ->
  get_at (root s) (l ++ ne parts) = None ->
  walk c parts (Some l) s = (r, s') ->
  r = Return None /\ get_at (root s') (l ++ ne parts) = None.
Proof.
  intros V L A H.
  assert (T : get_at (root s') (l ++ ne parts) = None).
  { destruct (get_at (root s') (l ++ ne parts)) eqn:B; [|reflexivity].
    destruct (walk_new c parts l s r s' (l ++ ne parts) V H A) as (_ & _ & k & Hk & E);
      [congruence|].
    apply app_inv_head in E. symmetry in E. now apply ne_firstn_proper in E. }
  split; [|exact T].
  destruct (walk_inv _ _ _ _ _ _ V H) as (_ & _ & _ & _ & _ & _ & _ & o & -> & O).
  destruct o as [l'|]; [|reflexivity].
  destruct (O l' eq_refl) as [-> O']. congruence.
Qed.

Lemma walk_all_empty (c : bool) (parts : list string) (cur : option loc) (s : FileSystem) :
  ne parts = [] -> walk c parts cur s = (Return cur, s).
Proof.
  induction parts as [|p parts IH]; intros H; [reflexivity|].
  apply ne_nil_cons in H. destruct H as [-> H]. rewrite walk_empty. auto.
Qed.

(** The directory at [a ++ q] has no entry [b], and [b] is the last part
    that is not empty: when it is the last part of all, nothing is created
    and no entry is returned. *)
Lemma walk_absent_last (c : bool) (b : string) (s : FileSystem)
    (content : list (string * node)) (parts : list string) :
  forall (a q : loc),
    ne parts = q ++ [b] ->
    last parts "" <> "" ->
    dir_content s (Some (a ++ q)) = Some content ->
    Dict.lookup b content = None ->
    walk c parts (Some a) s = (Return None, s).
Proof.
  induction parts as [|part rest IH]; intros a q Hn Hl Hd Hb.
  - destruct q; discriminate Hn.
  - assert (R : rest <> [] -> last (part :: rest) "" = last rest "").
    { destruct rest; [congruence|reflexivity]. }
    cbn [walk]. destruct (String.eqb_spec part "") as [->|Ep].
    + cbn [ne filter String.eqb negb] in Hn.
      assert (N : rest <> []) by (intros ->; destruct q; discriminate Hn).
      apply (IH a q); auto. now rewrite <- R.
    + rewrite (ne_cons _ _ Ep) in Hn. destruct q as [|x q].
      * inversion Hn; subst part. rewrite app_nil_r in Hd.
        unfold dir_content in Hd.
        destruct (get_at (root s) a) as [[nm cr md ca|]|]; try discriminate.
        inversion Hd; subst ca.
        assert (Em : Dict.mem b content = false) by now apply mem_false_lookup.
        rewrite Em.
        destruct rest as [|e rest]; [now rewrite andb_false_r|].
        exfalso. apply Hl. rewrite R by discriminate. now apply ne_last_empty.
      * inversion Hn; subst part.
        assert (N : rest <> []) by (intros ->; destruct q; discriminate).
        unfold dir_content in Hd. rewrite get_at_app in Hd.
        destruct (get_at (root s) a) as [[nm cr md ca|]|] eqn:G; try discriminate.
        cbn [get_at] in Hd.
        destruct (Dict.lookup x ca) as [ch|] eqn:Ex; [|discriminate].
        assert (Em : Dict.mem x ca = true) by (apply mem_lookup; eauto).
        rewrite Em. apply (IH (a ++ [x]) q); auto.
        -- now rewrite <- R.
        -- unfold dir_content. rewrite <- app_assoc. cbn [app].
           rewrite get_at_app, G. cbn [get_at]. now rewrite Ex.
Qed.

(** The same when a part that is empty comes after [b]: with
    [create_dirs], [b] is created and returned. *)
Lemma walk_creates_named_last (b : string) (s : FileSystem)
    (content : list (string * node)) (parts : list string) :
  forall (a q : loc),
    ne parts = q ++ [b] ->
    last parts "" = "" ->
    dir_content s (Some (a ++ q)) = Some content ->
    Dict.lookup b content = None ->
    walk true parts (Some a) s = (Return (Some ((a ++ q) ++ [b])), inserted (a ++ q) b s).
Proof.
  induction parts as [|part rest IH]; intros a q Hn Hl Hd Hb.
  - destruct q; discriminate Hn.
  - assert (R : rest <> [] -> last (part :: rest) "" = last rest "").
    { destruct rest; [congruence|reflexivity]. }
    cbn [walk]. destruct (String.eqb_spec part "") as [->|Ep].
    + cbn [ne filter String.eqb negb] in Hn.
      assert (N : rest <> []) by (intros ->; destruct q; discriminate Hn).
      apply (IH a q); auto. now rewrite <- R.
    + rewrite (ne_cons _ _ Ep) in Hn. destruct q as [|x q].
      * cbn [app] in Hn. injection Hn as Eb En. subst part. rewrite app_nil_r in *.
        unfold dir_content in Hd.
        destruct (get_at (root s) a) as [[nm cr md ca|]|]; try discriminate.
        inversion Hd; subst ca.
        assert (Em : Dict.mem b content = false) by now apply mem_false_lookup.
        rewrite Em.
        destruct rest as [|e rest]; [simpl in Hl; congruence|].
        cbn [andb negb Nat.eqb List.length].
        unfold bind, time_time, mutate; cbn [root ticks].
        now rewrite (walk_all_empty true (e :: rest) _ _ En).
      * inversion Hn; subst part.
        assert (N : rest <> []) by (intros ->; destruct q; discriminate).
        unfold dir_content in Hd. rewrite get_at_app in Hd.
        destruct (get_at (root s) a) as [[nm cr md ca|]|] eqn:G; try discriminate.
        cbn [get_at] in Hd.
        destruct (Dict.lookup x ca) as [ch|] eqn:Ex; [|discriminate].
        assert (Em : Dict.mem x ca = true) by (apply mem_lookup; eauto).
        rewrite Em.
        replace (a ++ x :: q) with ((a ++ [x]) ++ q) by now rewrite <- app_assoc.
        apply (IH (a ++ [x]) q); auto.
        -- now rewrite <- R.
        -- unfold dir_content. rewrite <- app_assoc. cbn [app].
           rewrite get_at_app, G. cbn [get_at]. now rewrite Ex.
Qed.

(** A path cut at a separator ends with its last part. *)
Lemma coherent_last (p d b : string) :
  is_valid_filename b = true -> coherent p d b -> last (parse_path p) "" = b.
Proof.
  intros V [[-> ->]|[N C]].
  - destruct (valid_facts b V) as (N1 & _ & _ & N4).
    now rewrite (clean_parse b N4 N1).
  - destruct (coherent_parse p d b V N C) as (p0 & r0 & E & E' & _ & _ & _ & ->).
    change (p0 :: r0 ++ E' ++ [b]) with ((p0 :: r0) ++ E' ++ [b]).
    rewrite !app_assoc. now rewrite last_suffix by discriminate.
Qed.

Lemma coherent_nonempty (p d b : string) :
  is_valid_filename b = true -> coherent p d b -> p <> "".
Proof.
  intros V C E. pose proof (coherent_last p d b V C) as L. rewrite E in L.
  destruct (valid_facts b V) as (N1 & _). simpl in L. congruence.
Qed.

(** Where the directory part of a path resolves to [l], the loop of the
    path starts where that of the directory part does, and leads to [l]
    and then to the last part. *)
Lemma coherent_walk (p d b : string) (s : FileSystem) (l : loc) :
  wf_cp s -> is_valid_filename b = true -> coherent p d b ->
  _get_node_at_path (or_dot d) false s = (Return (Some l), s) ->
  exists a q,
    anchor_loc (fst (plan p)) s = Some a
    /\ l = a ++ q
    /\ ne (snd (plan p)) = q ++ [b].
Proof.
  intros W V C R.
  destruct (coherent_plan _ _ _ V C) as [K1 K2].
  rewrite (get_node_plan _ false s W) in R.
  destruct (anchor_loc (fst (plan (or_dot d))) s) as [l0|] eqn:A.
  2:{ rewrite walk_none in R. destruct (ne _); discriminate. }
  rewrite (walk_false_spec _ l0 s (anchor_valid _ _ _ A)) in R.
  destruct (get_at (root s) (l0 ++ ne (snd (plan (or_dot d))))); [|discriminate].
  inversion R. exists l0, (ne (snd (plan (or_dot d)))). rewrite K1. auto.
Qed.

(** C3, as the code has it.  A resolution without [create_dirs] changes
    nothing.  Whatever it returns, a resolution adds directories only: the
    files of the tree are the same before and after, every entry is kept
    with its type, and the used space is the same; and at a part that is
    not empty, a node that is not a directory ends the loop with no entry.

    From the place [a] where the loop starts (when the current path leads
    nowhere there is none, and nothing is created), over the parts of the
    path that the loop goes through: an entry that is there is returned as it
    is, directory or file, and nothing is created; every place the call
    adds is a directory, reached by parts that stop before the last part,
    and is added only with [create_dirs]; so when the last part is not
    empty and there is nothing where the parts lead, the call returns no
    entry, there is still nothing there afterwards, and the path still
    resolves to nothing.

    In particular, for a path cut at a separator whose directory part
    resolves to a directory without the last part: the call returns no
    entry and changes nothing, with or without [create_dirs].  The same
    path followed by a separator ends with a part that is empty, its last
    part that has a name is then not the last: with [create_dirs] it is
    created, an empty directory, and returned; without, no entry is
    returned. *)
Theorem resolve_never_creates_last_part
    (path : string) (create_dirs : bool) (s s' : FileSystem) (r : outcome (option loc)) :
  _get_node_at_path path create_dirs s = (r, s') ->
  (create_dirs = false -> s' = s)
  /\ (forall l, r = Return (Some l) -> last (parse_path path) "" <> "" ->
        s' = s /\ get_at (root s) l <> None)
  /\ files_same (root s) (root s')
  /\ entries_kept (root s) (root s')
  /\ _calculate_used_space (root s') = _calculate_used_space (root s)
  /\ (forall part rest l nm cr md sz c s0,
        part <> "" -> get_at (root s0) l = Some (File nm cr md sz c) ->
        walk create_dirs (part :: rest) (Some l) s0 = (Return None, s0))
  /\ (forall a,
        wf_cp s -> anchor_loc (fst (plan path)) s = Some a ->
        _get_node_at_path path create_dirs s
        = walk create_dirs (snd (plan path)) (Some a) s
        /\ (get_at (root s) (a ++ ne (snd (plan path))) <> None ->
            r = Return (Some (a ++ ne (snd (plan path)))) /\ s' = s)
        /\ (get_at (root s) (a ++ ne (snd (plan path))) = None ->
            last (parse_path path) "" <> "" ->
            r = Return None
            /\ get_at (root s') (a ++ ne (snd (plan path))) = None
            /\ _get_node_at_path path false s' = (Return None, s'))
        /\ (forall m,
              get_at (root s) m = None -> get_at (root s') m <> None ->
              create_dirs = true
              /\ is_dir (get_at (root s') m) = true
              /\ exists k, (k < List.length (snd (plan path)))%nat
                   /\ m = a ++ ne (firstn k (snd (plan path)))))
  /\ (wf_cp s -> anchor_loc (fst (plan path)) s = None ->
      s' = s /\ forall l, r <> Return (Some l))
  /\ (forall d b l content,
        wf_cp s -> is_valid_filename b = true -> coherent path d b ->
        _get_node_at_path (or_dot d) false s = (Return (Some l), s) ->
        dir_content s (Some l) = Some content ->
        Dict.lookup b content = None ->
        r = Return None /\ s' = s)
  /\ (forall p sep d b l content,
        path = (p ++ String sep "")%string -> is_sep sep = true ->
        wf_cp s -> is_valid_filename b = true -> coherent p d b ->
        _get_node_at_path (or_dot d) false s = (Return (Some l), s) ->
        dir_content s (Some l) = Some content ->
        Dict.lookup b content = None ->
        (create_dirs = true -> r = Return (Some (l ++ [b])) /\ s' = inserted l b s)
        /\ (create_dirs = false -> r = Return None /\ s' = s)).
Proof.
  intros H.
  destruct (get_node_inv _ _ _ _ _ H) as ((P1 & P2 & P3 & P4 & P5 & P6) & Q & V).
  split; [exact Q|]. split; [|split; [exact P5|split; [exact P6|split; [exact P4|split]]]].
  - intros l -> L. unfold _get_node_at_path, recursion_limit in H.
    pose proof (rec_final _ _ _ _ _ _ L H) as ->. split; [reflexivity|].
    now apply V.
  - intros part rest l nm cr md sz c s0 N G. cbn [walk].
    destruct (String.eqb_spec part ""); [congruence|]. now rewrite G.
  - split; [|split; [|split]].
    + intros a W A.
      assert (E : _get_node_at_path path create_dirs s
                  = walk create_dirs (snd (plan path)) (Some a) s).
      { now rewrite (get_node_plan path _ s W), A. }
      rewrite E in H. pose proof (anchor_valid _ _ _ A) as Va.
      split; [exact E|]. split; [|split].
      * intros G. rewrite (walk_found _ _ _ _ G) in H. inversion H; auto.
      * intros G L.
        assert (Lp : last (snd (plan path)) "" <> "").
        { rewrite plan_last; [exact L|].
          intros Z. rewrite Z in G. cbn [ne filter] in G. rewrite app_nil_r in G.
          congruence. }
        destruct (walk_target _ _ _ _ _ _ Va Lp G H) as [-> T].
        split; [reflexivity|]. split; [exact T|].
        assert (W' : wf_cp s') by (destruct W as [rest W]; exists rest; congruence).
        assert (A' : anchor_loc (fst (plan path)) s' = Some a).
        { apply (anchor_loc_kept _ s s'); auto. apply (entries_kept_some _ _ _ P6 Va). }
        rewrite (get_node_plan path false s' W'), A'.
        rewrite (walk_false_spec _ a s' (anchor_valid _ _ _ A')), T. reflexivity.
      * intros m Gm Gm'. apply (walk_new _ _ _ _ _ _ m Va H Gm Gm').
    + intros W A. rewrite (get_node_plan path _ s W), A, walk_none in H.
      inversion H; subst. split; [reflexivity|].
      intros l. destruct (ne (snd (plan path))); discriminate.
    + intros d b l content W Vb C R Hd Hb.
      destruct (coherent_walk _ _ _ _ _ W Vb C R) as (a & q & A & -> & Hn).
      rewrite (get_node_plan path _ s W), A in H.
      assert (L : last (snd (plan path)) "" <> "").
      { rewrite plan_last.
        - rewrite (coherent_last _ _ _ Vb C). now apply valid_facts.
        - intros Z; rewrite Z in Hn; destruct q; discriminate. }
      rewrite (walk_absent_last _ b s content _ a q Hn L Hd Hb) in H. inversion H; auto.
    + intros p sep d b l content -> Hsep W Vb C R Hd Hb.
      destruct (coherent_walk _ _ _ _ _ W Vb C R) as (a & q & A & -> & Hn).
      pose proof (coherent_nonempty _ _ _ Vb C) as Np.
      assert (E : plan_equiv (plan (p ++ String sep "")) (plan p)).
      { eapply plan_equiv_trans; [apply plan_plan'|].
        eapply plan_equiv_trans; [apply (plan'_trailing p sep Np Hsep)|].
        apply plan_equiv_sym, plan_plan'. }
      destruct E as [E1 E2].
      rewrite (get_node_plan _ _ s W), E1, A in H.
      rewrite <- E2 in Hn.
      assert (Nn : snd (plan (p ++ String sep "")) <> []).
      { intros Z; rewrite Z in Hn; destruct q; discriminate. }
      assert (L : last (snd (plan (p ++ String sep ""))) "" = "").
      { rewrite (plan_last _ Nn), (parse_app_sep sep p "" Hsep).
        change (segs "") with [""]. now rewrite last_suffix by discriminate. }
      split.
      * intros ->.
        rewrite (walk_creates_named_last b s content _ a q Hn L Hd Hb) in H.
        inversion H; auto.
      * intros ->. pose proof (anchor_valid _ _ _ A) as Va.
        rewrite (walk_false_spec _ a s Va), Hn in H.
        assert (G : get_at (root s) (a ++ q ++ [b]) = None).
        { rewrite app_assoc, get_at_app. unfold dir_content in Hd.
          destruct (get_at (root s) (a ++ q)) as [[nm cr md ca|]|]; try discriminate.
          inversion Hd; subst ca. cbn [get_at]. now rewrite Hb. }
        rewrite G in H. inversion H; auto.
Qed.

(** ** Creating and removing directories *)

Lemma set_absent (A : Type) (k : string) (v : A) (d : list (string * A)) :
  Dict.lookup k d = None -> Dict.set k v d = d ++ [(k, v)].
Proof.
  induction d as [|[k' v'] d IH]; simpl; [reflexivity|].
  destruct (String.eqb k' k); [discriminate|]. intros H. now rewrite (IH H).
Qed.

Lemma remove_appended (A : Type) (k : string) (v : A) (d : list (string * A)) :
  Dict.lookup k d = None -> Dict.remove k (d ++ [(k, v)]) = d.
Proof.
  induction d as [|[k' v'] d IH]; simpl.
  - now rewrite String.eqb_refl.
  - destruct (String.eqb k' k); [discriminate|]. intros H. now rewrite (IH H).
Qed.

Lemma lookup_appended (A : Type) (k k' : string) (v : A) (d : list (string * A)) :
  Dict.lookup k' (d ++ [(k, v)])
  = match Dict.lookup k' d with
    | Some x => Some x
    | None => if String.eqb k k' then Some v else None
    end.
Proof.
  induction d as [|[k0 v0] d IH]; simpl; [reflexivity|].
  destruct (String.eqb k0 k'); [reflexivity|exact IH].
Qed.

Lemma update_at_compose (f g : node -> node) (l : loc) :
  forall r, update_at f l (update_at g l r) = update_at (fun x => f (g x)) l r.
Proof.
  induction l as [|k l IH]; intros r; [reflexivity|].
  destruct r as [nm cr md content|]; [|reflexivity]. cbn [update_at]. f_equal.
  induction content as [|[k' v'] content IHc]; [reflexivity|].
  cbn [Dict.modify]. destruct (String.eqb k' k) eqn:E.
  - cbn [Dict.modify]. rewrite E. now rewrite IH.
  - cbn [Dict.modify]. rewrite E. now rewrite IHc.
Qed.

Lemma update_at_ext (f g : node -> node) (l : loc) :
  forall r x, get_at r l = Some x -> f x = g x -> update_at f l r = update_at g l r.
Proof.
  induction l as [|k l IH]; intros r x G E.
  - inversion G; subst. exact E.
  - destruct r as [nm cr md content|]; [|reflexivity]. cbn [update_at get_at] in *. f_equal.
    induction content as [|[k' v'] content IHc]; [reflexivity|].
    cbn [Dict.modify Dict.lookup] in *. destruct (String.eqb k' k).
    + f_equal. f_equal. now apply (IH v' x).
    + f_equal. now apply IHc.
Qed.

(** [create_directory] after the resolution of its parent directory. *)
Lemma create_directory_cases (path d b : string) (s : FileSystem) (l : loc)
    (nm : string) (cr md : time) (content : list (string * node)) :
  os_path_split path = (d, b) ->
  is_valid_filename b = true ->
  _get_node_at_path (or_dot d) false s = (Return (Some l), s) ->
  get_at (root s) l = Some (Dir nm cr md content) ->
  create_directory path s
  = if Dict.mem b content then (Return false, s) else (Return true, made l b s).
Proof.
  intros Hs Hv Hp Hd. unfold create_directory. rewrite Hs, Hv. cbn [negb].
  unfold bind at 1. rewrite Hp. unfold bind at 1, self at 1.
  unfold dir_content. rewrite Hd. destruct (Dict.mem b content); reflexivity.
Qed.

(** What a successful [create_directory] has gone through. *)
Lemma create_directory_success (path d b : string) (s s' : FileSystem) :
  os_path_split path = (d, b) ->
  create_directory path s = (Return true, s') ->
  is_valid_filename b = true
  /\ exists l nm cr md content,
       _get_node_at_path (or_dot d) false s = (Return (Some l), s)
       /\ get_at (root s) l = Some (Dir nm cr md content)
       /\ Dict.lookup b content = None
       /\ s' = made l b s.
Proof.
  intros Hs H.
  destruct (is_valid_filename b) eqn:V.
  2:{ unfold create_directory in H. rewrite Hs, V in H. discriminate. }
  split; [reflexivity|].
  destruct (_get_node_at_path (or_dot d) false s) as [[[l|]|e] s1] eqn:R;
    pose proof (get_node_pure _ _ _ _ R); subst s1.
  - destruct (get_at (root s) l) as [[nm cr md content|]|] eqn:G.
    + rewrite (create_directory_cases _ _ _ _ _ _ _ _ _ Hs V R G) in H.
      destruct (Dict.mem b content) eqn:M; [discriminate|]. inversion H.
      exists l, nm, cr, md, content. conjs; auto. now apply mem_false_lookup.
    + unfold create_directory in H. rewrite Hs, V in H. cbn [negb] in H.
      unfold bind at 1 in H. rewrite R in H. unfold bind at 1, self at 1 in H.
      unfold dir_content in H. rewrite G in H. discriminate.
    + unfold create_directory in H. rewrite Hs, V in H. cbn [negb] in H.
      unfold bind at 1 in H. rewrite R in H. unfold bind at 1, self at 1 in H.
      unfold dir_content in H. rewrite G in H. discriminate.
  - unfold create_directory in H. rewrite Hs, V in H. cbn [negb] in H.
    unfold bind at 1 in H. rewrite R in H. discriminate.
  - unfold create_directory in H. rewrite Hs, V in H. cbn [negb] in H.
    unfold bind at 1 in H. rewrite R in H. discriminate.
Qed.

Lemma made_content (l : loc) (b : string) (s : FileSystem)
    (nm : string) (cr md : time) (content : list (string * node)) :
  get_at (root s) l = Some (Dir nm cr md content) ->
  Dict.lookup b content = None ->
  get_at (root (made l b s)) l
  = Some (Dir nm cr (clock (S (S (ticks s))))
            (content ++ [(b, Dir b (clock (ticks s)) (clock (S (ticks s))) [])])).
Proof.
  intros G N. unfold made; cbn [root].
  rewrite (get_at_update_same _ l _ _ (get_at_update_same _ l _ _ G)).
  cbn [set_child set_modified]. now rewrite (set_absent _ _ _ _ N).
Qed.

(** X7.  A [create_directory] that returns [True], at a path cut at a
    separator: the directory of the path has the new, empty directory as
    its last entry and its other entries as before, the space in use is
    the same, the path resolves to the new directory, and a second
    [create_directory] of the path returns [False]. *)
Lemma create_directory_creates (path d b : string) (s s' : FileSystem) :
  wf_cp s ->
  os_path_split path = (d, b) ->
  coherent path d b ->
  create_directory path s = (Return true, s') ->
  exists l content t1 t2,
    dir_content s (Some l) = Some content
    /\ Dict.lookup b content = None
    /\ dir_content s' (Some l) = Some (content ++ [(b, Dir b t1 t2 [])])
    /\ _get_node_at_path path false s' = (Return (Some (l ++ [b])), s')
    /\ get_at (root s') (l ++ [b]) = Some (Dir b t1 t2 [])
    /\ _calculate_used_space (root s') = _calculate_used_space (root s)
    /\ create_directory path s' = (Return false, s').
Proof.
  intros W Hs C H.
  destruct (create_directory_success _ _ _ _ _ Hs H)
    as (V & l & nm & cr & md & content & R & G & N & ->).
  pose proof (made_content l b s nm cr md content G N) as G'.
  assert (E : get_at (root (made l b s)) l <> None) by congruence.
  destruct (coherent_resolve path d b s (made l b s) l W V C R eq_refl E) as [R1 R2].
  assert (GB : get_at (root (made l b s)) (l ++ [b])
               = Some (Dir b (clock (ticks s)) (clock (S (ticks s))) [])).
  { rewrite get_at_app, G'. cbn [get_at]. rewrite lookup_appended, N.
    now rewrite String.eqb_refl. }
  exists l, content, (clock (ticks s)), (clock (S (ticks s))).
  unfold dir_content. rewrite G, G'. conjs; auto.
  - now rewrite R2, GB.
  - unfold made; cbn [root].
    rewrite (used_update_at _ l _ _ (get_at_update_same _ l _ _ G)), used_set_modified.
    rewrite (used_update_at _ l _ _ G). cbn [set_child]. rewrite !used_dir, sum_used_set, N.
    cbn [used_opt]. change (_calculate_used_space (Dir b _ _ [])) with 0%Z. lia.
  - rewrite (create_directory_cases _ _ _ _ _ _ _ _ _ Hs V R1 G').
    assert (M : Dict.mem b (content ++ [(b, Dir b (clock (ticks s)) (clock (S (ticks s))) [])])
                = true).
    { apply mem_lookup. rewrite lookup_appended, N, String.eqb_refl. eauto. }
    now rewrite M.
Qed.

(** [remove_directory] of an empty directory, after the resolution of its
    parent directory. *)
Lemma remove_directory_cases (path d b : string) (s : FileSystem) (l : loc)
    (nm : string) (cr md : time) (content : list (string * node))
    (dn : string) (dc dm : time) :
  os_path_split path = (d, b) ->
  _get_node_at_path (or_dot d) false s = (Return (Some l), s) ->
  get_at (root s) l = Some (Dir nm cr md content) ->
  Dict.lookup b content = Some (Dir dn dc dm []) ->
  remove_directory path s = (Return true, unlinked l b s).
Proof.
  intros Hs Hp Hd Hb. unfold remove_directory. rewrite Hs.
  unfold bind at 1. rewrite Hp. unfold bind at 1, self at 1.
  unfold dir_content. rewrite Hd, Hb. reflexivity.
Qed.

(** X8.  After a [create_directory] that returns [True], at a path cut at
    a separator, [remove_directory] of the same path returns [True] and
    gives the tree back as it was, but for the modification time of the
    directory of the path. *)
Lemma create_then_remove (path d b : string) (s s1 : FileSystem) :
  wf_cp s ->
  os_path_split path = (d, b) ->
  coherent path d b ->
  create_directory path s = (Return true, s1) ->
  exists l t s2,
    _get_node_at_path (or_dot d) false s = (Return (Some l), s)
    /\ remove_directory path s1 = (Return true, s2)
    /\ root s2 = update_at (set_modified t) l (root s)
    /\ dir_content s2 (Some l) = dir_content s (Some l)
    /\ current_path s2 = current_path s.
Proof.
  intros W Hs C H.
  destruct (create_directory_success _ _ _ _ _ Hs H)
    as (V & l & nm & cr & md & content & R & G & N & ->).
  pose proof (made_content l b s nm cr md content G N) as G'.
  assert (E : get_at (root (made l b s)) l <> None) by congruence.
  destruct (coherent_resolve path d b s (made l b s) l W V C R eq_refl E) as [R1 _].
  assert (Hb : Dict.lookup b (content ++ [(b, Dir b (clock (ticks s)) (clock (S (ticks s))) [])])
               = Some (Dir b (clock (ticks s)) (clock (S (ticks s))) [])).
  { now rewrite lookup_appended, N, String.eqb_refl. }
  exists l, (clock (S (S (S (ticks s))))), (unlinked l b (made l b s)).
  assert (T : root (unlinked l b (made l b s))
              = update_at (set_modified (clock (S (S (S (ticks s)))))) l (root s)).
  { unfold unlinked, made; cbn [root ticks]. rewrite !update_at_compose.
    apply (update_at_ext _ _ l _ _ G). cbn [set_child set_modified del_child].
    now rewrite (set_absent _ _ _ _ N), (remove_appended _ _ _ _ N). }
  conjs; auto.
  - exact (remove_directory_cases _ _ _ _ _ _ _ _ _ _ _ _ Hs R1 G' Hb).
  - unfold dir_content. rewrite T, (get_at_update_same _ l _ _ G), G. reflexivity.
Qed.

(** ** Well-formed trees and the capacity of the disk *)

Lemma tree_ok_dir (nm : string) (cr md : time) (content : list (string * node)) :
  tree_ok (Dir nm cr md content)
  <-> NoDup (map fst content) /\ Forall (fun item => tree_ok (snd item)) content.
Proof.
  cbn [tree_ok]. split; intros [N A]; (split; [exact N|]); clear N.
  - induction content as [|[k v] c IH]; constructor; [apply A|apply IH, A].
  - induction content as [|[k v] c IH]; [exact I|].
    inversion A; subst. split; [assumption|now apply IH].
Qed.

Lemma node_induction (P : node -> Prop) :
  (forall nm cr md sz c, P (File nm cr md sz c)) ->
  (forall nm cr md content,
      Forall (fun item => P (snd item)) content -> P (Dir nm cr md content)) ->
  forall n, P n.
Proof.
  intros HF HD. fix IH 1. intros [nm cr md content|nm cr md sz c]; [|apply HF].
  apply HD. induction content as [|[k v] content IHc]; constructor; [apply IH|exact IHc].
Qed.

Lemma used_nonneg (n : node) : tree_ok n -> (0 <= _calculate_used_space n)%Z.
Proof.
  induction n as [nm cr md sz c|nm cr md content IH] using node_induction; intros H.
  - exact H.
  - apply tree_ok_dir in H. destruct H as [_ H]. rewrite used_dir.
    induction content as [|[k v] content IHc]; [reflexivity|].
    inversion IH; subst. inversion H; subst. rewrite sum_used_cons. cbn [snd] in *.
    specialize (IHc H3 H5). specialize (H2 H4). lia.
Qed.

Lemma lookup_in (A : Type) (k : string) (v : A) (d : list (string * A)) :
  Dict.lookup k d = Some v -> In (k, v) d.
Proof.
  induction d as [|[k' v'] d IH]; simpl; [discriminate|].
  destruct (String.eqb_spec k' k) as [->|_].
  - intros H; inversion H; auto.
  - auto.
Qed.

Lemma lookup_ok (k : string) (v : node) (content : list (string * node)) :
  Forall (fun item => tree_ok (snd item)) content ->
  Dict.lookup k content = Some v -> tree_ok v.
Proof.
  intros F H. apply lookup_in in H. rewrite Forall_forall in F. exact (F _ H).
Qed.

Lemma get_at_ok (m : loc) :
  forall r x, tree_ok r -> get_at r m = Some x -> tree_ok x.
Proof.
  induction m as [|k m IH]; intros r x H G.
  - inversion G; now subst.
  - destruct r as [nm cr md content|]; [|discriminate]. cbn [get_at] in G.
    destruct (Dict.lookup k content) as [c|] eqn:L; [|discriminate].
    apply tree_ok_dir in H. destruct H as [_ F]. exact (IH _ _ (lookup_ok _ _ _ F L) G).
Qed.

Lemma keys_modify (A : Type) (k : string) (f : A -> A) (d : list (string * A)) :
  map fst (Dict.modify k f d) = map fst d.
Proof.
  induction d as [|[k' v'] d IH]; simpl; [reflexivity|].
  destruct (String.eqb k' k); simpl; [reflexivity|now rewrite IH].
Qed.

Lemma tree_ok_update (f : node -> node) (l : loc) :
  forall r, tree_ok r ->
    (forall x, get_at r l = Some x -> tree_ok (f x)) ->
    tree_ok (update_at f l r).
Proof.
  induction l as [|k l IH]; intros r H Hf; [now apply Hf|].
  destruct r as [nm cr md content|]; [|exact H]. cbn [update_at].
  apply tree_ok_dir in H. destruct H as [N F]. apply tree_ok_dir.
  rewrite keys_modify. split; [exact N|]. clear N. cbn [get_at] in Hf.
  induction content as [|[k' v'] content IHc]; [constructor|].
  inversion F; subst. cbn [Dict.modify Dict.lookup] in *.
  destruct (String.eqb k' k).
  - constructor; [|assumption]. cbn [snd] in *. now apply IH.
  - constructor; [assumption|]. now apply IHc.
Qed.

Lemma lookup_none_keys (A : Type) (k : string) (d : list (string * A)) :
  Dict.lookup k d = None <-> ~ In k (map fst d).
Proof.
  induction d as [|[k' v'] d IH]; simpl.
  - split; [intros _ []|reflexivity].
  - destruct (String.eqb_spec k' k) as [->|N].
    + split; [discriminate|]. intros H; exfalso; auto.
    + rewrite IH. split.
      * intros H [E|E]; [exact (N E)|exact (H E)].
      * intros H E. apply H. now right.
Qed.

Lemma keys_set (A : Type) (k : string) (v : A) (d : list (string * A)) :
  map fst (Dict.set k v d)
  = match Dict.lookup k d with Some _ => map fst d | None => map fst d ++ [k] end.
Proof.
  induction d as [|[k' v'] d IH]; simpl; [reflexivity|].
  destruct (String.eqb k' k); simpl; [reflexivity|].
  rewrite IH. now destruct (Dict.lookup k d).
Qed.

Lemma nodup_snoc (k : string) (ks : list string) :
  NoDup ks -> ~ In k ks -> NoDup (ks ++ [k]).
Proof.
  intros N I. induction N as [|x ks Hx N IH]; simpl.
  - constructor; [intros []|constructor].
  - constructor.
    + rewrite in_app_iff. simpl. intros [H|[H|[]]]; [exact (Hx H)|].
      subst. apply I; now left.
    + apply IH. intros H; apply I; now right.
Qed.

Lemma set_ok (k : string) (v : node) (nm : string) (cr md : time)
    (content : list (string * node)) :
  tree_ok (Dir nm cr md content) -> tree_ok v -> tree_ok (Dir nm cr md (Dict.set k v content)).
Proof.
  intros H Hv. apply tree_ok_dir in H. destruct H as [N F]. apply tree_ok_dir. split.
  - rewrite keys_set. destruct (Dict.lookup k content) eqn:L; [exact N|].
    apply nodup_snoc; [exact N|]. now apply lookup_none_keys.
  - clear N. induction content as [|[k' v'] content IH]; cbn [Dict.set].
    + repeat constructor. exact Hv.
    + inversion F; subst. destruct (String.eqb k' k); constructor; auto.
Qed.

Lemma remove_in (A : Type) (k : string) (d : list (string * A)) (x : string * A) :
  In x (Dict.remove k d) -> In x d.
Proof.
  induction d as [|[k' v'] d IH]; simpl; [auto|].
  destruct (String.eqb k' k); simpl; [auto|]. intros [H|H]; auto.
Qed.

Lemma keys_remove_in (A : Type) (k x : string) (d : list (string * A)) :
  In x (map fst (Dict.remove k d)) -> In x (map fst d).
Proof.
  induction d as [|[k' v'] d IH]; simpl; [auto|].
  destruct (String.eqb k' k); simpl; [auto|]. intros [H|H]; auto.
Qed.

Lemma nodup_remove (A : Type) (k : string) (d : list (string * A)) :
  NoDup (map fst d) -> NoDup (map fst (Dict.remove k d)).
Proof.
  induction d as [|[k' v'] d IH]; simpl; [auto|]. intros N. inversion N; subst.
  destruct (String.eqb k' k); [assumption|]. simpl. constructor; [|auto].
  intros H. now apply keys_remove_in in H.
Qed.

Lemma remove_ok (k : string) (nm : string) (cr md : time) (content : list (string * node)) :
  tree_ok (Dir nm cr md content) -> tree_ok (Dir nm cr md (Dict.remove k content)).
Proof.
  intros H. apply tree_ok_dir in H. destruct H as [N F]. apply tree_ok_dir. split.
  - now apply nodup_remove.
  - rewrite Forall_forall in *. intros x Hx. apply F. now apply remove_in in Hx.
Qed.

(** In a dictionary the key deleted is gone. *)
Lemma lookup_remove_same (A : Type) (k : string) (d : list (string * A)) :
  NoDup (map fst d) -> Dict.lookup k (Dict.remove k d) = None.
Proof.
  induction d as [|[k' v'] d IH]; simpl; [auto|]. intros N. inversion N; subst.
  destruct (String.eqb_spec k' k) as [->|Nk].
  - now apply lookup_none_keys.
  - simpl. destruct (String.eqb_spec k' k); [congruence|]. auto.
Qed.

Lemma lookup_remove_other (A : Type) (k k' : string) (d : list (string * A)) :
  k' <> k -> Dict.lookup k' (Dict.remove k d) = Dict.lookup k' d.
Proof.
  intros N. induction d as [|[k0 v0] d IH]; simpl; [reflexivity|].
  destruct (String.eqb_spec k0 k) as [->|N0].
  - destruct (String.eqb_spec k k'); [congruence|reflexivity].
  - simpl. destruct (String.eqb k0 k'); [reflexivity|exact IH].
Qed.

Lemma set_modified_ok (t : time) (n : node) : tree_ok n -> tree_ok (set_modified t n).
Proof. destruct n; auto. Qed.

Lemma set_name_ok (k : string) (n : node) : tree_ok n -> tree_ok (set_name k n).
Proof. destruct n; auto. Qed.

Lemma set_child_ok (k : string) (v n : node) : tree_ok n -> tree_ok v -> tree_ok (set_child k v n).
Proof. destruct n; [apply set_ok|auto]. Qed.

Lemma del_child_ok (k : string) (n : node) : tree_ok n -> tree_ok (del_child k n).
Proof. destruct n; [apply remove_ok|auto]. Qed.

Lemma written_ok (b : string) (t : time) (content : string) (old : option node) :
  tree_ok (written b t content old).
Proof.
  destruct (written_is_file b t content old) as (nm & cr & ->). cbn [tree_ok].
  unfold PyStr.len. lia.
Qed.

Lemma empty_dir_ok (k : string) (a b : time) : tree_ok (Dir k a b []).
Proof. cbn. split; [constructor|exact I]. Qed.

(** The resolution of a path, whatever it creates, keeps the tree well
    formed. *)
Lemma walk_ok (c : bool) (parts : list string) :
  forall (cur : option loc) (s s' : FileSystem) (r : outcome (option loc)),
    tree_ok (root s) -> walk c parts cur s = (r, s') -> tree_ok (root s').
Proof.
  induction parts as [|part rest IH]; intros cur s s' r H W.
  - inversion W; now subst.
  - cbn [walk] in W. destruct (String.eqb part ""); [exact (IH _ _ _ _ H W)|].
    destruct cur as [l|]; [|inversion W; now subst].
    destruct (get_at (root s) l) as [[nm cr md content|]|] eqn:G;
      try (inversion W; now subst).
    destruct (Dict.mem part content); [exact (IH _ _ _ _ H W)|].
    destruct (c && negb (Nat.eqb (List.length rest) 0)); [|inversion W; now subst].
    unfold bind, time_time, mutate in W. cbn [root ticks with_root] in W.
    refine (IH _ _ _ _ _ W). cbn [root with_root].
    apply tree_ok_update; [exact H|]. intros x Hx.
    apply set_child_ok; [exact (get_at_ok _ _ _ H Hx)|apply empty_dir_ok].
Qed.

Lemma rec_ok (depth : nat) (path : string) (c : bool) (s s' : FileSystem)
    (r : outcome (option loc)) :
  tree_ok (root s) -> _get_node_at_path_rec depth path c s = (r, s') -> tree_ok (root s').
Proof.
  intros H R. destruct depth as [|d]; [inversion R; now subst|].
  cbn [_get_node_at_path_rec] in R.
  destruct (String.eqb path "" || String.eqb path "C:" || String.eqb path "C:\");
    [inversion R; now subst|].
  destruct (parse_path path) as [|p0 rest]; [inversion R; now subst|].
  destruct (String.eqb p0 "C:"); [exact (walk_ok _ _ _ _ _ _ H R)|].
  unfold bind at 1, self at 1 in R. unfold bind at 1 in R.
  destruct (_get_node_at_path_rec d _ false s) as [[cur|e] s1] eqn:E1;
    apply rec_pure in E1; subst s1; [|inversion R; now subst].
  unfold bind at 1 in R.
  destruct (String.eqb p0 "..").
  - destruct (1 <? List.length (current_path s))%nat.
    + unfold bind at 1 in R.
      destruct (_get_node_at_path_rec d _ false s) as [[c2|e] s2] eqn:E2;
        apply rec_pure in E2; subst s2; [|inversion R; now subst].
      unfold ret in R. exact (walk_ok _ _ _ _ _ _ H R).
    + unfold ret in R. exact (walk_ok _ _ _ _ _ _ H R).
  - unfold ret in R. exact (walk_ok _ _ _ _ _ _ H R).
Qed.

Lemma get_node_space (path : string) (c : bool) (s s' : FileSystem)
    (r : outcome (option loc)) :
  space_ok s -> _get_node_at_path path c s = (r, s') -> space_ok s'.
Proof.
  intros [H U] R. split; [exact (rec_ok _ _ _ _ _ _ H R)|].
  destruct (get_node_inv _ _ _ _ _ R) as ((_ & P2 & _ & P4 & _) & _). now rewrite P2, P4.
Qed.

(** ** What the methods leave when they succeed *)

Ltac stays H N :=
  unfold bind, self, ret, mutate, time_time, dir_content in H;
  repeat match type of H with
         | context [match ?x with _ => _ end] => destruct x eqn:?
         end;
  inversion H; subst; try reflexivity; now elim N.

Lemma create_directory_stays (path : string) (s s' : FileSystem) (o : outcome bool) :
  create_directory path s = (o, s') -> o <> Return true -> s' = s.
Proof.
  unfold create_directory. destruct (os_path_split path) as [d b].
  destruct (is_valid_filename b); cbn [negb]; [|now inversion 1].
  unfold bind at 1.
  destruct (_get_node_at_path (or_dot d) false s) as [[r|e] s1] eqn:E;
    pose proof (get_node_pure _ _ _ _ E); subst s1; [|now inversion 1].
  intros H N. stays H N.
Qed.

Lemma remove_directory_stays (path : string) (s s' : FileSystem) (o : outcome bool) :
  remove_directory path s = (o, s') -> o <> Return true -> s' = s.
Proof.
  unfold remove_directory. destruct (os_path_split path) as [d b].
  unfold bind at 1.
  destruct (_get_node_at_path (or_dot d) false s) as [[r|e] s1] eqn:E;
    pose proof (get_node_pure _ _ _ _ E); subst s1; [|now inversion 1].
  intros H N. stays H N.
Qed.

Lemma delete_file_stays (path : string) (s s' : FileSystem) (o : outcome bool) :
  delete_file path s = (o, s') -> o <> Return true -> s' = s.
Proof.
  unfold delete_file. destruct (os_path_split path) as [d b].
  unfold bind at 1.
  destruct (_get_node_at_path (or_dot d) false s) as [[r|e] s1] eqn:E;
    pose proof (get_node_pure _ _ _ _ E); subst s1; [|now inversion 1].
  intros H N. stays H N.
Qed.

Lemma rename_file_stays (oldpath newname : string) (s s' : FileSystem) (o : outcome bool) :
  rename_file oldpath newname s = (o, s') -> o <> Return true -> s' = s.
Proof.
  unfold rename_file. destruct (os_path_split oldpath) as [d b].
  destruct (is_valid_filename newname); cbn [negb]; [|now inversion 1].
  unfold bind at 1.
  destruct (_get_node_at_path (or_dot d) false s) as [[r|e] s1] eqn:E;
    pose proof (get_node_pure _ _ _ _ E); subst s1; [|now inversion 1].
  intros H N. stays H N.
Qed.

(** X6.  The methods that answer [False] for a failure have then changed
    nothing: neither the tree, nor the current path, nor the clock. *)
Lemma false_leaves_unchanged :
  (forall path s s', change_directory path s = (Return false, s') -> s' = s)
  /\ (forall path s s', create_directory path s = (Return false, s') -> s' = s)
  /\ (forall path s s', remove_directory path s = (Return false, s') -> s' = s)
  /\ (forall path s s', delete_file path s = (Return false, s') -> s' = s)
  /\ (forall oldpath newname s s',
        rename_file oldpath newname s = (Return false, s') -> s' = s).
Proof.
  conjs.
  - apply change_directory_false.
  - intros path s s' H. apply (create_directory_stays _ _ _ _ H). discriminate.
  - intros path s s' H. apply (remove_directory_stays _ _ _ _ H). discriminate.
  - intros path s s' H. apply (delete_file_stays _ _ _ _ H). discriminate.
  - intros oldpath newname s s' H. apply (rename_file_stays _ _ _ _ _ H). discriminate.
Qed.

Lemma remove_directory_success (path d b : string) (s s' : FileSystem) :
  os_path_split path = (d, b) ->
  remove_directory path s = (Return true, s') ->
  exists l nm cr md content dn dc dm,
    _get_node_at_path (or_dot d) false s = (Return (Some l), s)
    /\ get_at (root s) l = Some (Dir nm cr md content)
    /\ Dict.lookup b content = Some (Dir dn dc dm [])
    /\ s' = unlinked l b s.
Proof.
  intros Hs H. unfold remove_directory in H. rewrite Hs in H. unfold bind at 1 in H.
  destruct (_get_node_at_path (or_dot d) false s) as [[r|e] s1] eqn:R;
    pose proof (get_node_pure _ _ _ _ R); subst s1; [|discriminate].
  unfold bind at 1, self at 1 in H. destruct r as [l|]; [|discriminate].
  unfold dir_content in H.
  destruct (get_at (root s) l) as [[nm cr md content|]|] eqn:G; try discriminate.
  destruct (Dict.lookup b content) as [[dn dc dm [|x xs]|]|] eqn:L; try discriminate.
  inversion H. exists l, nm, cr, md, content, dn, dc, dm. auto.
Qed.

Lemma delete_file_success (path d b : string) (s s' : FileSystem) :
  os_path_split path = (d, b) ->
  delete_file path s = (Return true, s') ->
  exists l nm cr md content fn fc fm sz c,
    _get_node_at_path (or_dot d) false s = (Return (Some l), s)
    /\ get_at (root s) l = Some (Dir nm cr md content)
    /\ Dict.lookup b content = Some (File fn fc fm sz c)
    /\ s' = unlinked l b s.
Proof.
  intros Hs H. unfold delete_file in H. rewrite Hs in H. unfold bind at 1 in H.
  destruct (_get_node_at_path (or_dot d) false s) as [[r|e] s1] eqn:R;
    pose proof (get_node_pure _ _ _ _ R); subst s1; [|discriminate].
  unfold bind at 1, self at 1 in H. destruct r as [l|]; [|discriminate].
  unfold dir_content in H.
  destruct (get_at (root s) l) as [[nm cr md content|]|] eqn:G; try discriminate.
  destruct (Dict.lookup b content) as [[|fn fc fm sz c]|] eqn:L; try discriminate.
  inversion H. exists l, nm, cr, md, content, fn, fc, fm, sz, c. auto.
Qed.

Lemma rename_file_success (oldpath newname d b : string) (s s' : FileSystem) :
  os_path_split oldpath = (d, b) ->
  rename_file oldpath newname s = (Return true, s') ->
  is_valid_filename newname = true
  /\ exists l nm cr md content n,
       _get_node_at_path (or_dot d) false s = (Return (Some l), s)
       /\ get_at (root s) l = Some (Dir nm cr md content)
       /\ Dict.lookup b content = Some n
       /\ Dict.lookup newname content = None
       /\ s' = renamed l b newname n s.
Proof.
  intros Hs H. unfold rename_file in H. rewrite Hs in H.
  destruct (is_valid_filename newname); cbn [negb] in H; [|discriminate].
  split; [reflexivity|]. unfold bind at 1 in H.
  destruct (_get_node_at_path (or_dot d) false s) as [[r|e] s1] eqn:R;
    pose proof (get_node_pure _ _ _ _ R); subst s1; [|discriminate].
  unfold bind at 1, self at 1 in H. destruct r as [l|]; [|discriminate].
  unfold dir_content in H.
  destruct (get_at (root s) l) as [[nm cr md content|]|] eqn:G; try discriminate.
  destruct (Dict.lookup b content) as [n|] eqn:L; [|discriminate].
  destruct (Dict.mem newname content) eqn:M; [discriminate|].
  inversion H. exists l, nm, cr, md, content, n. conjs; auto.
  now apply mem_false_lookup.
Qed.

Lemma unlinked_content (l : loc) (b : string) (s : FileSystem)
    (nm : string) (cr md : time) (content : list (string * node)) :
  get_at (root s) l = Some (Dir nm cr md content) ->
  get_at (root (unlinked l b s)) l
  = Some (Dir nm cr (clock (ticks s)) (Dict.remove b content)).
Proof.
  intros G. unfold unlinked; cbn [root].
  now rewrite (get_at_update_same _ l _ _ (get_at_update_same _ l _ _ G)).
Qed.

Lemma unlinked_used (l : loc) (b : string) (s : FileSystem)
    (nm : string) (cr md : time) (content : list (string * node)) :
  get_at (root s) l = Some (Dir nm cr md content) ->
  _calculate_used_space (root (unlinked l b s))
  = (_calculate_used_space (root s) - used_opt (Dict.lookup b content))%Z.
Proof.
  intros G. unfold unlinked; cbn [root].
  rewrite (used_update_at _ l _ _ (get_at_update_same _ l _ _ G)), used_set_modified.
  rewrite (used_update_at _ l _ _ G). cbn [del_child]. rewrite !used_dir, sum_used_remove. lia.
Qed.

Lemma renamed_content (l : loc) (b newname : string) (n : node) (s : FileSystem)
    (nm : string) (cr md : time) (content : list (string * node)) :
  get_at (root s) l = Some (Dir nm cr md content) ->
  Dict.lookup newname content = None ->
  get_at (root (renamed l b newname n s)) l
  = Some (Dir nm cr (clock (ticks s))
            (Dict.remove b (content ++ [(newname, set_name newname n)]))).
Proof.
  intros G N. unfold renamed; cbn [root].
  rewrite (get_at_update_same _ l _ _
             (get_at_update_same _ l _ _ (get_at_update_same _ l _ _ G))).
  cbn [set_child del_child set_modified]. now rewrite (set_absent _ _ _ _ N).
Qed.

Lemma used_set_name (k : string) (n : node) :
  _calculate_used_space (set_name k n) = _calculate_used_space n.
Proof. destruct n; reflexivity. Qed.

Lemma sum_used_app (a b : list (string * node)) :
  sum_used (a ++ b) = (sum_used a + sum_used b)%Z.
Proof.
  induction a as [|i a IH]; [unfold sum_used at 2; simpl; lia|].
  cbn [app]. rewrite !sum_used_cons, IH. lia.
Qed.

Lemma renamed_used (l : loc) (b newname : string) (n : node) (s : FileSystem)
    (nm : string) (cr md : time) (content : list (string * node)) :
  get_at (root s) l = Some (Dir nm cr md content) ->
  Dict.lookup b content = Some n ->
  Dict.lookup newname content = None ->
  _calculate_used_space (root (renamed l b newname n s)) = _calculate_used_space (root s).
Proof.
  intros G Lb N.
  pose proof (renamed_content l b newname n s nm cr md content G N) as G'.
  assert (E : root (renamed l b newname n s)
              = update_at (fun x => set_modified (clock (ticks s))
                                      (del_child b (set_child newname (set_name newname n) x)))
                  l (root s)).
  { unfold renamed; cbn [root]. now rewrite !update_at_compose. }
  rewrite E, (used_update_at _ l _ _ G), used_set_modified. cbn [set_child del_child].
  rewrite !used_dir, sum_used_remove, (set_absent _ _ _ _ N), sum_used_app, lookup_appended, Lb.
  rewrite sum_used_cons. cbn [snd used_opt]. rewrite used_set_name.
  change (sum_used []) with 0%Z. lia.
Qed.

(** X9.  A [delete_file] that returns [True] has found a file under the
    last part of the path in the directory of the path: the entry is
    deleted, the other entries stay in their order, and the space in use
    goes down by the size of the file.  At a path cut at a separator whose
    last part is a valid name, the path then resolves to nothing and
    [read_file] returns [None]. *)
Lemma delete_file_deletes (path d b : string) (s s' : FileSystem) :
  wf_cp s ->
  tree_ok (root s) ->
  os_path_split path = (d, b) ->
  delete_file path s = (Return true, s') ->
  exists l content fn fc fm sz c,
    dir_content s (Some l) = Some content
    /\ Dict.lookup b content = Some (File fn fc fm sz c)
    /\ dir_content s' (Some l) = Some (Dict.remove b content)
    /\ Dict.lookup b (Dict.remove b content) = None
    /\ _calculate_used_space (root s') = (_calculate_used_space (root s) - sz)%Z
    /\ (is_valid_filename b = true -> coherent path d b ->
        _get_node_at_path path false s' = (Return None, s')
        /\ read_file path s' = (Return None, s')).
Proof.
  intros W T Hs H.
  destruct (delete_file_success _ _ _ _ _ Hs H)
    as (l & nm & cr & md & content & fn & fc & fm & sz & c & R & G & L & ->).
  pose proof (unlinked_content l b s nm cr md content G) as G'.
  pose proof (get_at_ok _ _ _ T G) as Td. apply tree_ok_dir in Td. destruct Td as [N _].
  pose proof (lookup_remove_same _ b content N) as Lr.
  exists l, content, fn, fc, fm, sz, c. unfold dir_content. rewrite G, G'. conjs; auto.
  - now rewrite (unlinked_used _ _ _ _ _ _ _ G), L.
  - intros V C.
    assert (E : get_at (root (unlinked l b s)) l <> None) by congruence.
    destruct (coherent_resolve path d b s (unlinked l b s) l W V C R eq_refl E) as [_ R2].
    assert (GB : get_at (root (unlinked l b s)) (l ++ [b]) = None).
    { rewrite get_at_app, G'. cbn [get_at]. now rewrite Lr. }
    rewrite GB in R2. split; [exact R2|].
    unfold read_file, bind at 1. now rewrite R2.
Qed.

(** X10.  A [rename_file] that returns [True] has found an entry under
    the last part of the path and none under the new name, which is a
    valid name: the entry, file or directory, goes to the end of the
    directory under the new name, with its name changed and all else as
    it was; the old name is free, and the space in use is the same. *)
Lemma rename_file_renames (oldpath newname d b : string) (s s' : FileSystem) :
  tree_ok (root s) ->
  os_path_split oldpath = (d, b) ->
  rename_file oldpath newname s = (Return true, s') ->
  is_valid_filename newname = true
  /\ exists l content n,
       dir_content s (Some l) = Some content
       /\ Dict.lookup b content = Some n
       /\ Dict.lookup newname content = None
       /\ dir_content s' (Some l)
          = Some (Dict.remove b content ++ [(newname, set_name newname n)])
       /\ get_at (root s') (l ++ [newname]) = Some (set_name newname n)
       /\ get_at (root s') (l ++ [b]) = None
       /\ _calculate_used_space (root s') = _calculate_used_space (root s).
Proof.
  intros T Hs H.
  destruct (rename_file_success _ _ _ _ _ _ Hs H)
    as (V & l & nm & cr & md & content & n & R & G & L & N & ->).
  split; [exact V|].
  pose proof (renamed_content l b newname n s nm cr md content G N) as G'.
  pose proof (get_at_ok _ _ _ T G) as Td. apply tree_ok_dir in Td. destruct Td as [ND _].
  assert (Nb : newname <> b) by (intros ->; congruence).
  assert (E : Dict.remove b (content ++ [(newname, set_name newname n)])
              = Dict.remove b content ++ [(newname, set_name newname n)]).
  { clear G G' R ND. induction content as [|[k v] content IH]; cbn [app Dict.remove].
    - destruct (String.eqb_spec newname b); [congruence|reflexivity].
    - cbn [Dict.lookup] in L, N. destruct (String.eqb k b) eqn:Kb.
      + reflexivity.
      + destruct (String.eqb k newname); [discriminate|]. cbn [app]. f_equal. now apply IH. }
  rewrite E in G'.
  exists l, content, n. unfold dir_content. rewrite G, G'. conjs; auto.
  - rewrite get_at_app, G'. cbn [get_at].
    rewrite lookup_appended, (lookup_remove_other _ _ _ _ Nb), N.
    now rewrite String.eqb_refl.
  - rewrite get_at_app, G'. cbn [get_at].
    rewrite lookup_appended, (lookup_remove_same _ _ _ ND).
    destruct (String.eqb_spec newname b); [congruence|reflexivity].
  - exact (renamed_used _ _ _ _ _ _ _ _ _ G L N).
Qed.

(** X11.  A [copy_file] that returns [True], to a destination cut at a
    separator: the source was a file, and [read_file] of the destination
    returns what [read_file] of the source returned. *)
Lemma copy_file_copies (source destination d b : string) (s s' : FileSystem) :
  wf_cp s ->
  os_path_split destination = (d, b) ->
  coherent destination d b ->
  copy_file source destination s = (Return true, s') ->
  exists c,
    read_file source s = (Return (Some c), s)
    /\ write_file destination c s = (Return true, s')
    /\ read_file destination s' = (Return (Some c), s').
Proof.
  intros W Hs C H. unfold copy_file, bind at 1 in H.
  destruct (read_file source s) as [[[c|]|e] s1] eqn:R; try discriminate.
  assert (s1 = s) as ->.
  { unfold read_file, bind at 1 in R.
    destruct (_get_node_at_path source false s) as [[r|e] s2] eqn:E;
      pose proof (get_node_pure _ _ _ _ E); subst s2; [|discriminate].
    unfold bind, self, ret in R.
    destruct r as [l|]; [destruct (get_at (root s) l) as [[|]|]|]; now inversion R. }
  destruct (write_file destination c s) as [[t|e] s2] eqn:Wr; [|discriminate].
  inversion H; subst s2.
  assert (t = true) as ->.
  { destruct t; [reflexivity|]. unfold write_file in Wr. rewrite Hs in Wr.
    destruct (is_valid_filename b); cbn [negb] in Wr; [|discriminate].
    unfold bind at 1 in Wr.
    destruct (_get_node_at_path (or_dot d) true s) as [[r|e] s2]; [|discriminate].
    unfold bind, self, ret, raise, get_free_space, mutate, time_time in Wr.
    destruct r as [l|]; [|discriminate].
    destruct (dir_content s2 (Some l)); [|discriminate].
    destruct (_ <? _)%Z; discriminate. }
  exists c. conjs; auto.
  destruct (write_then_read_coherent _ _ _ _ _ _ W Hs C Wr) as (l & nm & cr & md & _ & _ & Rd).
  exact Rd.
Qed.

(** ** The capacity of the disk *)

Lemma create_directory_space (path : string) (s : FileSystem) :
  space_ok s -> space_ok (snd (create_directory path s)).
Proof.
  intros [T U]. destruct (create_directory path s) as [o s'] eqn:E.
  destruct (os_path_split path) as [d b] eqn:Hs. cbn [snd].
  destruct o as [[|]|e];
    try (rewrite (create_directory_stays _ _ _ _ E); [now split|discriminate]).
  destruct (create_directory_success _ _ _ _ _ Hs E)
    as (V & l & nm & cr & md & content & R & G & N & ->).
  split.
  - unfold made; cbn [root]. apply tree_ok_update.
    + apply tree_ok_update; [exact T|]. intros x Hx.
      apply set_child_ok; [exact (get_at_ok _ _ _ T Hx)|apply empty_dir_ok].
    + intros x Hx. apply set_modified_ok. revert Hx. apply get_at_ok.
      apply tree_ok_update; [exact T|]. intros y Hy.
      apply set_child_ok; [exact (get_at_ok _ _ _ T Hy)|apply empty_dir_ok].
  - unfold made; cbn [root total_space].
    rewrite (used_update_at _ l _ _ (get_at_update_same _ l _ _ G)), used_set_modified.
    rewrite (used_update_at _ l _ _ G). cbn [set_child]. rewrite !used_dir, sum_used_set, N.
    cbn [used_opt]. change (_calculate_used_space (Dir b _ _ [])) with 0%Z. lia.
Qed.

Lemma unlinked_space (l : loc) (b : string) (s : FileSystem)
    (nm : string) (cr md : time) (content : list (string * node)) (v : node) :
  space_ok s ->
  get_at (root s) l = Some (Dir nm cr md content) ->
  Dict.lookup b content = Some v ->
  space_ok (unlinked l b s).
Proof.
  intros [T U] G L. split.
  - unfold unlinked; cbn [root]. apply tree_ok_update.
    + apply tree_ok_update; [exact T|]. intros x Hx.
      apply del_child_ok. exact (get_at_ok _ _ _ T Hx).
    + intros x Hx. apply set_modified_ok. revert Hx. apply get_at_ok.
      apply tree_ok_update; [exact T|]. intros y Hy.
      apply del_child_ok. exact (get_at_ok _ _ _ T Hy).
  - rewrite (unlinked_used _ _ _ _ _ _ _ G), L. cbn [used_opt].
    change (total_space (unlinked l b s)) with (total_space s).
    pose proof (get_at_ok _ _ _ T G) as Td. apply tree_ok_dir in Td. destruct Td as [_ F].
    pose proof (used_nonneg v (lookup_ok _ _ _ F L)). lia.
Qed.

Lemma remove_directory_space (path : string) (s : FileSystem) :
  space_ok s -> space_ok (snd (remove_directory path s)).
Proof.
  intros H. destruct (remove_directory path s) as [o s'] eqn:E.
  destruct (os_path_split path) as [d b] eqn:Hs. cbn [snd].
  destruct o as [[|]|e];
    try (rewrite (remove_directory_stays _ _ _ _ E); [exact H|discriminate]).
  destruct (remove_directory_success _ _ _ _ _ Hs E)
    as (l & nm & cr & md & content & dn & dc & dm & R & G & L & ->).
  exact (unlinked_space _ _ _ _ _ _ _ _ H G L).
Qed.

Lemma delete_file_space (path : string) (s : FileSystem) :
  space_ok s -> space_ok (snd (delete_file path s)).
Proof.
  intros H. destruct (delete_file path s) as [o s'] eqn:E.
  destruct (os_path_split path) as [d b] eqn:Hs. cbn [snd].
  destruct o as [[|]|e];
    try (rewrite (delete_file_stays _ _ _ _ E); [exact H|discriminate]).
  destruct (delete_file_success _ _ _ _ _ Hs E)
    as (l & nm & cr & md & content & fn & fc & fm & sz & c & R & G & L & ->).
  exact (unlinked_space _ _ _ _ _ _ _ _ H G L).
Qed.

Lemma rename_file_space (oldpath newname : string) (s : FileSystem) :
  space_ok s -> space_ok (snd (rename_file oldpath newname s)).
Proof.
  intros [T U]. destruct (rename_file oldpath newname s) as [o s'] eqn:E.
  destruct (os_path_split oldpath) as [d b] eqn:Hs. cbn [snd].
  destruct o as [[|]|e];
    try (rewrite (rename_file_stays _ _ _ _ _ E); [now split|discriminate]).
  destruct (rename_file_success _ _ _ _ _ _ Hs E)
    as (V & l & nm & cr & md & content & n & R & G & L & N & ->).
  split.
  - pose proof (get_at_ok _ _ _ T G) as Td. apply tree_ok_dir in Td. destruct Td as [_ F].
    pose proof (lookup_ok _ _ _ F L) as Tn.
    assert (T1 : tree_ok (update_at (set_child newname (set_name newname n)) l (root s))).
    { apply tree_ok_update; [exact T|]. intros x Hx.
      apply set_child_ok; [exact (get_at_ok _ _ _ T Hx)|now apply set_name_ok]. }
    assert (T2 : tree_ok (update_at (del_child b) l
                            (update_at (set_child newname (set_name newname n)) l (root s)))).
    { apply tree_ok_update; [exact T1|]. intros x Hx.
      apply del_child_ok. exact (get_at_ok _ _ _ T1 Hx). }
    unfold renamed; cbn [root]. apply tree_ok_update; [exact T2|]. intros x Hx.
    apply set_modified_ok. exact (get_at_ok _ _ _ T2 Hx).
  - rewrite (renamed_used _ _ _ _ _ _ _ _ _ G L N). exact U.
Qed.

Lemma write_file_space (path content : string) (s : FileSystem) :
  space_ok s -> space_ok (snd (write_file path content s)).
Proof.
  intros H. unfold write_file. destruct (os_path_split path) as [d b].
  destruct (is_valid_filename b); cbn [negb]; [|exact H].
  unfold bind at 1.
  destruct (_get_node_at_path (or_dot d) true s) as [[r|e] s1] eqn:R;
    pose proof (get_node_space _ _ _ _ _ H R) as [T U]; [|now split].
  unfold bind at 1, self at 1.
  destruct r as [l|]; [|now split]. unfold dir_content.
  destruct (get_at (root s1) l) as [[nm cr md children|]|] eqn:G; try (now split).
  unfold bind at 1, get_free_space at 1.
  cbn [total_space used_space with_used_space root].
  destruct (Z.ltb_spec (total_space s1 - _calculate_used_space (root s1)
                        + existing_size b children) (PyStr.len content)) as [L|L];
    [now split|].
  change (snd _) with (write_result l b content children s1).
  split.
  - unfold write_result; cbn [root].
    assert (T1 : tree_ok (update_at (set_child b (written b (clock (ticks s1)) content
                                                    (Dict.lookup b children))) l (root s1))).
    { apply tree_ok_update; [exact T|]. intros x Hx.
      apply set_child_ok; [exact (get_at_ok _ _ _ T Hx)|apply written_ok]. }
    apply tree_ok_update; [exact T1|]. intros x Hx.
    apply set_modified_ok. exact (get_at_ok _ _ _ T1 Hx).
  - rewrite (used_write_result _ _ _ _ _ _ _ _ G).
    change (total_space (write_result l b content children s1)) with (total_space s1).
    assert (E : (existing_size b children <= used_opt (Dict.lookup b children))%Z).
    { pose proof (get_at_ok _ _ _ T G) as Td. apply tree_ok_dir in Td. destruct Td as [_ F].
      unfold existing_size. destruct (Dict.lookup b children) as [[dn dc dm sub|]|] eqn:Lb;
        cbn [used_opt]; try reflexivity.
      apply used_nonneg. exact (lookup_ok _ _ _ F Lb). }
    lia.
Qed.

Lemma read_file_state (path : string) (s : FileSystem) : snd (read_file path s) = s.
Proof.
  unfold read_file, bind at 1.
  destruct (_get_node_at_path path false s) as [[r|e] s1] eqn:E;
    pose proof (get_node_pure _ _ _ _ E); subst s1; [|reflexivity].
  unfold bind, self, ret.
  destruct r as [l|]; [destruct (get_at (root s) l) as [[|]|]|]; reflexivity.
Qed.

Lemma copy_file_space (source destination : string) (s : FileSystem) :
  space_ok s -> space_ok (snd (copy_file source destination s)).
Proof.
  intros H. unfold copy_file, bind at 1.
  pose proof (read_file_state source s) as R.
  destruct (read_file source s) as [[[c|]|e] s1]; cbn [snd] in R; subst s1; try exact H.
  pose proof (write_file_space destination c s H) as Wr.
  destruct (write_file destination c s) as [[t|e] s2]; exact Wr.
Qed.

Lemma change_directory_root (path : string) (s s' : FileSystem) (o : outcome bool) :
  change_directory path s = (o, s') ->
  root s' = root s /\ total_space s' = total_space s.
Proof.
  unfold change_directory, bind at 1.
  destruct (_get_node_at_path path false s) as [[r|e] s1] eqn:E;
    pose proof (get_node_pure _ _ _ _ E); subst s1; [|now inversion 1].
  unfold bind at 1, self at 1. unfold ret, raise.
  destruct (dir_content s r); [|now inversion 1].
  destruct (String.eqb path ".."); [now inversion 1|].
  destruct (String.eqb path "."); [now inversion 1|].
  destruct (PyStr.startswith "C:" path); [|now inversion 1].
  destruct (parse_path path) as [|p0 rest]; [now inversion 1|].
  destruct (String.eqb p0 "C:"); now inversion 1.
Qed.

Lemma init_ok : space_ok init.
Proof.
  split.
  - cbn. split; [constructor; [intros []|constructor]|]. split; [|exact I].
    split; [constructor; [intros []|constructor]|]. split; [|exact I].
    unfold Z.le. cbn. discriminate.
  - vm_compute. discriminate.
Qed.

(** X12.  The space in use never exceeds the capacity of the disk.  In a
    new [FileSystem] the tree is well formed and the used space is within
    [total_space]; every method keeps both, however it ends; so
    [get_free_space] is never negative. *)
Lemma capacity_is_kept :
  space_ok init
  /\ (forall s, space_ok s ->
        (forall path, space_ok (snd (change_directory path s)))
        /\ (forall path, space_ok (snd (create_directory path s)))
        /\ (forall path, space_ok (snd (remove_directory path s)))
        /\ (forall path, space_ok (snd (read_file path s)))
        /\ (forall path content, space_ok (snd (write_file path content s)))
        /\ (forall source destination, space_ok (snd (copy_file source destination s)))
        /\ (forall path, space_ok (snd (delete_file path s)))
        /\ (forall oldpath newname, space_ok (snd (rename_file oldpath newname s)))
        /\ (forall path, space_ok (snd (list_directory path s)))
        /\ (forall path c, space_ok (snd (_get_node_at_path path c s))))
  /\ (forall s, space_ok s ->
        exists free, get_free_space s
                     = (Return free, with_used_space (_calculate_used_space (root s)) s)
          /\ (0 <= free <= total_space s)%Z).
Proof.
  split; [exact init_ok|]. split.
  - intros s H. conjs; intros.
    + destruct (change_directory path s) as [o s'] eqn:E.
      destruct (change_directory_root _ _ _ _ E) as [R T]. unfold space_ok. cbn [snd].
      now rewrite R, T.
    + now apply create_directory_space.
    + now apply remove_directory_space.
    + now rewrite read_file_state.
    + now apply write_file_space.
    + now apply copy_file_space.
    + now apply delete_file_space.
    + now apply rename_file_space.
    + now rewrite list_directory_state.
    + destruct (_get_node_at_path path c s) as [r s'] eqn:E. exact (get_node_space _ _ _ _ _ H E).
  - intros s [T U]. eexists. split; [reflexivity|].
    cbn [total_space used_space with_used_space]. pose proof (used_nonneg _ T). lia.
Qed.

(** ** Writing at the name of a directory *)

(** X13.  [write_file] does not refuse a path that names a directory: when
    the last part of the path is a directory of the directory of the path
    and the content fits in the free space, the call returns [True] and
    the directory, with all it holds, is replaced by the file; the space
    in use goes down by what the directory held. *)
Lemma write_file_replaces_directory
    (path content d b : string) (s : FileSystem) (l : loc)
    (nm : string) (cr md : time) (children : list (string * node))
    (dn : string) (dc dm : time) (sub : list (string * node)) :
  os_path_split path = (d, b) ->
  is_valid_filename b = true ->
  _get_node_at_path (or_dot d) false s = (Return (Some l), s) ->
  get_at (root s) l = Some (Dir nm cr md children) ->
  Dict.lookup b children = Some (Dir dn dc dm sub) ->
  (PyStr.len content <= total_space s - _calculate_used_space (root s))%Z ->
  exists s',
    write_file path content s = (Return true, s')
    /\ get_at (root s') (l ++ [b])
       = Some (File b (clock (ticks s)) (clock (ticks s)) (PyStr.len content) content)
    /\ _calculate_used_space (root s')
       = (_calculate_used_space (root s) - _calculate_used_space (Dir dn dc dm sub)
          + PyStr.len content)%Z.
Proof.
  intros Hs V R G L F.
  assert (R' : _get_node_at_path (or_dot d) true s = (Return (Some l), s))
    by now apply rec_false_true.
  rewrite (write_file_cases _ content _ _ _ _ _ _ _ _ _ Hs V R' G).
  unfold existing_size. rewrite L.
  destruct (Z.ltb_spec (total_space s - _calculate_used_space (root s) + 0)
              (PyStr.len content)); [lia|].
  eexists. split; [reflexivity|]. split.
  - unfold write_result; cbn [root].
    rewrite (get_at_update_below _ l [b] _ _ (get_at_update_same _ l _ _ G)).
    cbn [set_child set_modified get_at]. now rewrite lookup_set_same, L.
  - rewrite (used_write_result _ _ _ _ _ _ _ _ G), L. reflexivity.
Qed.

(** ** Paths as they are shown and as they are resolved *)

(** X14.  A leading backslash does not lead to the root: the path is
    resolved from the current directory, as the path with a [.] before
    the backslash is, while [get_full_path] shows it under the drive. *)
Lemma leading_backslash_is_relative (p : string) (s : FileSystem) :
  _get_node_at_path (String backslash p) false s
  = _get_node_at_path (String "." (String backslash p)) false s
  /\ get_full_path (String backslash p) s = (Return ("C:" ++ String backslash p)%string, s).
Proof.
  split.
  2:{ unfold get_full_path. cbn. now destruct p. }
  apply get_node_equiv. unfold plan'.
  pose proof (parse_app_sep backslash "" p eq_refl) as E1.
  pose proof (parse_app_sep backslash "." p eq_refl) as E2.
  cbn [String.append] in E1, E2. rewrite E1, E2.
  split; reflexivity.
Qed.

(** ** Relative paths of valid names *)

Lemma join_cons_nonempty (sep y : string) (l : list string) :
  y <> "" -> PyStr.join sep (y :: l) <> "".
Proof.
  intros N. unfold PyStr.join. destruct l as [|z l]; cbn [String.concat]; [exact N|].
  destruct y; [congruence|discriminate].
Qed.

Lemma segs_join_valid (parts : list string) :
  valid_names parts -> segs (PyStr.join "\" parts) = parts.
Proof.
  intros [N F]. induction parts as [|x l IH] using rev_ind; [congruence|]. clear N.
  apply Forall_app in F. destruct F as [F Fx]. inversion Fx; subst.
  destruct l as [|y l']; [now apply segs_valid|].
  rewrite join_snoc by discriminate.
  change ("\" ++ x)%string with (String backslash x).
  rewrite (segs_app_sep backslash _ x eq_refl), (segs_valid x) by assumption.
  rewrite IH; [reflexivity|discriminate|exact F].
Qed.

Lemma valid_head (parts : list string) :
  valid_names parts ->
  exists p0 rest, parts = p0 :: rest /\ is_valid_filename p0 = true.
Proof.
  intros [N F]. destruct parts as [|p0 rest]; [congruence|].
  inversion F; subst. eauto.
Qed.

Lemma parse_join_valid (parts : list string) :
  valid_names parts -> parse_path (PyStr.join "\" parts) = parts.
Proof.
  intros H. destruct (valid_head parts H) as (p0 & rest & -> & V).
  destruct (valid_facts p0 V) as (N1 & _ & _ & N4).
  destruct (clean_chars p0 N4) as (_ & _ & I3).
  rewrite parse_path_segs by now apply join_cons_nonempty.
  rewrite (segs_join_valid _ H). cbn [fix_drive]. now rewrite I3.
Qed.

(** A relative path of valid names is walked from the current directory,
    part by part. *)
Lemma valid_names_plan (parts : list string) :
  valid_names parts -> plan (PyStr.join "\" parts) = (Cwd, parts).
Proof.
  intros H. pose proof (parse_join_valid parts H) as P.
  destruct (valid_head parts H) as (p0 & rest & E & V).
  destruct (valid_facts p0 V) as (N1 & N2 & N3 & N4).
  destruct (clean_chars p0 N4) as (_ & _ & I3).
  destruct (clean_not_drive p0 I3) as (D1 & _ & _).
  unfold plan, early.
  destruct (String.eqb_spec (PyStr.join "\" parts) "") as [E0|_].
  { rewrite E0, E in P. discriminate P. }
  destruct (String.eqb_spec (PyStr.join "\" parts) "C:") as [E0|_].
  { rewrite E0, E in P. vm_compute in P. inversion P. congruence. }
  destruct (String.eqb_spec (PyStr.join "\" parts) "C:\") as [E0|_].
  { rewrite E0, E in P. vm_compute in P. inversion P. congruence. }
  cbn [orb]. rewrite P, E.
  destruct (String.eqb_spec p0 "C:"); [congruence|].
  destruct (String.eqb_spec p0 ".."); [congruence|].
  unfold strip_dot. destruct (String.eqb_spec p0 "."); [congruence|]. reflexivity.
Qed.

Lemma valid_names_ne (parts : list string) :
  Forall (fun x => is_valid_filename x = true) parts -> ne parts = parts.
Proof.
  induction 1 as [|x l V F IH]; [reflexivity|]. cbn [ne filter].
  destruct (valid_facts x V) as (N1 & _). destruct (String.eqb_spec x ""); [congruence|].
  cbn [negb]. f_equal. exact IH.
Qed.

Lemma valid_names_nosep (parts : list string) :
  Forall (fun x => is_valid_filename x = true) parts ->
  Forall (fun x => nosep x = true) parts.
Proof.
  induction 1 as [|x l V F IH]; constructor; [|exact IH].
  pose proof (segs_valid x V) as S. pose proof (segs_nosep x) as Fs.
  rewrite S in Fs. now inversion Fs.
Qed.

Lemma cwd_parts_app (rest xs : list string) :
  Forall (fun x => nosep x = true) xs ->
  cwd_parts ("C:" :: rest ++ xs) = cwd_parts ("C:" :: rest) ++ xs.
Proof.
  induction xs as [|x xs IH] using rev_ind; intros F.
  - now rewrite !app_nil_r.
  - apply Forall_app in F. destruct F as [F Fx]. inversion Fx; subst.
    rewrite app_assoc, cwd_parts_snoc, (IH F).
    now rewrite nosep_segs, <- app_assoc.
Qed.

Lemma cd_parts_valid (parts cp : list string) :
  Forall (fun x => is_valid_filename x = true) parts -> cd_parts parts cp = cp ++ parts.
Proof.
  intros F. revert cp. induction F as [|x l V F IH]; intros cp; [now rewrite app_nil_r|].
  destruct (valid_facts x V) as (N1 & N2 & N3 & _). cbn [cd_parts].
  destruct (String.eqb_spec x ".."); [congruence|].
  destruct (String.eqb_spec x "."); [congruence|].
  destruct (String.eqb_spec x ""); [congruence|].
  cbn [negb andb]. rewrite IH, <- app_assoc. reflexivity.
Qed.

Lemma valid_names_relative (parts : list string) (path : string) :
  valid_names parts ->
  path = PyStr.join "\" parts ->
  path <> "." /\ path <> ".." /\ PyStr.startswith "C:" path = false
  /\ PyStr.startswith "\" path = false.
Proof.
  intros H Hp. pose proof (parse_join_valid parts H) as P. rewrite <- Hp in P. clear Hp.
  destruct (valid_head parts H) as (p0 & rest & E & V).
  destruct (valid_facts p0 V) as (N1 & N2 & N3 & N4).
  destruct (clean_chars p0 N4) as (_ & _ & I3).
  destruct (clean_not_drive p0 I3) as (D1 & _ & _).
  conjs.
  - intros E0. rewrite E0, E in P. inversion P. congruence.
  - intros E0. rewrite E0, E in P. inversion P. congruence.
  - destruct (PyStr.startswith "C:" path) eqn:S; [|reflexivity].
    apply startswith_drive in S. rewrite P, E in S. inversion S. congruence.
  - destruct (PyStr.startswith "\" path) eqn:S; [|reflexivity].
    unfold PyStr.startswith in S. destruct path as [|c t]; [discriminate S|].
    cbn [String.prefix] in S. destruct (ascii_dec "\" c) as [<-|]; [|discriminate S].
    pose proof (parse_app_sep backslash "" t eq_refl) as Q. cbn [String.append] in Q.
    change (String "\" t) with (String backslash t) in P.
    rewrite Q in P. cbn in P. rewrite E in P. inversion P. congruence.
Qed.

(** X15.  [change_directory] to a relative path of valid names, such as
    [A\B]: when it returns [True], in a state whose current path starts at
    the drive, the names are appended to the current path, the tree is as
    it was, and the new current path leads to the directory the path was
    resolved to. *)
Lemma change_directory_relative (parts : list string) (s s' : FileSystem) :
  wf_cp s ->
  valid_names parts ->
  change_directory (PyStr.join "\" parts) s = (Return true, s') ->
  exists l nm cr md content,
    _get_node_at_path (PyStr.join "\" parts) false s = (Return (Some l), s)
    /\ get_at (root s) l = Some (Dir nm cr md content)
    /\ current_path s' = current_path s ++ parts
    /\ root s' = root s
    /\ _get_current_node s' = (Return (Some l), s').
Proof.
  intros W H C.
  pose proof (change_directory_wf (PyStr.join "\" parts) s W) as W'.
  rewrite C in W'. cbn [snd] in W'.
  rewrite (get_current_node_eq s' W').
  destruct (valid_names_relative parts _ H eq_refl) as (E1 & E2 & E3 & _).
  unfold change_directory, bind at 1 in C.
  rewrite (get_node_plan _ false s W) in *. rewrite (valid_names_plan parts H) in *.
  cbn [fst snd] in *.
  destruct (anchor_loc Cwd s) as [l0|] eqn:A.
  2:{ rewrite walk_none in C. unfold bind, self, ret in C.
      destruct (ne parts); discriminate. }
  rewrite (walk_false_spec _ l0 s (anchor_valid _ _ _ A)) in *.
  rewrite (valid_names_ne parts (proj2 H)) in *.
  unfold bind at 1, self at 1 in C. unfold dir_content in C.
  destruct (get_at (root s) (l0 ++ parts)) as [[nm cr md content|]|] eqn:G;
    cbn iota in C; rewrite ?G in C; cbn iota in C; unfold ret in C; try discriminate C.
  destruct (String.eqb_spec (PyStr.join "\" parts) ".."); [congruence|].
  destruct (String.eqb_spec (PyStr.join "\" parts) "."); [congruence|].
  rewrite E3, (parse_join_valid parts H), (cd_parts_valid _ _ (proj2 H)) in C.
  inversion C; subst s'. clear C.
  exists (l0 ++ parts), nm, cr, md, content. conjs; auto.
  unfold anchor_loc in *. cbn [current_path root with_current_path].
  destruct W as [rest W]. rewrite W in *.
  change (("C:" :: rest) ++ parts) with ("C:" :: rest ++ parts).
  rewrite (cwd_parts_app rest parts (valid_names_nosep _ (proj2 H))).
  destruct (find_some _ _ _ A) as [E0 _].
  unfold find. rewrite ne_app, (valid_names_ne parts (proj2 H)), <- E0, G. reflexivity.
Qed.

(** ** The current path and its string *)

Lemma upper_sep (c : ascii) : is_sep (PyStr.upper_char c) = is_sep c.
Proof. destruct c as [[] [] [] [] [] [] [] []]; reflexivity. Qed.

Lemma nosep_upper (x : string) : nosep (PyStr.upper x) = nosep x.
Proof.
  unfold nosep. induction x as [|c x IH]; [reflexivity|].
  cbn [PyStr.upper PyStr.all]. now rewrite upper_sep, IH.
Qed.

Lemma nosep_take (n : nat) : forall x, nosep x = true -> nosep (PyStr.take n x) = true.
Proof.
  unfold nosep. induction n as [|n IH]; intros [|c x] H; try reflexivity.
  cbn [PyStr.take PyStr.all] in *. apply andb_prop in H. destruct H as [H1 H2].
  now rewrite H1, (IH x H2).
Qed.

Lemma parse_path_nosep (path : string) : Forall (fun x => nosep x = true) (parse_path path).
Proof.
  destruct (String.eqb_spec path "") as [->|N]; [constructor|].
  rewrite (parse_path_segs path N). pose proof (segs_nosep path) as F.
  destruct (segs path) as [|p0 rest]; [constructor|]. inversion F; subst.
  cbn [fix_drive]. destruct (PyStr.contains colon p0); [|exact F].
  constructor; [|assumption].
  destruct (2 <? String.length (PyStr.upper p0))%nat.
  - apply nosep_take. now rewrite nosep_upper.
  - now rewrite nosep_upper.
Qed.

Lemma removelast_forall (A : Type) (P : A -> Prop) (l : list A) :
  Forall P l -> Forall P (removelast l).
Proof.
  induction 1 as [|x l Hx F IH]; [constructor|]. cbn [removelast].
  destruct l; [constructor|]. constructor; assumption.
Qed.

Lemma cd_parts_clean (parts : list string) :
  Forall (fun x => nosep x = true) parts ->
  forall rest, Forall (fun x => nosep x = true) rest ->
    exists rest', cd_parts parts ("C:" :: rest) = "C:" :: rest'
                  /\ Forall (fun x => nosep x = true) rest'.
Proof.
  induction 1 as [|part parts Hp F IH]; intros rest R; [simpl; eauto|].
  cbn [cd_parts]. destruct (String.eqb part "..").
  - destruct rest as [|r rs]; [apply IH; constructor|].
    change (1 <? List.length ("C:" :: r :: rs))%nat with true. cbn iota.
    change (removelast ("C:" :: r :: rs)) with ("C:" :: removelast (r :: rs)).
    apply IH. now apply removelast_forall.
  - destruct (negb (String.eqb part ".") && negb (String.eqb part "")).
    + change (("C:" :: rest) ++ [part]) with ("C:" :: rest ++ [part]).
      apply IH. apply Forall_app. split; [exact R|]. now constructor.
    + now apply IH.
Qed.

Lemma change_directory_clean (path : string) (s : FileSystem) :
  clean_cp s -> clean_cp (snd (change_directory path s)).
Proof.
  intros W. unfold change_directory, bind at 1.
  destruct (_get_node_at_path path false s) as [[r|e] s1] eqn:E;
    pose proof (get_node_pure _ _ _ _ E); subst s1; [|exact W].
  unfold bind at 1, self at 1.
  destruct (dir_content s r); [|exact W].
  destruct W as (rest & W & F). unfold clean_cp.
  destruct (String.eqb path "..").
  { cbn [snd current_path with_current_path]. rewrite W.
    destruct rest as [|x xs]; [simpl; eauto|].
    change (1 <? List.length ("C:" :: x :: xs))%nat with true. cbn iota.
    change (removelast ("C:" :: x :: xs)) with ("C:" :: removelast (x :: xs)).
    eexists. split; [reflexivity|]. now apply removelast_forall. }
  destruct (String.eqb path "."); [cbn [snd ret]; eauto|].
  destruct (PyStr.startswith "C:" path).
  - pose proof (parse_path_nosep path) as Fp.
    destruct (parse_path path) as [|p0 rest']; [cbn [snd]; eauto|].
    destruct (String.eqb_spec p0 "C:") as [->|_]; [|cbn [snd]; eauto].
    exists rest'. split; [reflexivity|]. now inversion Fp.
  - cbn [snd current_path with_current_path]. rewrite W.
    apply cd_parts_clean; [apply parse_path_nosep|exact F].
Qed.

(** X16.  [get_current_path] and [parse_path] are inverse to each other on
    current paths.  The current path of a new [FileSystem] is the drive
    followed by parts without a separator, every method leaves it so, and
    the string [get_current_path] returns for such a path is parsed back
    by [parse_path] into the path itself. *)
Lemma current_path_round_trip :
  clean_cp init
  /\ (forall s, clean_cp s ->
        (forall path, clean_cp (snd (change_directory path s)))
        /\ (forall path, clean_cp (snd (create_directory path s)))
        /\ (forall path, clean_cp (snd (remove_directory path s)))
        /\ (forall path, clean_cp (snd (read_file path s)))
        /\ (forall path content, clean_cp (snd (write_file path content s)))
        /\ (forall source destination, clean_cp (snd (copy_file source destination s)))
        /\ (forall path, clean_cp (snd (delete_file path s)))
        /\ (forall oldpath newname, clean_cp (snd (rename_file oldpath newname s)))
        /\ (forall path, clean_cp (snd (list_directory path s))))
  /\ (forall s, clean_cp s ->
        exists shown,
          get_current_path s = (Return shown, s)
          /\ parse_path shown = current_path s).
Proof.
  split; [exists []; split; [reflexivity|constructor]|]. split.
  - intros s W. unfold clean_cp in *. conjs; intros.
    + now apply change_directory_clean.
    + now rewrite create_directory_current_path.
    + now rewrite remove_directory_current_path.
    + now rewrite read_file_current_path.
    + now rewrite write_file_current_path.
    + now rewrite copy_file_current_path.
    + now rewrite delete_file_current_path.
    + now rewrite rename_file_current_path.
    + now rewrite list_directory_state.
  - intros s (rest & W & F). eexists. split; [reflexivity|]. rewrite W.
    destruct (parse_join_drive rest) as [parts P].
    pose proof (cwd_parts_clean rest F) as C. unfold cwd_parts in C.
    rewrite P in *. cbn [tl] in C. now subst parts.
Qed.

(** X17.  Where [get_full_path] and the resolution agree.  In a state
    whose current path starts at the drive and leads to an entry, for the
    paths [.] and [..], the paths that start with [C:] and the relative
    paths of valid names, the path [get_full_path] returns resolves to
    what the path itself resolves to. *)
Lemma get_full_path_resolves (path : string) (s : FileSystem) :
  cwd_ok s ->
  path = "." \/ path = ".." \/ PyStr.startswith "C:" path = true
  \/ (exists parts, valid_names parts /\ path = PyStr.join "\" parts) ->
  exists full,
    get_full_path path s = (Return full, s)
    /\ _get_node_at_path full false s = _get_node_at_path path false s.
Proof.
  intros H C. pose proof (proj1 H) as W.
  destruct C as [->|[->|[C|(parts & V & ->)]]].
  - exists (PyStr.join "\" (current_path s)). split; [reflexivity|].
    rewrite (get_node_plan "." false s W). change (plan ".") with (Cwd, @nil string).
    cbn [fst snd]. rewrite walk_nil. unfold _get_node_at_path, recursion_limit.
    now apply rec_cwd.
  - rewrite (get_node_plan ".." false s W). change (plan "..") with (Parent, @nil string).
    cbn [fst snd]. rewrite walk_nil.
    destruct (1 <? List.length (current_path s))%nat eqn:L.
    + exists (PyStr.join "\" (removelast (current_path s))). split.
      * unfold get_full_path. cbn [String.eqb Ascii.eqb Bool.eqb].
        change (PyStr.startswith "C:" "..") with false. cbn iota.
        unfold bind, self, ret. now rewrite L.
      * unfold _get_node_at_path, recursion_limit. now apply rec_parent.
    + exists "C:". split.
      * unfold get_full_path. cbn [String.eqb Ascii.eqb Bool.eqb].
        change (PyStr.startswith "C:" "..") with false. cbn iota.
        unfold bind, self, ret. now rewrite L.
      * unfold anchor_loc. rewrite L. reflexivity.
  - exists path. split; [|reflexivity]. unfold get_full_path.
    destruct (String.eqb_spec path ".") as [->|_]; [discriminate C|]. now rewrite C.
  - destruct (valid_names_relative parts _ V eq_refl) as (E1 & E2 & E3 & E4).
    exists (PyStr.join "\" (current_path s) ++ "\" ++ PyStr.join "\" parts)%string. split.
    + unfold get_full_path.
      destruct (String.eqb_spec (PyStr.join "\" parts) "."); [congruence|].
      destruct (String.eqb_spec (PyStr.join "\" parts) ".."); [congruence|].
      now rewrite E3, E4.
    + destruct (anchors_ok s Cwd H) as [l0 A].
      rewrite (get_node_plan (PyStr.join "\" parts) false s W), (valid_names_plan parts V).
      cbn [fst snd]. rewrite A, (walk_false_spec _ l0 s (anchor_valid _ _ _ A)).
      destruct (find_some _ _ _ A) as [E0 _]. unfold cwd_parts in E0.
      destruct W as [rest W]. rewrite W in *.
      destruct (parse_join_drive rest) as [pc P]. rewrite P in E0. cbn [tl] in E0.
      assert (Pf : parse_path (PyStr.join "\" ("C:" :: rest) ++ "\" ++ PyStr.join "\" parts)
                   = "C:" :: pc ++ parts).
      { change ("\" ++ PyStr.join "\" parts)%string
          with (String backslash (PyStr.join "\" parts)).
        rewrite (parse_app_sep backslash _ _ eq_refl), (segs_join_valid parts V).
        rewrite <- parse_path_segs, P; [reflexivity|]. now apply join_cons_nonempty. }
      unfold _get_node_at_path, recursion_limit.
      rewrite (rec_abs _ false _ _ s Pf), (walk_false_spec _ [] s (root_valid s)).
      cbn [app]. now rewrite ne_app, <- E0.
Qed.

(** ** The rendering of the tree *)

Lemma sort_insert_in (x y : string * node) (l : list (string * node)) :
  In y (sort_insert x l) -> y = x \/ In y l.
Proof.
  induction l as [|z l IH]; cbn [sort_insert].
  - intros [H|[]]; auto.
  - destruct (key_le (tree_key z) (tree_key x)).
    + intros [H|H]; [right; now left|]. destruct (IH H); auto. right; now right.
    + intros [H|H]; auto.
Qed.

Lemma sort_items_in (y : string * node) (l : list (string * node)) :
  In y (sort_items l) -> In y l.
Proof.
  unfold sort_items.
  assert (G : forall acc, In y (fold_left (fun acc x => sort_insert x acc) l acc) ->
                          In y acc \/ In y l).
  { induction l as [|x l IH]; intros acc H; [now left|]. cbn [fold_left] in H.
    destruct (IH _ H) as [K|K]; [|right; now right].
    destruct (sort_insert_in _ _ _ K) as [->|K']; [right; now left|now left]. }
  intros H. destruct (G [] H) as [[]|K]; exact K.
Qed.

Lemma shown_in (show_files : bool) (content : list (string * node)) (y : string * node) :
  In y (shown show_files content) -> In y content.
Proof.
  intros H. apply sort_items_in in H. apply filter_In in H. exact (proj1 H).
Qed.

Lemma in_lookup (A : Type) (k : string) (v : A) (d : list (string * A)) :
  NoDup (map fst d) -> In (k, v) d -> Dict.lookup k d = Some v.
Proof.
  induction d as [|[k' v'] d IH]; [intros _ []|]. cbn [map fst Dict.lookup In].
  intros N [H|H].
  - inversion H; subst. now rewrite String.eqb_refl.
  - inversion N; subst. destruct (String.eqb_spec k' k) as [->|_]; [|auto].
    exfalso. apply H2. apply (in_map fst) in H. exact H.
Qed.

Lemma tree_lines_pure (sub : string -> node -> string -> M (list string))
    (prefix : string) (items : list (string * node)) (s : FileSystem) :
  (forall name item np, snd (sub name item np s) = s) ->
  snd (tree_lines sub prefix items s) = s.
Proof.
  intros P. induction items as [|[name item] rest IH]; [reflexivity|].
  cbn [tree_lines]. destruct (node_kind item).
  - unfold bind at 1. pose proof (P name item
      (prefix ++ (if Nat.eqb (List.length rest) 0 then "    " else tree_bar))%string) as Q.
    destruct (sub name item _ s) as [[x|e] s1]; cbn [snd] in Q; subst s1; [|reflexivity].
    unfold bind at 1. destruct (tree_lines sub prefix rest s) as [[y|e] s2];
      cbn [snd] in IH; now subst s2.
  - unfold bind at 1. destruct (tree_lines sub prefix rest s) as [[y|e] s2];
      cbn [snd] in IH; now subst s2.
Qed.

Lemma render_pure (depth : nat) :
  forall (show_files : bool) (prefix : string) (n : node) (s : FileSystem),
    snd (render depth show_files prefix n s) = s.
Proof.
  induction depth as [|d IH]; intros show_files prefix n s; [reflexivity|].
  cbn [render]. destruct n as [nm cr md content|]; [|reflexivity].
  apply tree_lines_pure. intros name item np. apply IH.
Qed.

(** The loop gives the same lines for two ways of rendering the
    directories among its items, when they agree on each of them. *)
Lemma tree_lines_ext (sub1 sub2 : string -> node -> string -> M (list string))
    (prefix : string) (items : list (string * node)) (s : FileSystem) :
  (forall name item np, snd (sub2 name item np s) = s) ->
  (forall name item np, In (name, item) items -> node_kind item = dir ->
     sub1 name item np s = sub2 name item np s) ->
  tree_lines sub1 prefix items s = tree_lines sub2 prefix items s.
Proof.
  intros P E. induction items as [|[name item] rest IH]; [reflexivity|].
  assert (IH' : tree_lines sub1 prefix rest s = tree_lines sub2 prefix rest s).
  { apply IH. intros n i np H. apply E. now right. }
  cbn [tree_lines]. destruct (node_kind item) eqn:K.
  - unfold bind at 1 3. rewrite (E name item _ (or_introl eq_refl) K).
    pose proof (P name item
      (prefix ++ (if Nat.eqb (List.length rest) 0 then "    " else tree_bar))%string) as Q.
    destruct (sub2 name item _ s) as [[x|e] s1]; cbn [snd] in Q; subst s1; [|reflexivity].
    unfold bind. now rewrite IH'.
  - unfold bind. now rewrite IH'.
Qed.

Lemma names_valid_child (nm : string) (cr md : time) (content : list (string * node))
    (k : string) (item : node) :
  names_valid (Dir nm cr md content) ->
  Dict.lookup k content = Some item ->
  is_valid_filename k = true /\ names_valid item.
Proof.
  intros V L. split.
  - apply (V [] k). cbn [app get_at]. rewrite L. discriminate.
  - intros m k' H. apply (V (k :: m) k'). cbn [app get_at]. now rewrite L.
Qed.

(** The path [generate_tree] calls itself with for a directory of the
    directory at [path] resolves to that directory. *)
Lemma child_path_resolves (path name : string) (s : FileSystem) (l : loc) (item : node) :
  wf_cp s -> path <> "" -> is_valid_filename name = true ->
  _get_node_at_path path false s = (Return (Some l), s) ->
  get_at (root s) (l ++ [name]) = Some item ->
  _get_node_at_path (if String.eqb path "." then name else (path ++ "\" ++ name)%string)
    false s
  = (Return (Some (l ++ [name])), s).
Proof.
  intros W N V R G.
  assert (E : get_at (root s) l <> None).
  { apply (prefix_exists _ l [name]). congruence. }
  destruct (String.eqb_spec path ".") as [->|Nd].
  - destruct (coherent_resolve name "" name s s l W V (or_introl (conj eq_refl eq_refl))
                R eq_refl E) as [_ R2].
    now rewrite R2, G.
  - assert (C : coherent (path ++ "\" ++ name) path name).
    { right. split; [exact N|]. exists "\". conjs; auto. left; discriminate. }
    assert (O : or_dot path = path).
    { unfold or_dot. destruct (String.eqb_spec path ""); [congruence|reflexivity]. }
    rewrite <- O in R.
    destruct (coherent_resolve _ path name s s l W V C R eq_refl E) as [_ R2].
    now rewrite R2, G.
Qed.

(** [generate_tree] renders the directory its path resolves to: where the
    names below it are valid names, the subtree shown under the line of a
    directory is the one of that directory. *)
Lemma generate_tree_rec_renders (depth : nat) :
  forall (path : string) (show_files : bool) (prefix : string) (s : FileSystem)
         (l : loc) (n : node),
    wf_cp s -> tree_ok (root s) -> path <> "" ->
    _get_node_at_path path false s = (Return (Some l), s) ->
    get_at (root s) l = Some n ->
    names_valid n ->
    generate_tree_rec depth path show_files prefix s = render depth show_files prefix n s.
Proof.
  induction depth as [|d IH]; intros path show_files prefix s l n W T N R G V; [reflexivity|].
  cbn [generate_tree_rec render]. unfold bind at 1. rewrite R.
  unfold bind at 1, self at 1. unfold dir_content. rewrite G.
  destruct n as [nm cr md content|]; [|reflexivity].
  pose proof (get_at_ok _ _ _ T G) as Tn. apply tree_ok_dir in Tn. destruct Tn as [ND _].
  apply tree_lines_ext.
  - intros name item np. apply render_pure.
  - intros name item np I K. apply shown_in in I.
    pose proof (in_lookup _ _ _ _ ND I) as L.
    destruct (names_valid_child _ _ _ _ _ _ V L) as [Vk Vi].
    assert (Gc : get_at (root s) (l ++ [name]) = Some item).
    { rewrite get_at_app, G. cbn [get_at]. now rewrite L. }
    apply (IH _ show_files np s (l ++ [name]) item W T); auto.
    + destruct (String.eqb path "."); [now destruct (valid_facts name Vk)|].
      destruct path; [congruence|discriminate].
    + now apply child_path_resolves with (item := item).
Qed.

Lemma tree_lines_returns (sub : string -> node -> string -> M (list string))
    (prefix : string) (items : list (string * node)) (s : FileSystem) :
  (forall name item np, In (name, item) items -> node_kind item = dir ->
     exists lines, sub name item np s = (Return lines, s)) ->
  exists lines, tree_lines sub prefix items s = (Return lines, s).
Proof.
  intros E. induction items as [|[name item] rest IH]; [cbn; unfold ret; eauto|].
  destruct IH as [more IH]. { intros n i np H. apply E. now right. }
  cbn [tree_lines]. destruct (node_kind item) eqn:K.
  - destruct (E name item
      (prefix ++ (if Nat.eqb (List.length rest) 0 then "    " else tree_bar))%string
      (or_introl eq_refl) K) as [lines Q].
    unfold bind at 1. rewrite Q. unfold bind, ret. rewrite IH. eauto.
  - unfold bind, ret. rewrite IH. eauto.
Qed.

Lemma render_returns (depth : nat) :
  forall (show_files : bool) (prefix : string) (n : node) (s : FileSystem),
    tree_ok n ->
    (forall m, get_at n m <> None -> (List.length m < depth)%nat) ->
    exists lines, render depth show_files prefix n s = (Return lines, s).
Proof.
  induction depth as [|d IH]; intros show_files prefix n s T H.
  - specialize (H [] ltac:(discriminate)). inversion H.
  - cbn [render]. destruct n as [nm cr md content|]; [|unfold ret; eauto].
    apply tree_ok_dir in T. destruct T as [ND F].
    apply tree_lines_returns. intros name item np I K. apply shown_in in I.
    pose proof (in_lookup _ _ _ _ ND I) as L.
    apply IH.
    + exact (lookup_ok _ _ _ F L).
    + intros m Hm. specialize (H (name :: m)). cbn [get_at List.length] in H.
      rewrite L in H. specialize (H Hm). lia.
Qed.

(** X18.  [generate_tree] shows the tree below its path.  In a well-formed
    tree where the names below the directory of the path are valid names,
    the lines returned are the rendering of that directory itself: each
    directory is shown with its own subtree under it.  The object is left
    as it is, and with frames beyond the depth of the subtree the call
    returns its lines. *)
Lemma generate_tree_renders (path : string) (show_files : bool) (s : FileSystem)
    (l : loc) (n : node) :
  wf_cp s -> tree_ok (root s) -> path <> "" ->
  _get_node_at_path path false s = (Return (Some l), s) ->
  get_at (root s) l = Some n ->
  names_valid n ->
  generate_tree path show_files s = render (S frames) show_files "" n s
  /\ snd (generate_tree path show_files s) = s
  /\ ((forall m, get_at n m <> None -> (List.length m <= frames)%nat) ->
      exists lines, generate_tree path show_files s = (Return lines, s)).
Proof.
  intros W T N R G V. unfold generate_tree.
  rewrite (generate_tree_rec_renders _ path show_files "" s l n W T N R G V).
  conjs; auto.
  - apply render_pure.
  - intros H. apply render_returns; [exact (get_at_ok _ _ _ T G)|].
    intros m Hm. specialize (H m Hm). lia.
Qed.

(** ** The attribute [used_space] *)

Ltac attr H :=
  unfold bind, self, ret, raise, mutate, time_time, dir_content in H;
  repeat match type of H with
         | context [match ?x with _ => _ end] => destruct x eqn:?
         end;
  inversion H; subst; reflexivity.

(** X19.  The attribute [used_space] is assigned by [get_free_space] and
    by nothing else.  A [write_file] that returns [True] leaves in it the
    space that was in use before the write, and [create_directory],
    [remove_directory], [delete_file], [rename_file] and
    [change_directory] leave it as it was, whatever they have changed in
    the tree. *)
Lemma used_space_is_not_kept_up :
  (forall path content s s',
      write_file path content s = (Return true, s') ->
      used_space s' = _calculate_used_space (root s))
  /\ (forall path s o s', create_directory path s = (o, s') -> used_space s' = used_space s)
  /\ (forall path s o s', remove_directory path s = (o, s') -> used_space s' = used_space s)
  /\ (forall path s o s', delete_file path s = (o, s') -> used_space s' = used_space s)
  /\ (forall oldpath newname s o s',
        rename_file oldpath newname s = (o, s') -> used_space s' = used_space s)
  /\ (forall path s o s', change_directory path s = (o, s') -> used_space s' = used_space s).
Proof.
  conjs.
  - intros path content s s' H. destruct (os_path_split path) as [d b] eqn:Hs.
    destruct (write_file_success _ _ _ _ _ _ Hs H)
      as (_ & l & s1 & nm & cr & md & children & R & _ & ->).
    destruct (get_node_inv _ _ _ _ _ R) as ((_ & _ & _ & P4 & _) & _).
    exact P4.
  - intros path s o s'. unfold create_directory. destruct (os_path_split path) as [d b].
    destruct (is_valid_filename b); cbn [negb]; [|now inversion 1].
    unfold bind at 1.
    destruct (_get_node_at_path (or_dot d) false s) as [[r|e] s1] eqn:E;
      pose proof (get_node_pure _ _ _ _ E); subst s1; [|now inversion 1].
    intros H. attr H.
  - intros path s o s'. unfold remove_directory. destruct (os_path_split path) as [d b].
    unfold bind at 1.
    destruct (_get_node_at_path (or_dot d) false s) as [[r|e] s1] eqn:E;
      pose proof (get_node_pure _ _ _ _ E); subst s1; [|now inversion 1].
    intros H. attr H.
  - intros path s o s'. unfold delete_file. destruct (os_path_split path) as [d b].
    unfold bind at 1.
    destruct (_get_node_at_path (or_dot d) false s) as [[r|e] s1] eqn:E;
      pose proof (get_node_pure _ _ _ _ E); subst s1; [|now inversion 1].
    intros H. attr H.
  - intros oldpath newname s o s'. unfold rename_file.
    destruct (os_path_split oldpath) as [d b].
    destruct (is_valid_filename newname); cbn [negb]; [|now inversion 1].
    unfold bind at 1.
    destruct (_get_node_at_path (or_dot d) false s) as [[r|e] s1] eqn:E;
      pose proof (get_node_pure _ _ _ _ E); subst s1; [|now inversion 1].
    intros H. attr H.
  - intros path s o s'. unfold change_directory, bind at 1.
    destruct (_get_node_at_path path false s) as [[r|e] s1] eqn:E;
      pose proof (get_node_pure _ _ _ _ E); subst s1; [|now inversion 1].
    intros H. attr H.
Qed.

(** ** The parts of a path, joined again *)

Lemma join_split (sep : ascii) (x : string) :
  PyStr.join (String sep "") (PyStr.split sep x) = x.
Proof.
  unfold PyStr.join. induction x as [|c x IH]; [reflexivity|].
  cbn [PyStr.split]. pose proof (split_nonempty sep x) as S.
  destruct (PyStr.split sep x) as [|y l]; [congruence|].
  destruct (Ascii.eqb_spec c sep) as [->|N].
  - change (String.concat (String sep "") ("" :: y :: l))
      with (String sep (String.concat (String sep "") (y :: l))).
    now rewrite IH.
  - destruct l as [|z l].
    + cbn [String.concat] in *. now rewrite IH.
    + change (String.concat (String sep "") (String c y :: z :: l))
        with (String c (String.concat (String sep "") (y :: z :: l))).
      now rewrite IH.
Qed.

(** X22.  What [parse_path] returns.  The list is empty for the empty path
    and for no other; no part holds a separator; and for a path whose
    first part holds no colon, the parts joined by backslashes are the path
    with its slashes turned into backslashes. *)
Lemma parse_path_parts (path : string) :
  (parse_path path = [] <-> path = "")
  /\ Forall (fun part => nosep part = true) (parse_path path)
  /\ (path <> "" -> PyStr.contains colon (hd "" (segs path)) = false ->
      PyStr.join "\" (parse_path path) = PyStr.replace slash backslash path).
Proof.
  conjs.
  - split; [|now intros ->].
    intros H. destruct (String.eqb_spec path "") as [E|N]; [exact E|].
    rewrite (parse_path_segs path N) in H.
    apply fix_drive_nonempty in H; [easy|apply segs_nonempty].
  - apply parse_path_nosep.
  - intros N C. rewrite (parse_path_segs path N). unfold fix_drive.
    destruct (segs path) as [|p0 rest] eqn:E; [now apply segs_nonempty in E|].
    cbn [hd] in C. rewrite C, <- E. apply join_split.
Qed.

(** ** The directory a file is written in *)

Lemma walk_ticks (c : bool) (parts : list string) :
  forall (cur : option loc) (s s' : FileSystem) (r : outcome (option loc)),
    walk c parts cur s = (r, s') -> (ticks s <= ticks s')%nat.
Proof.
  induction parts as [|part rest IH]; intros cur s s' r W.
  - inversion W; subst. apply Nat.le_refl.
  - cbn [walk] in W. destruct (String.eqb part ""); [exact (IH _ _ _ _ W)|].
    destruct cur as [l|]; [|inversion W; subst; apply Nat.le_refl].
    destruct (get_at (root s) l) as [[nm cr md content|]|];
      try (inversion W; subst; apply Nat.le_refl).
    destruct (Dict.mem part content); [exact (IH _ _ _ _ W)|].
    destruct (c && negb (Nat.eqb (List.length rest) 0));
      [|inversion W; subst; apply Nat.le_refl].
    unfold bind, time_time, mutate in W. cbn [root ticks with_root] in W.
    apply IH in W. cbn [ticks with_root] in W. lia.
Qed.

(** A loop that has returned an entry and left the clock as it was has
    created nothing: it returns the same without [create_dirs]. *)
Lemma walk_true_false (parts : list string) :
  forall (l0 l : loc) (s : FileSystem),
    walk true parts (Some l0) s = (Return (Some l), s) ->
    walk false parts (Some l0) s = (Return (Some l), s).
Proof.
  induction parts as [|part rest IH]; intros l0 l s W; [exact W|].
  cbn [walk] in *. destruct (String.eqb part ""); [now apply IH|].
  destruct (get_at (root s) l0) as [[nm cr md content|]|]; try discriminate.
  destruct (Dict.mem part content); [now apply IH|].
  cbn [andb] in *. destruct (negb (Nat.eqb (List.length rest) 0)); [|discriminate].
  exfalso. unfold bind, time_time, mutate in W. cbn [root ticks with_root] in W.
  apply walk_ticks in W. cbn [ticks with_root] in W. lia.
Qed.

Lemma rec_true_false (depth : nat) (path : string) (s : FileSystem) (l : loc) :
  _get_node_at_path_rec depth path true s = (Return (Some l), s) ->
  _get_node_at_path_rec depth path false s = (Return (Some l), s).
Proof.
  destruct depth as [|d]; intros H; [discriminate|].
  cbn [_get_node_at_path_rec] in *.
  destruct (String.eqb path "" || String.eqb path "C:" || String.eqb path "C:\"); auto.
  destruct (parse_path path) as [|p0 rest]; auto.
  destruct (String.eqb p0 "C:"); [now apply walk_true_false|].
  unfold bind at 1, self at 1 in H. unfold bind at 1 in H.
  unfold bind at 1, self at 1. unfold bind at 1.
  destruct (_get_node_at_path_rec d _ false s) as [[cur|e] s1] eqn:E1; [|discriminate].
  pose proof (rec_pure _ _ _ _ _ E1); subst s1.
  unfold bind at 1 in H. unfold bind at 1.
  assert (K : forall parts cur0,
             walk true parts cur0 s = (Return (Some l), s) ->
             walk false parts cur0 s = (Return (Some l), s)).
  { intros parts [l0|] K; [now apply walk_true_false|].
    rewrite walk_none in K. destruct (ne parts); discriminate. }
  destruct (String.eqb p0 "..").
  - destruct (1 <? List.length (current_path s))%nat.
    + unfold bind at 1 in H. unfold bind at 1.
      destruct (_get_node_at_path_rec d _ false s) as [[c2|e] s2] eqn:E2; [|discriminate].
      pose proof (rec_pure _ _ _ _ _ E2); subst s2.
      unfold ret in *. now apply K.
    + unfold ret in *. now apply K.
  - unfold ret in *. now apply K.
Qed.

(** X23.  [write_file] makes no directory for the file it writes.  When
    the directory part of the path does not end with a separator, a
    [write_file] that returns [True] has created no directory: the
    directory of the path was there before the call, and the tree differs
    from the one before by the file and the modification time of that
    directory only. *)
Lemma write_file_needs_parent (path content d b : string) (s s' : FileSystem) :
  os_path_split path = (d, b) ->
  last (parse_path (or_dot d)) "" <> "" ->
  write_file path content s = (Return true, s') ->
  exists l nm cr md children,
    _get_node_at_path (or_dot d) false s = (Return (Some l), s)
    /\ get_at (root s) l = Some (Dir nm cr md children)
    /\ s' = write_result l b content children s.
Proof.
  intros Hs L H.
  destruct (write_file_success _ _ _ _ _ _ Hs H)
    as (_ & l & s1 & nm & cr & md & children & R & G & ->).
  unfold _get_node_at_path, recursion_limit in R.
  pose proof (rec_final _ _ _ _ _ _ L R) as ->.
  exists l, nm, cr, md, children. conjs; auto.
  now apply rec_true_false.
Qed.

(** X24.  A new file, written and deleted.  When the path (cut at a
    separator, its directory part not ending with one) resolves to
    nothing, a [write_file] of it that returns [True] followed by
    [delete_file] of the same path gives the tree back as it was, but for
    the modification time of the directory of the path; the space in use
    is again what it was. *)
Lemma write_then_delete (path content d b : string) (s s1 : FileSystem) :
  wf_cp s ->
  os_path_split path = (d, b) ->
  coherent path d b ->
  last (parse_path (or_dot d)) "" <> "" ->
  _get_node_at_path path false s = (Return None, s) ->
  write_file path content s = (Return true, s1) ->
  exists l t s2,
    _get_node_at_path (or_dot d) false s = (Return (Some l), s)
    /\ delete_file path s1 = (Return true, s2)
    /\ root s2 = update_at (set_modified t) l (root s)
    /\ _calculate_used_space (root s2) = _calculate_used_space (root s).
Proof.
  intros W Hs C L N H.
  destruct (write_file_success _ _ _ _ _ _ Hs H) as (V & _).
  destruct (write_file_needs_parent _ _ _ _ _ _ Hs L H)
    as (l & nm & cr & md & children & R & G & ->).
  assert (E0 : get_at (root s) l <> None) by congruence.
  destruct (coherent_resolve path d b s s l W V C R eq_refl E0) as [_ R0].
  rewrite R0 in N.
  assert (Lb : Dict.lookup b children = None).
  { rewrite get_at_app, G in N. cbn [get_at] in N.
    destruct (Dict.lookup b children); [discriminate|reflexivity]. }
  set (f := written b (clock (ticks s)) content (Dict.lookup b children)).
  assert (G1 : get_at (root (write_result l b content children s)) l
               = Some (Dir nm cr (clock (ticks s)) (children ++ [(b, f)]))).
  { unfold write_result; cbn [root].
    rewrite (get_at_update_same _ l _ _ (get_at_update_same _ l _ _ G)).
    cbn [set_child set_modified]. now rewrite (set_absent _ _ _ _ Lb). }
  assert (E1 : get_at (root (write_result l b content children s)) l <> None) by congruence.
  destruct (coherent_resolve path d b s (write_result l b content children s) l
              W V C R eq_refl E1) as [R1 _].
  destruct (written_is_file b (clock (ticks s)) content (Dict.lookup b children))
    as (fn & fc & Hf). fold f in Hf.
  assert (Lf : Dict.lookup b (children ++ [(b, f)]) = Some f).
  { now rewrite lookup_appended, Lb, String.eqb_refl. }
  exists l, (clock (S (ticks s))), (unlinked l b (write_result l b content children s)).
  assert (T : root (unlinked l b (write_result l b content children s))
              = update_at (set_modified (clock (S (ticks s)))) l (root s)).
  { unfold unlinked, write_result; cbn [root ticks]. rewrite !update_at_compose.
    apply (update_at_ext _ _ l _ _ G). cbn [set_child set_modified del_child].
    fold f. now rewrite (set_absent _ _ _ _ Lb), (remove_appended _ _ _ _ Lb). }
  conjs; auto.
  - unfold delete_file. rewrite Hs. unfold bind at 1. rewrite R1.
    unfold bind at 1, self at 1. unfold dir_content. rewrite G1, Lf, Hf. reflexivity.
  - rewrite T, (used_update_at _ l _ _ G), used_set_modified. lia.
Qed.

End Model.

Arguments Dir {time} name created modified content.
Arguments File {time} name created modified size content.
Arguments get_at {time} n l.
Arguments root {time} f.
Arguments current_path {time} f.
Arguments total_space {time} f.
Arguments used_space {time} f.
Arguments ticks {time} f.
Arguments _calculate_used_space {time} n.
Arguments dir_content {time} s r.
Arguments init {time} clock.
Arguments _get_node_at_path {time} clock frames path create_dirs.
Arguments _get_current_node {time} clock frames.
Arguments list_directory {time} clock os_path_split frames path.
Arguments change_directory {time} clock frames path.
Arguments create_directory {time} clock os_path_split frames path.
Arguments remove_directory {time} clock os_path_split frames path.
Arguments read_file {time} clock frames path.
Arguments write_file {time} clock os_path_split frames path content.
Arguments copy_file {time} clock os_path_split frames source destination.
Arguments delete_file {time} clock os_path_split frames path.
Arguments rename_file {time} clock os_path_split frames oldpath newname.
Arguments get_free_space {time}.
Arguments walk {time} clock create_dirs parts current.
Arguments wf_cp {time} s.
Arguments cwd_ok {time} clock frames s.
Arguments files_same {time} r r'.
Arguments entries_kept {time} r r'.
Arguments mkEntry {time} e_name e_type e_size e_created e_modified.
Arguments update_at {time} f l n.
Arguments set_modified {time} t n.
Arguments set_name {time} k n.
Arguments init_root {time} clock.
Arguments write_result {time} clock l basename content children s1.
Arguments tree_ok {time} n.
Arguments space_ok {time} s.
Arguments clean_cp {time} s.
Arguments names_valid {time} n.
Arguments get_current_path {time}.
Arguments get_full_path {time} path.
Arguments generate_tree {time} clock frames path show_files.
Arguments render {time} depth show_files prefix n.
Arguments denoted {time} clock frames path s.
Arguments is_dir {time} o.
Arguments is_file {time} o.
Arguments parent_content {time} clock os_path_split frames path s.
Arguments entry_at {time} clock os_path_split frames path s.
Arguments inserted {time} clock l k s.

(** ** The claims at work on the file system the simulator starts from *)

Lemma len_iter (c : ascii) (p : positive) :
  PyStr.len (Pos.iter (String c) EmptyString p) = Zpos p.
Proof.
  unfold PyStr.len. rewrite <- positive_nat_Z. f_equal.
  induction p as [|p IH] using Pos.peano_ind.
  - reflexivity.
  - rewrite Pos.iter_succ, Pos2Nat.inj_succ. simpl. now rewrite IH.
Qed.

Lemma len_big_content : PyStr.len big_content = 10485584%Z.
Proof. apply len_iter. Qed.

(** C10 at work: renaming the directory [DOS] of the root to [DOS]. *)
Lemma rename_to_own_name_fails_witness :
  rename_file demo_clock posix_split demo_frames "DOS" "DOS" (init demo_clock)
  = (Return false, init demo_clock).
Proof.
  eapply (rename_to_own_name_fails nat demo_clock posix_split demo_frames
            "DOS" "" "DOS" (init demo_clock) []).
  - vm_compute; reflexivity.
  - vm_compute; reflexivity.
  - reflexivity.
  - reflexivity.
Defined.

(** C2 at work: overwriting [README.TXT] (177 characters on record) with two
    characters frees 175. *)
Lemma write_file_out_of_space_witness :
  exists s',
    write_file demo_clock posix_split demo_frames "DOS/README.TXT" "hi" (init demo_clock)
    = (Return true, s')
    /\ (total_space s' - _calculate_used_space (root s'))%Z
       = (10485760 - 177 - (2 - 177))%Z.
Proof.
  refine (proj2 (proj2 (write_file_out_of_space nat demo_clock posix_split demo_frames
            "DOS/README.TXT" "hi" "DOS" "README.TXT" (init demo_clock) (init demo_clock)
            ["DOS"] "DOS" 2 3 [("README.TXT", File "README.TXT" 4 5 177 readme)]
            _ _ _ _)) _).
  - vm_compute; reflexivity.
  - vm_compute; reflexivity.
  - vm_compute; reflexivity.
  - reflexivity.
  - vm_compute; discriminate.
Defined.

(** C2 as stated fails.  A content longer than the free space, written
    under a directory that does not exist yet and that the resolution of the
    parent creates (the directory part ends with a separator that
    [os.path.split] keeps, so that the name before it is not the last part),
    raises [IOError] and leaves the new directory in the root: [NEW] for the
    path [NEW\/F] under [posixpath], [NEW] with [X] in it for the path
    [//NEW/X/F] under [ntpath]. *)
Lemma write_out_of_space_leaves_directory :
  let s := init demo_clock in
  let r := write_file demo_clock posix_split demo_frames "NEW\/F" big_content s in
  let r' := write_file demo_clock nt_split demo_frames "//NEW/X/F" big_content s in
  option_map (Dict.mem "NEW") (dir_content s (Some [])) = Some false
  /\ fst r = Raise IOError
  /\ dir_content (snd r) (Some ["NEW"]) = Some []
  /\ fst r' = Raise IOError
  /\ dir_content (snd r') (Some ["NEW"; "X"]) = Some [].
Proof.
  cbv zeta.
  rewrite (write_file_cases nat demo_clock posix_split demo_frames
             "NEW\/F" big_content "NEW\" "F" (init demo_clock)
             (snd (_get_node_at_path demo_clock demo_frames "NEW\" true (init demo_clock)))
             ["NEW"] "NEW" 6 7 []);
    [|vm_compute; reflexivity..].
  rewrite (write_file_cases nat demo_clock nt_split demo_frames
             "//NEW/X/F" big_content "//NEW/X/" "F" (init demo_clock)
             (snd (_get_node_at_path demo_clock demo_frames "//NEW/X/" true (init demo_clock)))
             ["NEW"; "X"] "X" 8 9 []);
    [|vm_compute; reflexivity..].
  rewrite len_big_content.
  replace (_ <? _)%Z with true by (vm_compute; reflexivity).
  vm_compute. repeat split; reflexivity.
Qed.

(** C7 at work: into [DOS] and back, from the root. *)
Lemma cd_sub_then_parent_witness :
  exists s1,
    change_directory demo_clock demo_frames "DOS" (init demo_clock) = (Return true, s1)
    /\ current_path s1 = ["C:"; "DOS"]
    /\ change_directory demo_clock demo_frames ".." s1 = (Return true, init demo_clock).
Proof.
  refine (cd_sub_then_parent nat demo_clock demo_frames (init demo_clock) "DOS" []
            "C:" 0 1 _ "DOS" 2 3 _ _ _ _ _ _).
  - exists []; reflexivity.
  - vm_compute; reflexivity.
  - vm_compute; reflexivity.
  - reflexivity.
  - reflexivity.
Defined.

(** C7 as stated fails.  A write under [A/../B] fails but leaves a
    directory [A] with a subdirectory named [..]; from [A], the call
    [change_directory("..")] for that subdirectory goes to the root, and
    the second one stays there: the current path was [C:\A] and ends as
    [C:]. *)
Lemma cd_roundtrip_fails_for_dotdot_entry :
  let s0 := init demo_clock in
  let s1 := snd (write_file demo_clock posix_split demo_frames "A/../B/F" "x" s0) in
  let s2 := snd (change_directory demo_clock demo_frames "A" s1) in
  let s3 := snd (change_directory demo_clock demo_frames ".." s2) in
  let s4 := snd (change_directory demo_clock demo_frames ".." s3) in
  current_path s2 = ["C:"; "A"]
  /\ _get_current_node demo_clock demo_frames s2 = (Return (Some ["A"]), s2)
  /\ dir_content s2 (Some ["A"; ".."]) = Some []
  /\ fst (change_directory demo_clock demo_frames ".." s2) = Return true
  /\ fst (change_directory demo_clock demo_frames ".." s3) = Return true
  /\ current_path s4 = ["C:"].
Proof. vm_compute. repeat split; reflexivity. Qed.

(** C9 at work: [DOS\] and [DOS\\README.TXT] resolve as [DOS] and
    [DOS\README.TXT] do. *)
Lemma resolve_skips_empty_parts_witness :
  _get_node_at_path demo_clock demo_frames "DOS\" false (init demo_clock)
  = _get_node_at_path demo_clock demo_frames "DOS" false (init demo_clock)
  /\ _get_node_at_path demo_clock demo_frames "DOS\\README.TXT" false (init demo_clock)
     = _get_node_at_path demo_clock demo_frames "DOS\README.TXT" false (init demo_clock).
Proof.
  destruct (resolve_skips_empty_parts nat demo_clock demo_frames "DOS" "README.TXT"
              backslash backslash (init demo_clock) eq_refl eq_refl) as [T D].
  split.
  - apply T. discriminate.
  - apply D. intros [E _]. discriminate E.
Defined.

(** C9 as stated fails, twice.  From the root, [..\.] is the root and
    [..\\.] is nothing; and in [DOS], the empty path is the root and the
    lone separator is [DOS]. *)
Lemma resolve_empty_parts_differ :
  let s0 := init demo_clock in
  let s1 := snd (change_directory demo_clock demo_frames "DOS" s0) in
  _get_node_at_path demo_clock demo_frames "..\." false s0 = (Return (Some []), s0)
  /\ _get_node_at_path demo_clock demo_frames "..\\." false s0 = (Return None, s0)
  /\ _get_node_at_path demo_clock demo_frames "" false s1 = (Return (Some []), s1)
  /\ _get_node_at_path demo_clock demo_frames "\" false s1 = (Return (Some ["DOS"]), s1).
Proof. vm_compute. repeat split; reflexivity. Qed.

(** ** [os.path.split] cuts at a separator *)

Lemma string_app_assoc (a b c : string) : ((a ++ b) ++ c)%string = (a ++ (b ++ c))%string.
Proof. induction a as [|x a IH]; simpl; [auto|now rewrite IH]. Qed.

Lemma string_app_nil_r (a : string) : (a ++ "")%string = a.
Proof. induction a as [|x a IH]; simpl; [auto|now rewrite IH]. Qed.

(** The head of [cut_last] is empty or ends with a separator, and the path
    is the head and the tail. *)
Lemma cut_last_spec (sep : ascii -> bool) (p h t : string) :
  cut_last sep p = (h, t) ->
  p = (h ++ t)%string
  /\ (h = "" \/ exists h0 c, h = (h0 ++ String c "")%string /\ sep c = true).
Proof.
  revert h t; induction p as [|c p IH]; intros h t H; simpl in H.
  - inversion H; subst; auto.
  - destruct (cut_last sep p) as [h' t'] eqn:E.
    destruct (IH h' t' eq_refl) as [-> T].
    destruct h' as [|c' h''].
    + destruct (sep c) eqn:S; inversion H; subst; simpl.
      * split; [reflexivity|]. right. exists "", c. auto.
      * auto.
    + inversion H; subst. split; [reflexivity|]. right.
      destruct T as [T|(h0 & c0 & T & S)]; [discriminate|].
      exists (String c h0), c0. simpl. now rewrite T.
Qed.

Lemma rstrip_spec (f : ascii -> bool) (h : string) :
  exists m, PyStr.all f m = true /\ h = (PyStr.rstrip f h ++ m)%string.
Proof.
  induction h as [|c h (m & A & E)]; [exists ""; auto|].
  cbn [PyStr.rstrip]. destruct (PyStr.rstrip f h) as [|c' r] eqn:R.
  - simpl in E. subst m. destruct (f c) eqn:F.
    + exists (String c h). simpl. now rewrite F, A.
    + exists h. auto.
  - exists m. split; [exact A|]. simpl in *. now f_equal.
Qed.

Lemma rstrip_empty_all (f : ascii -> bool) (h : string) :
  PyStr.rstrip f h = "" -> PyStr.all f h = true.
Proof.
  induction h as [|c h IH]; [reflexivity|]. cbn [PyStr.rstrip PyStr.all].
  destruct (PyStr.rstrip f h); [|discriminate].
  destruct (f c); [auto|discriminate].
Qed.

Lemma all_slash_sep (m : string) : PyStr.all is_slash m = true -> PyStr.all is_sep m = true.
Proof.
  induction m as [|c m IH]; [reflexivity|]. cbn [PyStr.all]. intros H.
  apply andb_prop in H. destruct H as [H1 H2]. rewrite (IH H2).
  unfold is_sep. unfold is_slash in H1. now rewrite H1.
Qed.

Lemma is_slash_sep (c : ascii) : is_slash c = true -> is_sep c = true.
Proof. unfold is_slash, is_sep. now intros ->. Qed.

(** Under [posixpath] every path with a valid last part is cut at a
    separator. *)
Lemma posix_split_coherent (p : string) :
  coherent p (fst (posix_split p)) (snd (posix_split p)).
Proof.
  unfold posix_split. destruct (cut_last is_slash p) as [h t] eqn:E.
  destruct (cut_last_spec _ _ _ _ E) as [-> T]. cbn [fst snd].
  destruct (String.eqb_spec h "") as [->|N]; cbn [negb andb].
  { left. auto. }
  destruct T as [T|(h0 & c & T & S)]; [congruence|].
  destruct (PyStr.all is_slash h) eqn:A; cbn [negb].
  - right. split; [exact N|]. exists "". conjs; auto.
    right. exists h0, c. split; [exact T|now apply is_slash_sep].
  - right. destruct (rstrip_spec is_slash h) as (m & Hm & Hh). split.
    + intros R. apply rstrip_empty_all in R. congruence.
    + exists m. conjs.
      * now apply all_slash_sep.
      * rewrite <- string_app_assoc. now rewrite <- Hh.
      * destruct m as [|c' m']; [|left; discriminate].
        right. exists h0, c. rewrite string_app_nil_r in Hh. rewrite <- Hh.
        split; [exact T|now apply is_slash_sep].
Qed.

(** *** Under [ntpath] *)

Lemma take_drop (n : nat) (p : string) : p = (PyStr.take n p ++ PyStr.drop n p)%string.
Proof.
  revert p; induction n as [|n IH]; intros [|c p]; simpl; auto. now rewrite <- IH.
Qed.

Lemma find_from_drop (c : ascii) (s : string) :
  forall k i, PyStr.find_from c k s = Some i -> exists r, PyStr.drop i s = String c r.
Proof.
  induction s as [|d s IH]; intros k i H; simpl in H; [discriminate|].
  assert (J : forall k', option_map S (PyStr.find_from c k' s) = Some i ->
              exists r, PyStr.drop i (String d s) = String c r).
  { intros k' E. destruct (PyStr.find_from c k' s) as [j|] eqn:F; [|discriminate].
    inversion E; subst. simpl. eapply IH; eauto. }
  destruct k as [|k]; [|eauto].
  destruct (Ascii.eqb_spec d c) as [->|N]; [|eauto].
  inversion H; subst. simpl. eauto.
Qed.

Lemma drop_replace (a b : ascii) (n : nat) :
  forall s, PyStr.drop n (PyStr.replace a b s) = PyStr.replace a b (PyStr.drop n s).
Proof. induction n as [|n IH]; intros [|c s]; simpl; auto. Qed.

(** A separator of the normalized path is a separator of the path. *)
Lemma find_sep_drop (p : string) (k i : nat) :
  PyStr.find_from backslash k (PyStr.replace slash backslash p) = Some i ->
  exists c r, PyStr.drop i p = String c r /\ is_sep c = true.
Proof.
  intros H. apply find_from_drop in H. destruct H as [r H].
  rewrite drop_replace in H. destruct (PyStr.drop i p) as [|c r']; [discriminate|].
  exists c, r'. split; [reflexivity|]. simpl in H. inversion H as [[E R]].
  unfold is_sep. destruct (Ascii.eqb_spec c slash); [reflexivity|].
  subst c. now rewrite Ascii.eqb_refl.
Qed.

(** What [ntpath.splitdrive] returns: no drive, a drive alone, a drive and a
    rest that starts with a separator, or a drive letter with its colon. *)
Lemma nt_splitdrive_spec (p d r : string) :
  nt_splitdrive p = (d, r) ->
  p = (d ++ r)%string
  /\ (d = "" \/ r = ""
      \/ (exists c r', r = String c r' /\ is_sep c = true)
      \/ (exists x, d = String x ":")).
Proof.
  unfold nt_splitdrive. intros H.
  destruct (2 <=? String.length p)%nat; [|inversion H; auto].
  destruct (String.eqb _ "\\").
  - destruct (PyStr.find_from backslash _ _) as [index|]; [|inversion H; subst].
    + destruct (PyStr.find_from backslash (index + 1) _) as [index2|] eqn:F;
        inversion H; subst.
      * split; [apply take_drop|].
        destruct (find_sep_drop _ _ _ F) as (c & r' & E & S).
        right; right; left. exists c, r'. auto.
      * rewrite string_app_nil_r. auto.
    + rewrite string_app_nil_r. auto.
  - destruct (String.eqb_spec (PyStr.take 1 (PyStr.drop 1 (PyStr.replace slash backslash p))) ":")
      as [E|_]; [|inversion H; auto].
    apply pair_equal_spec in H. destruct H as [<- <-].
    split; [apply (take_drop 2)|]. right; right; right.
    destruct p as [|x [|y p]]; try discriminate E.
    exists x. simpl in E |- *.
    destruct (Ascii.eqb_spec y slash); [discriminate E|]. now injection E as ->.
Qed.

Lemma cut_last_head_sep (sep : ascii -> bool) (c : ascii) (r : string) :
  sep c = true -> fst (cut_last sep (String c r)) <> "".
Proof.
  intros S. simpl. destruct (cut_last sep r) as [[|c' h] t]; [rewrite S|]; discriminate.
Qed.

(** Under [ntpath] a path with a last part is cut at a separator, unless
    it is a drive letter, its colon and the last part at once. *)
Lemma nt_split_coherent (p : string) :
  snd (nt_split p) <> "" ->
  coherent p (fst (nt_split p)) (snd (nt_split p))
  \/ exists x, p = String x (String ":" (snd (nt_split p)))
               /\ fst (nt_split p) = String x ":".
Proof.
  unfold nt_split. destruct (nt_splitdrive p) as [d r] eqn:D.
  destruct (nt_splitdrive_spec _ _ _ D) as [-> C].
  destruct (cut_last is_sep r) as [h t] eqn:E. cbn [fst snd]. intros T.
  destruct (cut_last_spec _ _ _ _ E) as [R Hh].
  destruct Hh as [->|(h0 & c & Hh & S)].
  - simpl in R. subst r. cbn [PyStr.rstrip]. rewrite string_app_nil_r.
    destruct C as [->|[->|[(c & r' & -> & S)|(x & ->)]]].
    + left. left. auto.
    + congruence.
    + pose proof (cut_last_head_sep is_sep c r' S) as N. rewrite E in N. now elim N.
    + right. exists x. auto.
  - left. right. subst r.
    destruct (PyStr.rstrip is_sep h) as [|c' h'] eqn:RS.
    + split.
      * rewrite Hh. destruct d; [destruct h0|]; discriminate.
      * exists "". conjs; auto.
        -- simpl. now rewrite string_app_assoc.
        -- right. exists (d ++ h0)%string, c. rewrite Hh, string_app_assoc. auto.
    + destruct (rstrip_spec is_sep h) as (m & A & Hm). rewrite RS in Hm. split.
      * destruct d; discriminate.
      * exists m. conjs; auto.
        -- rewrite Hm. now rewrite !string_app_assoc.
        -- destruct m as [|cm m']; [|left; discriminate].
           right. rewrite string_app_nil_r in Hm. rewrite <- Hm.
           exists (d ++ h0)%string, c. rewrite Hh, string_app_assoc. auto.
Qed.

(** X1.  C1 under [posixpath], for every path: in a state whose current path
    starts at the drive, a write that succeeds is read back, and the size
    on record is the length of the content. *)
Lemma write_then_read_posix (time : Type) (clock : nat -> time) (frames : nat)
    (path content : string) (s s' : FileSystem time) :
  wf_cp s ->
  write_file clock posix_split frames path content s = (Return true, s') ->
  exists l nm cr md,
    _get_node_at_path clock frames path false s' = (Return (Some l), s')
    /\ get_at (root s') l = Some (File nm cr md (PyStr.len content) content)
    /\ read_file clock frames path s' = (Return (Some content), s').
Proof.
  intros W H.
  apply (write_then_read_coherent time clock posix_split frames path content
           (fst (posix_split path)) (snd (posix_split path)) s s'); auto.
  - now destruct (posix_split path).
  - apply posix_split_coherent.
Qed.

(** X2.  C1 under [ntpath], for every path that is not a drive letter, its
    colon and the last part at once. *)
Lemma write_then_read_nt (time : Type) (clock : nat -> time) (frames : nat)
    (path content : string) (s s' : FileSystem time) :
  wf_cp s ->
  (forall x, path <> String x (String ":" (snd (nt_split path)))) ->
  write_file clock nt_split frames path content s = (Return true, s') ->
  exists l nm cr md,
    _get_node_at_path clock frames path false s' = (Return (Some l), s')
    /\ get_at (root s') l = Some (File nm cr md (PyStr.len content) content)
    /\ read_file clock frames path s' = (Return (Some content), s').
Proof.
  intros W N H.
  assert (V : snd (nt_split path) <> "").
  { intros E. unfold write_file in H. destruct (nt_split path) as [d b].
    simpl in E; subst b. discriminate H. }
  destruct (nt_split_coherent path V) as [C|(x & E & _)]; [|now elim (N x)].
  apply (write_then_read_coherent time clock nt_split frames path content
           (fst (nt_split path)) (snd (nt_split path)) s s'); auto.
  now destruct (nt_split path).
Qed.

(** C1 at work: a new file in [DOS]. *)
Lemma write_then_read_witness :
  let s' := snd (write_file demo_clock posix_split demo_frames "DOS/NEW.TXT" "hello"
                   (init demo_clock)) in
  exists l nm cr md,
    _get_node_at_path demo_clock demo_frames "DOS/NEW.TXT" false s' = (Return (Some l), s')
    /\ get_at (root s') l = Some (File nm cr md (PyStr.len "hello") "hello")
    /\ read_file demo_clock demo_frames "DOS/NEW.TXT" s' = (Return (Some "hello"), s').
Proof.
  refine (write_then_read nat demo_clock posix_split demo_frames
            "DOS/NEW.TXT" "hello" "DOS" "NEW.TXT" (init demo_clock) _ _ _ _ _).
  - exists []; reflexivity.
  - vm_compute; reflexivity.
  - right. split; [discriminate|]. exists "/". conjs; try reflexivity. left; discriminate.
  - vm_compute; reflexivity.
Defined.

(** C1 as stated fails under [ntpath]: the path [C:f] is cut into the drive
    [C:] and the name [f]; the write succeeds and puts [f] in the root, and
    [read_file] of the same path, whose only part [parse_path] cuts down to
    the drive, finds the root and returns nothing. *)
Lemma write_then_read_drive_relative :
  let r := write_file demo_clock nt_split demo_frames "C:f" "x" (init demo_clock) in
  nt_split "C:f" = ("C:", "f")
  /\ is_valid_filename "f" = true
  /\ fst r = Return true
  /\ fst (read_file demo_clock demo_frames "C:f" (snd r)) = Return None
  /\ fst (read_file demo_clock demo_frames "f" (snd r)) = Return (Some "x").
Proof. vm_compute. repeat split; reflexivity. Qed.

(** C3 as stated fails where a path ends with a separator.  The last part
    of [DOS\] is empty and is no key of [DOS], and the resolution returns
    [DOS]; with [create_dirs], [NEW\] creates [NEW], the last part that has
    a name, and returns it; and [DOS\README.TXT\] returns the file, though
    a part comes after it. *)
Lemma resolve_trailing_separator :
  let s := init demo_clock in
  let r := _get_node_at_path demo_clock demo_frames "NEW\" true s in
  parse_path "DOS\" = ["DOS"; ""]
  /\ option_map (Dict.mem "") (dir_content s (Some ["DOS"])) = Some false
  /\ _get_node_at_path demo_clock demo_frames "DOS\" false s = (Return (Some ["DOS"]), s)
  /\ dir_content s (Some ["NEW"]) = None
  /\ fst r = Return (Some ["NEW"])
  /\ dir_content (snd r) (Some ["NEW"]) = Some []
  /\ _get_node_at_path demo_clock demo_frames "DOS\README.TXT\" false s
     = (Return (Some ["DOS"; "README.TXT"]), s).
Proof. vm_compute. repeat split; reflexivity. Qed.

(** C5 at work: the path [DOS] resolves to a directory that holds a file,
    and is not removed. *)
Lemma remove_directory_never_recursive_witness :
  remove_directory demo_clock posix_split demo_frames "DOS" (init demo_clock)
  = (Return false, init demo_clock).
Proof.
  eapply (proj1 (remove_directory_never_recursive nat demo_clock posix_split demo_frames
                   "DOS" "" "DOS" (init demo_clock) eq_refl) ["DOS"]).
  - exists []; reflexivity.
  - reflexivity.
  - left; split; reflexivity.
  - vm_compute; reflexivity.
  - reflexivity.
Defined.

(** C5 as stated fails where the path does not resolve to the entry that
    [remove_directory] looks up.  [write_file] of [A/../B/F] raises, and
    leaves a directory [A] with an empty directory named [..] in it; with
    [A] the current directory, the path [..] resolves to the root, a
    directory with two children, and [remove_directory] of [..] returns
    [True] and removes the entry [..] of [A].  Under [ntpath], [C:F]
    resolves to the root, and [remove_directory] of [C:F] removes the empty
    directory [F] of the root. *)
Lemma remove_directory_of_other_entry :
  let s0 := init demo_clock in
  let w := write_file demo_clock posix_split demo_frames "A/../B/F" "x" s0 in
  let c := change_directory demo_clock demo_frames "A" (snd w) in
  let s2 := snd c in
  let r := remove_directory demo_clock posix_split demo_frames ".." s2 in
  let t1 := snd (create_directory demo_clock nt_split demo_frames "F" s0) in
  let r' := remove_directory demo_clock nt_split demo_frames "C:F" t1 in
  fst w = Raise ValueError
  /\ fst c = Return true
  /\ _get_node_at_path demo_clock demo_frames ".." false s2 = (Return (Some []), s2)
  /\ option_map (map fst) (dir_content s2 (Some [])) = Some ["DOS"; "A"]
  /\ option_map (map fst) (dir_content s2 (Some ["A"])) = Some [".."]
  /\ fst r = Return true
  /\ dir_content (snd r) (Some ["A"]) = Some []
  /\ _get_node_at_path demo_clock demo_frames "C:F" false t1 = (Return (Some []), t1)
  /\ option_map (map fst) (dir_content t1 (Some [])) = Some ["DOS"; "F"]
  /\ fst r' = Return true
  /\ option_map (map fst) (dir_content (snd r') (Some [])) = Some ["DOS"].
Proof. vm_compute. repeat split; reflexivity. Qed.

(** C3 at work: [NEW\SUB], with [create_dirs], in a root without [NEW]: the
    directory [NEW] is created, [SUB] is not, and the path resolves to
    nothing afterwards; the files and the used space are what they were. *)
Lemma resolve_never_creates_last_part_witness :
  let s := init demo_clock in
  let s' := snd (_get_node_at_path demo_clock demo_frames "NEW\SUB" true s) in
  dir_content s' (Some ["NEW"]) = Some []
  /\ files_same (root s) (root s')
  /\ entries_kept (root s) (root s')
  /\ _calculate_used_space (root s') = _calculate_used_space (root s)
  /\ get_at (root s') ["NEW"; "SUB"] = None
  /\ _get_node_at_path demo_clock demo_frames "NEW\SUB" false s' = (Return None, s').
Proof.
  cbv zeta.
  destruct (resolve_never_creates_last_part nat demo_clock demo_frames "NEW\SUB" true
              (init demo_clock)
              (snd (_get_node_at_path demo_clock demo_frames "NEW\SUB" true (init demo_clock)))
              (Return None)) as (_ & _ & F & K & U & _ & N & _).
  - vm_compute; reflexivity.
  - destruct (N []) as (_ & _ & T & _).
    + exists []; reflexivity.
    + vm_compute; reflexivity.
    + destruct T as (_ & T1 & T2).
      * vm_compute; reflexivity.
      * vm_compute; discriminate.
      * conjs; auto.
Defined.

(** C8 at work, on the file system the simulator starts from. *)
Lemma failures_are_results_witness :
  change_directory demo_clock demo_frames "NOWHERE" (init demo_clock)
  = (Return false, init demo_clock)
  /\ read_file demo_clock demo_frames "DOS" (init demo_clock)
     = (Return None, init demo_clock)
  /\ remove_directory demo_clock posix_split demo_frames "DOS" (init demo_clock)
     = (Return false, init demo_clock)
  /\ write_file demo_clock posix_split demo_frames "a*b" "x" (init demo_clock)
     = (Raise ValueError, init demo_clock).
Proof.
  destruct (failures_are_results nat demo_clock posix_split demo_frames (init demo_clock))
    as [F _].
  destruct F
    as (_ & C & _ & _ & _ & R & _ & D & _ & _ & _ & _ & _ & _ & _ & _ & _ & _ & V & _).
  - split; [exists []; reflexivity|]. exists []. vm_compute; reflexivity.
  - conjs.
    + apply C. vm_compute; reflexivity.
    + apply D. vm_compute; reflexivity.
    + apply R. intros nm cr md E. vm_compute in E. discriminate E.
    + apply V. reflexivity.
Defined.

(** C8 as stated fails twice.  For [write_file]: an invalid file name and
    a parent that does not resolve both end in [ValueError], under
    [posixpath] and under [ntpath].  And for the other operations, once the
    current path leads nowhere: with a new directory [A] the current
    directory, [remove_directory] of [C:/A] returns [True] and removes it;
    the current path is still [C:\A], and [read_file],
    [change_directory], [list_directory] and [copy_file] of a relative path
    end in [TypeError]. *)
Lemma operations_raise :
  let s := init demo_clock in
  let s1 := snd (create_directory demo_clock posix_split demo_frames "A" s) in
  let s2 := snd (change_directory demo_clock demo_frames "A" s1) in
  let r3 := remove_directory demo_clock posix_split demo_frames "C:/A" s2 in
  let s3 := snd r3 in
  fst (write_file demo_clock posix_split demo_frames "a*b" "x" s) = Raise ValueError
  /\ fst (write_file demo_clock nt_split demo_frames "a*b" "x" s) = Raise ValueError
  /\ fst (write_file demo_clock posix_split demo_frames "NOWHERE/F" "x" s) = Raise ValueError
  /\ fst (write_file demo_clock nt_split demo_frames "NOWHERE/F" "x" s) = Raise ValueError
  /\ _get_current_node demo_clock demo_frames s2 = (Return (Some ["A"]), s2)
  /\ fst r3 = Return true
  /\ current_path s3 = ["C:"; "A"]
  /\ _get_current_node demo_clock demo_frames s3 = (Return None, s3)
  /\ fst (read_file demo_clock demo_frames "F" s3) = Raise TypeError
  /\ fst (change_directory demo_clock demo_frames "DOS" s3) = Raise TypeError
  /\ fst (list_directory demo_clock posix_split demo_frames "DOS" s3) = Raise TypeError
  /\ fst (copy_file demo_clock posix_split demo_frames "F" "G" s3) = Raise TypeError.
Proof. vm_compute. repeat split; reflexivity. Qed.

(** C4 fails in the code.  From the root, [change_directory("c:")] resolves
    the path from the drive, as [parse_path] upper-cases it, but takes it
    for a relative path when it updates the current path, which it tests
    for the prefix [C:] as written: the call returns [True] and leaves the
    current path [C:\C:], which leads to no entry. *)
Theorem change_directory_lowercase_drive :
  let s := init demo_clock in
  let r := change_directory demo_clock demo_frames "c:" s in
  _get_current_node demo_clock demo_frames s = (Return (Some []), s)
  /\ fst r = Return true
  /\ current_path (snd r) = ["C:"; "C:"]
  /\ _get_current_node demo_clock demo_frames (snd r) = (Return None, snd r)
  /\ fst (read_file demo_clock demo_frames "DOS" (snd r)) = Raise TypeError.
Proof. vm_compute. repeat split; reflexivity. Qed.

(** C6 fails in the code.  The listing of the root by the path [.] has a
    [..] entry: the entry is left out for the paths [C:] and [C:\] as
    written, not for the root however it is reached. *)
Theorem list_directory_root_by_dot :
  fst (list_directory demo_clock posix_split demo_frames "." (init demo_clock))
  = Return [mkEntry "." dir 0 0 1; mkEntry ".." dir 0 0 1; mkEntry "DOS" dir 0 2 3]
  /\ fst (list_directory demo_clock posix_split demo_frames "C:" (init demo_clock))
     = Return [mkEntry "." dir 0 0 1; mkEntry "DOS" dir 0 2 3].
Proof. vm_compute. split; reflexivity. Qed.

(** ** The further properties at work *)

(** A write under [posixpath], read back. *)
Lemma write_then_read_posix_witness :
  let s' := snd (write_file demo_clock posix_split demo_frames "DOS/A.TXT" "abc"
                   (init demo_clock)) in
  exists l nm cr md,
    _get_node_at_path demo_clock demo_frames "DOS/A.TXT" false s' = (Return (Some l), s')
    /\ get_at (root s') l = Some (File nm cr md (PyStr.len "abc") "abc")
    /\ read_file demo_clock demo_frames "DOS/A.TXT" s' = (Return (Some "abc"), s').
Proof.
  apply (write_then_read_posix nat demo_clock demo_frames "DOS/A.TXT" "abc" (init demo_clock)).
  - exists []; reflexivity.
  - vm_compute; reflexivity.
Defined.

(** A write under [ntpath], read back. *)
Lemma write_then_read_nt_witness :
  let s' := snd (write_file demo_clock nt_split demo_frames "C:\DOS\A.TXT" "abc"
                   (init demo_clock)) in
  exists l nm cr md,
    _get_node_at_path demo_clock demo_frames "C:\DOS\A.TXT" false s' = (Return (Some l), s')
    /\ get_at (root s') l = Some (File nm cr md (PyStr.len "abc") "abc")
    /\ read_file demo_clock demo_frames "C:\DOS\A.TXT" s' = (Return (Some "abc"), s').
Proof.
  apply (write_then_read_nt nat demo_clock demo_frames "C:\DOS\A.TXT" "abc" (init demo_clock)).
  - exists []; reflexivity.
  - intros x E. vm_compute in E. discriminate E.
  - vm_compute; reflexivity.
Defined.

(** The listing of [DOS] from the root: [.], [..] with the time stamps of
    the root, and the file. *)
Lemma list_directory_entries_witness :
  list_directory demo_clock posix_split demo_frames "DOS" (init demo_clock)
  = (Return [mkEntry "." dir 0 2 3; mkEntry ".." dir 0 0 1;
             mkEntry "README.TXT" file 177 4 5], init demo_clock).
Proof.
  apply (list_directory_entries nat demo_clock posix_split demo_frames "DOS" (init demo_clock)
           ["DOS"] "DOS" 2 3
           [("README.TXT", File "README.TXT" 4 5 177 (readme))] (Some []));
    vm_compute; reflexivity.
Defined.

(** [change_directory] to [C:\DOS] from the root. *)
Lemma change_directory_lands_witness :
  let s' := snd (change_directory demo_clock demo_frames "C:\DOS" (init demo_clock)) in
  exists l nm cr md content,
    _get_node_at_path demo_clock demo_frames "C:\DOS" false (init demo_clock)
    = (Return (Some l), init demo_clock)
    /\ get_at (root (init demo_clock)) l = Some (Dir nm cr md content)
    /\ root s' = root (init demo_clock)
    /\ wf_cp s'
    /\ _get_current_node demo_clock demo_frames s' = (Return (Some l), s').
Proof.
  apply (change_directory_lands nat demo_clock demo_frames "C:\DOS" (init demo_clock)).
  - exists []; reflexivity.
  - right; right; reflexivity.
  - vm_compute; reflexivity.
Defined.

(** [change_directory] to a directory that does not exist. *)
Lemma change_directory_false_witness :
  snd (change_directory demo_clock demo_frames "NOWHERE" (init demo_clock)) = init demo_clock.
Proof.
  apply (change_directory_false nat demo_clock demo_frames "NOWHERE" (init demo_clock)).
  vm_compute; reflexivity.
Defined.

(** The file the simulator starts with is on record with 177 characters
    and holds 169: the size of a file is the length of its content once it
    has been written, not before. *)
Lemma seed_readme_size (time : Type) (clock : nat -> time) :
  get_at (root (init clock)) ["DOS"; "README.TXT"]
  = Some (File "README.TXT" (clock 4) (clock 5) 177 readme)
  /\ PyStr.len readme = 169%Z
  /\ used_space (init clock) = 177%Z
  /\ fst (get_free_space (init clock)) = Return (10485760 - 177)%Z.
Proof. repeat split; reflexivity. Qed.

(** ** The size of a file, as it is shown *)

Lemma round_half_even_near (a b : Z) :
  (0 < b)%Z -> (2 * Z.abs (b * round_half_even a b - a) <= b)%Z.
Proof.
  intros B. unfold round_half_even.
  pose proof (Z.div_mod a b ltac:(lia)) as D.
  pose proof (Z.mod_pos_bound a b B) as M.
  destruct (Z.ltb_spec (2 * (a mod b)) b); [lia|].
  destruct (Z.ltb_spec b (2 * (a mod b))); [lia|].
  destruct (Z.even (a / b)); lia.
Qed.

(** Below 2 to the 53 an integer is a float. *)
Lemma round53_small (n : Z) : (0 <= n < 9007199254740992)%Z -> round53 n = n.
Proof.
  intros H. unfold round53.
  destruct (Z.leb_spec (Z.log2 n - 52) 0) as [|L]; [reflexivity|].
  exfalso. destruct (Z.eq_dec n 0) as [->|N]; [simpl in L; lia|].
  assert (P : (Z.log2 n < 53)%Z).
  { apply Z.log2_lt_pow2; [lia|]. change (2 ^ 53)%Z with 9007199254740992%Z. lia. }
  lia.
Qed.

Lemma fixed1_small (n unit : Z) :
  (0 <= n < 9007199254740992)%Z -> (1 <= unit)%Z ->
  fixed1 n unit
  = Some (str_int (round_half_even (10 * n) unit / 10) ++ "."
          ++ str_int (round_half_even (10 * n) unit mod 10))%string.
Proof.
  intros H U. unfold fixed1. rewrite (round53_small n H).
  assert (B : (9007199254740992 <= 2 ^ 1024)%Z) by (vm_compute; discriminate).
  destruct (Z.leb_spec (2 ^ 1024 * unit) n); [nia|reflexivity].
Qed.

(** X20.  The size [format_file_size] shows is within half a tenth of the
    size in its unit, for a size below 2 to the 53 (9007199254740992),
    where the integer is a float: from 1024 bytes on, the text is a number
    of tenths [t], written with one decimal, and the unit ([KB] below 1024
    times 1024 bytes, [MB] from there on), and [t] tenths of the unit
    differ from the size by at most a twentieth of the unit. *)
Lemma format_file_size_error (n : Z) :
  (1024 <= n < 9007199254740992)%Z ->
  let unit := if (n <? 1024 * 1024)%Z then 1024%Z else (1024 * 1024)%Z in
  let name := if (n <? 1024 * 1024)%Z then " KB" else " MB" in
  exists t,
    format_file_size n
    = Some (str_int (t / 10) ++ "." ++ str_int (t mod 10) ++ name)%string
    /\ (0 <= t mod 10 < 10)%Z
    /\ (2 * Z.abs (unit * t - 10 * n) <= unit)%Z.
Proof.
  intros H unit name. unfold format_file_size.
  destruct (Z.ltb_spec n 1024); [lia|]. subst unit name.
  destruct (Z.ltb_spec n (1024 * 1024)).
  - exists (round_half_even (10 * n) 1024). split; [|split].
    + rewrite fixed1_small by lia. cbn [option_map]. now rewrite !string_app_assoc.
    + apply Z.mod_pos_bound. lia.
    + apply round_half_even_near. lia.
  - exists (round_half_even (10 * n) (1024 * 1024)). split; [|split].
    + rewrite fixed1_small by lia. cbn [option_map]. now rewrite !string_app_assoc.
    + apply Z.mod_pos_bound. lia.
    + apply round_half_even_near. lia.
Qed.

Lemma format_file_size_error_witness :
  exists t,
    format_file_size 1536
    = Some (str_int (t / 10) ++ "." ++ str_int (t mod 10) ++ " KB")%string
    /\ (0 <= t mod 10 < 10)%Z
    /\ (2 * Z.abs (1024 * t - 10 * 1536) <= 1024)%Z.
Proof. apply (format_file_size_error 1536). lia. Defined.

(** X21.  The sizes of the last fifty-one bytes below 1024 times 1024 are
    shown as [1024.0 KB]: the unit is chosen before the number is
    rounded. *)
Lemma format_file_size_below_mb (n : Z) :
  (1048525 <= n < 1048576)%Z -> format_file_size n = Some "1024.0 KB".
Proof.
  intros H. unfold format_file_size.
  destruct (Z.ltb_spec n 1024); [lia|].
  destruct (Z.ltb_spec n (1024 * 1024)); [|lia].
  assert (E : round_half_even (10 * n) 1024 = 10240%Z).
  { unfold round_half_even.
    assert (Q : (10 * n / 1024 = 10239)%Z).
    { symmetry. apply Z.div_unique with (r := (10 * n - 10239 * 1024)%Z); lia. }
    assert (R : ((10 * n) mod 1024 = 10 * n - 10239 * 1024)%Z).
    { rewrite Z.mod_eq by lia. rewrite Q. lia. }
    rewrite Q, R.
    destruct (Z.ltb_spec (2 * (10 * n - 10239 * 1024)) 1024); [lia|].
    destruct (Z.ltb_spec 1024 (2 * (10 * n - 10239 * 1024))); [reflexivity|lia]. }
  rewrite fixed1_small by lia. rewrite E. reflexivity.
Qed.

Lemma format_file_size_below_mb_witness : format_file_size 1048575 = Some "1024.0 KB".
Proof. apply format_file_size_below_mb. lia. Defined.

(** From 2 to the 53 on, the size is rounded to a float before it is
    divided, and the text may be further from the size than half a tenth
    of the unit; from 2 to the 1044 on there is no text. *)
Lemma format_file_size_large :
  format_file_size 9007199255212851 = Some "8589934592.5 MB"
  /\ (2 * Z.abs (1024 * 1024 * 85899345925 - 10 * 9007199255212851) > 1024 * 1024)%Z
  /\ format_file_size (2 ^ 1044 - 1) = None
  /\ format_file_size (2 ^ 1044 - 2 ^ 991) <> None.
Proof.
  split; [vm_compute; reflexivity|]. split; [vm_compute; reflexivity|].
  split; [vm_compute; reflexivity|]. intros E. vm_compute in E. discriminate E.
Qed.

(** ** The further properties at work, continued *)

Lemma init_tree_ok : tree_ok (root (init demo_clock)).
Proof. exact (proj1 (init_ok nat demo_clock)). Qed.

(** A new directory [NEW] in [DOS]. *)
Lemma create_directory_creates_witness :
  let s := init demo_clock in
  let s' := snd (create_directory demo_clock posix_split demo_frames "DOS/NEW" s) in
  exists l content t1 t2,
    dir_content s (Some l) = Some content
    /\ Dict.lookup "NEW" content = None
    /\ dir_content s' (Some l) = Some (content ++ [("NEW", Dir "NEW" t1 t2 [])])
    /\ _get_node_at_path demo_clock demo_frames "DOS/NEW" false s'
       = (Return (Some (l ++ ["NEW"])), s')
    /\ get_at (root s') (l ++ ["NEW"]) = Some (Dir "NEW" t1 t2 [])
    /\ _calculate_used_space (root s') = _calculate_used_space (root s)
    /\ create_directory demo_clock posix_split demo_frames "DOS/NEW" s' = (Return false, s').
Proof.
  apply (create_directory_creates nat demo_clock posix_split demo_frames
           "DOS/NEW" "DOS" "NEW" (init demo_clock)).
  - exists []; reflexivity.
  - vm_compute; reflexivity.
  - right. split; [discriminate|]. exists "/". conjs; try reflexivity. left; discriminate.
  - vm_compute; reflexivity.
Defined.

(** The directory [NEW] of [DOS], created and removed. *)
Lemma create_then_remove_witness :
  let s := init demo_clock in
  let s1 := snd (create_directory demo_clock posix_split demo_frames "DOS/NEW" s) in
  exists l t s2,
    _get_node_at_path demo_clock demo_frames (or_dot "DOS") false s = (Return (Some l), s)
    /\ remove_directory demo_clock posix_split demo_frames "DOS/NEW" s1 = (Return true, s2)
    /\ root s2 = update_at (set_modified t) l (root s)
    /\ dir_content s2 (Some l) = dir_content s (Some l)
    /\ current_path s2 = current_path s.
Proof.
  apply (create_then_remove nat demo_clock posix_split demo_frames
           "DOS/NEW" "DOS" "NEW" (init demo_clock)).
  - exists []; reflexivity.
  - vm_compute; reflexivity.
  - right. split; [discriminate|]. exists "/". conjs; try reflexivity. left; discriminate.
  - vm_compute; reflexivity.
Defined.

(** The file the simulator starts with, deleted. *)
Lemma delete_file_deletes_witness :
  let s := init demo_clock in
  let s' := snd (delete_file demo_clock posix_split demo_frames "DOS/README.TXT" s) in
  exists l content fn fc fm sz c,
    dir_content s (Some l) = Some content
    /\ Dict.lookup "README.TXT" content = Some (File fn fc fm sz c)
    /\ dir_content s' (Some l) = Some (Dict.remove "README.TXT" content)
    /\ Dict.lookup "README.TXT" (Dict.remove "README.TXT" content) = None
    /\ _calculate_used_space (root s') = (_calculate_used_space (root s) - sz)%Z
    /\ (is_valid_filename "README.TXT" = true ->
        coherent "DOS/README.TXT" "DOS" "README.TXT" ->
        _get_node_at_path demo_clock demo_frames "DOS/README.TXT" false s' = (Return None, s')
        /\ read_file demo_clock demo_frames "DOS/README.TXT" s' = (Return None, s')).
Proof.
  apply (delete_file_deletes nat demo_clock posix_split demo_frames
           "DOS/README.TXT" "DOS" "README.TXT" (init demo_clock)).
  - exists []; reflexivity.
  - exact init_tree_ok.
  - vm_compute; reflexivity.
  - vm_compute; reflexivity.
Defined.

(** The file the simulator starts with, renamed. *)
Lemma rename_file_renames_witness :
  let s := init demo_clock in
  let s' := snd (rename_file demo_clock posix_split demo_frames "DOS/README.TXT" "R.TXT" s) in
  is_valid_filename "R.TXT" = true
  /\ exists l content n,
       dir_content s (Some l) = Some content
       /\ Dict.lookup "README.TXT" content = Some n
       /\ Dict.lookup "R.TXT" content = None
       /\ dir_content s' (Some l)
          = Some (Dict.remove "README.TXT" content ++ [("R.TXT", set_name "R.TXT" n)])
       /\ get_at (root s') (l ++ ["R.TXT"]) = Some (set_name "R.TXT" n)
       /\ get_at (root s') (l ++ ["README.TXT"]) = None
       /\ _calculate_used_space (root s') = _calculate_used_space (root s).
Proof.
  apply (rename_file_renames nat demo_clock posix_split demo_frames
           "DOS/README.TXT" "R.TXT" "DOS" "README.TXT" (init demo_clock)).
  - exact init_tree_ok.
  - vm_compute; reflexivity.
  - vm_compute; reflexivity.
Defined.

(** The file the simulator starts with, copied to the root. *)
Lemma copy_file_copies_witness :
  let s := init demo_clock in
  let s' := snd (copy_file demo_clock posix_split demo_frames "DOS/README.TXT" "COPY.TXT" s) in
  exists c,
    read_file demo_clock demo_frames "DOS/README.TXT" s = (Return (Some c), s)
    /\ write_file demo_clock posix_split demo_frames "COPY.TXT" c s = (Return true, s')
    /\ read_file demo_clock demo_frames "COPY.TXT" s' = (Return (Some c), s').
Proof.
  apply (copy_file_copies nat demo_clock posix_split demo_frames
           "DOS/README.TXT" "COPY.TXT" "" "COPY.TXT" (init demo_clock)).
  - exists []; reflexivity.
  - vm_compute; reflexivity.
  - left. split; reflexivity.
  - vm_compute; reflexivity.
Defined.

(** A write at the name of the directory [DOS]: the directory and the file
    in it are gone, and one character is in use. *)
Lemma write_file_replaces_directory_witness :
  exists s',
    write_file demo_clock posix_split demo_frames "DOS" "x" (init demo_clock) = (Return true, s')
    /\ get_at (root s') ([] ++ ["DOS"]) = Some (File "DOS" 6 6 (PyStr.len "x") "x")
    /\ _calculate_used_space (root s')
       = (_calculate_used_space (root (init demo_clock))
          - _calculate_used_space
              (Dir "DOS" 2 3 [("README.TXT", File "README.TXT" 4 5 177 (readme))])
          + PyStr.len "x")%Z.
Proof.
  apply (write_file_replaces_directory nat demo_clock posix_split demo_frames
           "DOS" "x" "" "DOS" (init demo_clock) [] "C:" 0 1
           [("DOS", Dir "DOS" 2 3 [("README.TXT", File "README.TXT" 4 5 177 (readme))])]
           "DOS" 2 3 [("README.TXT", File "README.TXT" 4 5 177 (readme))]).
  - vm_compute; reflexivity.
  - vm_compute; reflexivity.
  - vm_compute; reflexivity.
  - reflexivity.
  - reflexivity.
  - vm_compute; discriminate.
Defined.

(** Into [DOS\SUB], a directory made for it, in one call. *)
Lemma change_directory_relative_witness :
  let s := snd (create_directory demo_clock posix_split demo_frames "DOS/SUB"
                  (init demo_clock)) in
  let s' := snd (change_directory demo_clock demo_frames "DOS\SUB" s) in
  exists l nm cr md content,
    _get_node_at_path demo_clock demo_frames "DOS\SUB" false s = (Return (Some l), s)
    /\ get_at (root s) l = Some (Dir nm cr md content)
    /\ current_path s' = current_path s ++ ["DOS"; "SUB"]
    /\ root s' = root s
    /\ _get_current_node demo_clock demo_frames s' = (Return (Some l), s').
Proof.
  apply (change_directory_relative nat demo_clock demo_frames ["DOS"; "SUB"]).
  - exists []; reflexivity.
  - split; [discriminate|]. repeat constructor.
  - vm_compute; reflexivity.
Defined.

(** The path [DOS], from the root, and the path shown for it. *)
Lemma get_full_path_resolves_witness :
  exists full,
    get_full_path "DOS" (init demo_clock) = (Return full, init demo_clock)
    /\ _get_node_at_path demo_clock demo_frames full false (init demo_clock)
       = _get_node_at_path demo_clock demo_frames "DOS" false (init demo_clock).
Proof.
  apply (get_full_path_resolves nat demo_clock demo_frames "DOS" (init demo_clock)).
  - split; [exists []; reflexivity|]. exists []. vm_compute; reflexivity.
  - right; right; right. exists ["DOS"]. split; [|reflexivity].
    split; [discriminate|]. repeat constructor.
Defined.

Lemma init_names_valid : names_valid (init_root demo_clock).
Proof.
  intros m k H. unfold init_root in H.
  destruct m as [|a [|b m]]; cbn [app get_at Dict.lookup] in H.
  - destruct (String.eqb_spec "DOS" k) as [E|]; [now subst k|now elim H].
  - destruct (String.eqb_spec "DOS" a) as [E|]; [subst a|now elim H].
    cbn [app get_at Dict.lookup] in H.
    destruct (String.eqb_spec "README.TXT" k) as [E|]; [now subst k|now elim H].
  - destruct (String.eqb_spec "DOS" a) as [E|]; [subst a|now elim H].
    cbn [app get_at Dict.lookup] in H.
    destruct (String.eqb_spec "README.TXT" b) as [E|]; [subst b|now elim H].
    destruct m; now elim H.
Qed.

(** The tree of a new file system, with its files. *)
Lemma generate_tree_renders_witness :
  generate_tree demo_clock demo_frames "." true (init demo_clock)
  = (Return [(tree_last ++ "DOS")%string; ("    " ++ tree_last ++ "README.TXT")%string],
     init demo_clock).
Proof.
  rewrite (proj1 (generate_tree_renders nat demo_clock demo_frames "." true (init demo_clock)
                    [] (init_root demo_clock)
                    (ex_intro _ [] eq_refl) init_tree_ok ltac:(discriminate)
                    eq_refl eq_refl init_names_valid)).
  vm_compute. reflexivity.
Defined.

(** A file written in [DOS], which was there. *)
Lemma write_file_needs_parent_witness :
  let s := init demo_clock in
  let s' := snd (write_file demo_clock posix_split demo_frames "DOS/A.TXT" "abc" s) in
  exists l nm cr md children,
    _get_node_at_path demo_clock demo_frames (or_dot "DOS") false s = (Return (Some l), s)
    /\ get_at (root s) l = Some (Dir nm cr md children)
    /\ s' = write_result demo_clock l "A.TXT" "abc" children s.
Proof.
  apply (write_file_needs_parent nat demo_clock posix_split demo_frames
           "DOS/A.TXT" "abc" "DOS" "A.TXT" (init demo_clock)).
  - vm_compute; reflexivity.
  - vm_compute; discriminate.
  - vm_compute; reflexivity.
Defined.

(** A new file of the directory the simulator starts with, written and
    deleted. *)
Lemma write_then_delete_witness :
  let s := init demo_clock in
  let s1 := snd (write_file demo_clock posix_split demo_frames "DOS/A.TXT" "abc" s) in
  exists l t s2,
    _get_node_at_path demo_clock demo_frames (or_dot "DOS") false s = (Return (Some l), s)
    /\ delete_file demo_clock posix_split demo_frames "DOS/A.TXT" s1 = (Return true, s2)
    /\ root s2 = update_at (set_modified t) l (root s)
    /\ _calculate_used_space (root s2) = _calculate_used_space (root s).
Proof.
  apply (write_then_delete nat demo_clock posix_split demo_frames
           "DOS/A.TXT" "abc" "DOS" "A.TXT" (init demo_clock)).
  - exists []; reflexivity.
  - vm_compute; reflexivity.
  - right. split; [discriminate|]. exists "/". conjs; try reflexivity. left; discriminate.
  - vm_compute; discriminate.
  - vm_compute; reflexivity.
  - vm_compute; reflexivity.
Defined.
